(** * The ONNX importer of Relax: a shallow embedding and its properties

    This development embeds the graph-lowering code of
    [python/tvm/relax/frontend/onnx/onnx_frontend.py] and proves the
    properties its specification states about it.

    Conventions of the embedding:
    - a Python [int] is a [Z]; positions produced by [enumerate] and [len]
      are [nat] and are injected into [Z] where Python mixes them;
    - a Python value that may be [None] is an [option];
    - a raised exception is the [Raise] case of [result], one constructor of
      [exn] per [raise] or [assert] site of the source;
    - the [dict]s whose iteration order is never observed ([_nodes],
      [_shape], a [dict]-valued [dtype_dict], the name map of the name
      supply) are [gmap]s; [_inputs], whose insertion order becomes the
      order of the function parameters, is an association list;
    - a Python [str] is a sequence of Unicode characters; a [string] holds
      the bytes of its UTF-8 encoding, as the exchange format stores a name,
      and a character is its code point;
    - [warnings.warn] has no effect on any returned value and is left out. *)

From Stdlib Require Import ZArith String Ascii List Lia.
From stdpp Require Import base option list list_numbers numbers strings pretty sorting gmap fin_maps.

#[local] Set Warnings "-register-all".

Local Open Scope string_scope.
Local Open Scope list_scope.
Local Open Scope Z_scope.

(** ** Exceptions and results *)

Inductive exn : Type :=
  | TypeError_list_indices
      (* "list indices must be integers or slices, not %s" *)
  | IndexError
      (* "list index out of range" *)
  | ValueError_slice_step_zero
      (* "slice step cannot be zero" *)
  | NotImplementedError_opset (version : Z) (cls : string)
      (* "opset version {} of {} not implemented" *)
  | NotImplementedError_operator (op_name : string)
      (* "Operator {} not implemented." *)
  | NotImplementedError_graphs
      (* "Field graphs is not supported in relax." *)
  | ValueError_tensor_name
      (* "Tensor's name is required." *)
  | ValueError_shape_expr (node_name : string)
      (* "Node {node.name} cannot handle ShapeExpr inputs." *)
  | ValueError_parse_attribute (attr_name : string)
      (* "Cannot parse attribute: ..." *)
  | ValueError_ir_version (ir_version : Z)
      (* "Model IR version {} not supported. ..." *)
  | OpNotImplemented (unsupported_ops : gset string)
      (* "The following operators are not supported for frontend ONNX: "
         followed by the members of the set, joined by ", " *)
  | AssertionError_missing_outputs (expected got : nat) (op_name : string)
      (* "Missing outputs during conversion. Expected {} but Got {} in {}." *)
  | AssertionError_attr_type
      (* "Only one type of attr is allowed" *)
  | KeyError (key : string)
  | AttributeError_None
      (* an attribute read on None *)
  | ExternalError (what : string).
      (* raised inside a library the importer calls *)

Inductive result (A : Type) : Type :=
  | Ok (a : A)
  | Raise (e : exn).
Arguments Ok {A} a.
Arguments Raise {A} e.

Global Instance result_ret : MRet result := fun A a => Ok a.
Global Instance result_bind : MBind result := fun A B k r =>
  match r with
  | Ok a => k a
  | Raise e => Raise e
  end.

(** [for x in xs: st = body(st, x)], stopping at the first exception. *)
Fixpoint for_each {S X : Type} (body : S -> X -> result S) (xs : list X) (st : S)
  : result S :=
  match xs with
  | [] => Ok st
  | x :: xs' => st' ← body st x; for_each body xs' st'
  end.

(** [[f(x) for x in xs]], stopping at the first exception. *)
Fixpoint map_result {X Y : Type} (f : X -> result Y) (xs : list X) : result (list Y) :=
  match xs with
  | [] => Ok []
  | x :: xs' => y ← f x; ys ← map_result f xs'; Ok (y :: ys)
  end.

Definition is_Ok {A : Type} (r : result A) : Prop := exists a, r = Ok a.
Definition is_Raise {A : Type} (r : result A) : Prop := exists e, r = Raise e.

(** ** Python sequences *)

Definition len {A : Type} (l : list A) : Z := Z.of_nat (length l).

(** [l[i]] on a built-in list: a negative index counts from the end. *)
Definition py_list_index {A : Type} (l : list A) (i : Z) : result A :=
  let j := if i <? 0 then i + len l else i in
  if j <? 0 then Raise IndexError
  else match l !! Z.to_nat j with
       | Some x => Ok x
       | None => Raise IndexError
       end.

Record slice : Type := Slice { start : option Z; stop : option Z; step : option Z }.

(** [slice.indices(length)] of CPython: the clamped start and stop and the step. *)
Definition slice_indices (s : slice) (length : Z) : result (Z * Z * Z) :=
  let st := default 1 (step s) in
  if st =? 0 then Raise ValueError_slice_step_zero
  else
    let lower := if st <? 0 then -1 else 0 in
    let upper := if st <? 0 then length - 1 else length in
    let clamp (x : Z) := if x <? 0 then Z.max (x + length) lower else Z.min x upper in
    let b := match start s with
             | None => if st <? 0 then upper else lower
             | Some x => clamp x
             end in
    let e := match stop s with
             | None => if st <? 0 then lower else upper
             | Some x => clamp x
             end in
    Ok (b, e, st).

(** [list(range(b, e, st))] for a non-zero step. *)
Definition py_range (b e st : Z) : list Z :=
  let n := if 0 <? st
           then (if b <? e then (e - b - 1) / st + 1 else 0)
           else (if e <? b then (b - e - 1) / (- st) + 1 else 0) in
  map (fun k => b + Z.of_nat k * st) (seq 0 (Z.to_nat n)).

(** [list(range(n)[s])]: the element of [range(n)] at position [i] is [i]. *)
Definition range_getitem_slice (n : Z) (s : slice) : result (list Z) :=
  '(b, e, st) ← slice_indices s (Z.max 0 n); Ok (py_range b e st).

(** [l[s]] on a built-in list. *)
Definition py_list_slice {A : Type} (l : list A) (s : slice) : result (list A) :=
  indices ← range_getitem_slice (len l) s;
  map_result (py_list_index l) indices.

(** ** [onnx_input]: the operand list handed to a converter *)

(** What is written between the brackets of [inputs[...]]. *)
Inductive subscript : Type :=
  | SubInt (item : Z)
  | SubSlice (item : slice)
  | SubOther.

(** A subscription yields one element or a list of elements. *)
Inductive subscripted (A : Type) : Type :=
  | Item (x : option A)
  | Items (xs : list (option A)).
Arguments Item {A} x.
Arguments Items {A} xs.

Section onnx_input.
Context {A : Type}.

(** The elements are operands or [None]. *)
Definition onnx_input : Type := list (option A).

(** The [isinstance(item, int)] branch of [__getitem__]. *)
Definition onnx_input_getitem_int (self : onnx_input) (item : Z) : result (option A) :=
  if item <? len self then py_list_index self item else Ok None.

Definition onnx_input_getitem (self : onnx_input) (item : subscript)
  : result (subscripted A) :=
  match item with
  | SubSlice item =>
      let stop := match stop item with
                  | None => len self
                  | Some stop => stop
                  end in
      indices ← range_getitem_slice stop item;
      xs ← map_result (onnx_input_getitem_int self) indices;
      Ok (Items xs)
  | SubInt item => x ← onnx_input_getitem_int self item; Ok (Item x)
  | SubOther => Raise TypeError_list_indices
  end.
End onnx_input.
Arguments onnx_input A : clear implicits.

(** ** [OnnxOpConverter]: the versions of an operator *)

(** A converter class is its name and the versions [n] of the class methods
    named [_impl_v<n>]; [dir(cls)] lists every such name once. *)
Record OnnxOpConverter : Type := ConverterClass {
  cls_name : string;
  impl_versions : list Z
}.

(** [sorted] on integers. *)
Definition sorted (l : list Z) : list Z := merge_sort Z.le l.

(** [[i for i, v in enumerate(versions) if v == opset]]. *)
Definition positions_of (opset : Z) (versions : list Z) : list nat :=
  (filter (fun iv => iv.2 = opset) (imap (fun i v => (i, v)) versions)).*1.

(** [hasattr(cls, "_impl_v{}".format(version))]. *)
Definition has_impl (cls : OnnxOpConverter) (version : Z) : bool :=
  bool_decide (version ∈ impl_versions cls).

(** [get_converter] answers with the version [x] of the method [_impl_v<x>]
    it returns. [max] is applied to a list that holds the position of
    [opset], so it never sees an empty list. *)
Definition get_converter (cls : OnnxOpConverter) (opset : Z) : result Z :=
  let versions := impl_versions cls in
  let versions := sorted (versions ++ [opset]) in
  version ← py_list_index versions
               (Z.of_nat (max_list (positions_of opset versions)) - 1);
  if has_impl cls version then Ok version
  else Raise (NotImplementedError_opset version (cls_name cls)).

Definition MatMul : OnnxOpConverter := ConverterClass "MatMul" [13].
Definition Unsqueeze : OnnxOpConverter := ConverterClass "Unsqueeze" [11; 13].
Definition ArgMax : OnnxOpConverter := ConverterClass "ArgMax" [1; 11; 12].

(** ** Tensors and Relax expressions *)

(** A dimension of a shape: a known integer or a symbolic variable. *)
Inductive PrimExpr : Type :=
  | IntImm (value : Z)
  | TirVar (name : string).

(** A materialised array: element type, shape and the elements in row-major
    order. An integer element is its value; an element of another type is
    its bit pattern. *)
Record NDArray : Type := mkNDArray {
  nd_dtype : string;
  nd_shape : list Z;
  nd_data : list Z
}.

Inductive StructInfo : Type :=
  | ObjectStructInfo
  | TensorStructInfo (shape : option (list PrimExpr)) (dtype : option string)
  | ShapeStructInfo (ndim : Z)
  | TupleStructInfo (fields : list StructInfo).

Inductive Expr : Type :=
  | Constant (data : NDArray)
  | ShapeExpr (values : list PrimExpr)
  | Var (name_hint : string) (sinfo : StructInfo)
  | Tuple (fields : list Expr)
  | TupleGetItem (tuple_value : Expr) (index : nat)
  | Call (op : string) (args : list Expr) (sinfo : StructInfo).

Fixpoint struct_info (e : Expr) : StructInfo :=
  match e with
  | Constant data =>
      TensorStructInfo (Some (List.map IntImm (nd_shape data))) (Some (nd_dtype data))
  | ShapeExpr values => ShapeStructInfo (len values)
  | Var _ sinfo => sinfo
  | Tuple fields => TupleStructInfo (List.map struct_info fields)
  | TupleGetItem tuple_value index =>
      match struct_info tuple_value with
      | TupleStructInfo fields => default ObjectStructInfo (fields !! index)
      | _ => ObjectStructInfo
      end
  | Call _ _ sinfo => sinfo
  end.

(** [isinstance(e, relax.Constant)], [isinstance(e, relax.Var)],
    [isinstance(e, relax.Tuple)], [isinstance(s, relax.ShapeStructInfo)]. *)
Definition is_Constant (e : Expr) : bool :=
  match e with Constant _ => true | _ => false end.
Definition is_Var (e : Expr) : bool :=
  match e with Var _ _ => true | _ => false end.
Definition is_Tuple (e : Expr) : bool :=
  match e with Tuple _ => true | _ => false end.
Definition is_ShapeStructInfo (s : StructInfo) : bool :=
  match s with ShapeStructInfo _ => true | _ => false end.

(** [op[i]]: [relax.Tuple] answers with its field, any other expression
    builds a [TupleGetItem]. *)
Definition expr_getitem (op : Expr) (i : nat) : result Expr :=
  match op with
  | Tuple fields =>
      match fields !! i with
      | Some x => Ok x
      | None => Raise IndexError
      end
  | _ => Ok (TupleGetItem op i)
  end.

(** ** The records of the exchange format *)

Record TensorProto : Type := mkTensorProto {
  tp_name : string;
  tp_dims : list Z;
  tp_data_type : Z;
  tp_int64_data : list Z
}.

Record Dimension : Type := mkDimension { dim_param : string; dim_value : Z }.

Record ValueInfoProto : Type := mkValueInfoProto {
  vi_name : string;
  vi_dim : list Dimension;
  vi_elem_type : Z
}.

Record AttributeProto : Type := mkAttributeProto {
  a_name : string;
  a_f : option Z;            (* a float, as its bit pattern *)
  a_i : option Z;
  a_s : option string;
  a_g : option unit;         (* a sub-graph, contents not looked at *)
  a_floats : list Z;
  a_ints : list Z;
  a_strings : list string;
  a_t : option TensorProto;
  a_tensors : list TensorProto;
  a_graphs : list unit
}.

Record NodeProto : Type := mkNodeProto {
  n_op_type : string;
  n_name : string;
  n_input : list string;
  n_output : list string;
  n_attribute : list AttributeProto
}.

Record GraphProto : Type := mkGraphProto {
  g_initializer : list TensorProto;
  g_input : list ValueInfoProto;
  g_output : list ValueInfoProto;
  g_node : list NodeProto
}.

Record OperatorSetIdProto : Type := mkOperatorSetId { os_domain : string; os_version : Z }.

Record ModelProto : Type := mkModelProto {
  m_ir_version : Z;
  m_opset_import : list OperatorSetIdProto;
  m_graph : GraphProto
}.

(** The values of the attribute dictionary a converter receives. *)
Inductive AttrValue : Type :=
  | AttrFloat (x : Z)
  | AttrInt (x : Z)
  | AttrBytes (x : string)
  | AttrGraph
  | AttrFloats (xs : list Z)
  | AttrInts (xs : list Z)
  | AttrStrings (xs : list string)
  | AttrTensor (t : TensorProto)
  | AttrTensors (ts : list TensorProto)
  | AttrCustom (name : string) (num_outputs : nat).   (* attr["tvm_custom"] *)

(** ** Strings *)

(** The six low bits of a continuation byte of UTF-8. *)
Definition continuation (c : ascii) : option Z :=
  let n := Z.of_nat (nat_of_ascii c) in
  if (128 <=? n) && (n <? 192) then Some (n - 128) else None.

(** The first character of a [str] and the rest of it; [None] for the empty
    string and for bytes that are the encoding of no [str]. *)
Definition decode_char (s : string) : option (Z * string) :=
  match s with
  | EmptyString => None
  | String c0 s1 =>
      let n0 := Z.of_nat (nat_of_ascii c0) in
      if n0 <? 128 then Some (n0, s1)
      else if n0 <? 192 then None
      else if n0 <? 224 then
        match s1 with
        | String c1 s2 =>
            x1 ← continuation c1;
            let cp := (n0 - 192) * 64 + x1 in
            if 128 <=? cp then Some (cp, s2) else None
        | _ => None
        end
      else if n0 <? 240 then
        match s1 with
        | String c1 (String c2 s3) =>
            x1 ← continuation c1;
            x2 ← continuation c2;
            let cp := (n0 - 224) * 4096 + x1 * 64 + x2 in
            if (2048 <=? cp) && negb ((55296 <=? cp) && (cp <? 57344))
            then Some (cp, s3) else None
        | _ => None
        end
      else if n0 <? 248 then
        match s1 with
        | String c1 (String c2 (String c3 s4)) =>
            x1 ← continuation c1;
            x2 ← continuation c2;
            x3 ← continuation c3;
            let cp := (n0 - 240) * 262144 + x1 * 4096 + x2 * 64 + x3 in
            if (65536 <=? cp) && (cp <? 1114112) then Some (cp, s4) else None
        | _ => None
        end
      else None
  end.

(** [s[0]], the first character of a [str] that is not empty. *)
Definition first_char (s : string) : option Z := fst <$> decode_char s.

(** Every character of [s] satisfies [P]; a character takes a byte at
    least, so [fuel] is the number of bytes. *)
Fixpoint all_chars (P : Z -> bool) (fuel : nat) (s : string) : bool :=
  match s with
  | EmptyString => true
  | String _ _ =>
      match fuel with
      | O => false
      | S fuel' =>
          match decode_char s with
          | Some (cp, rest) => P cp && all_chars P fuel' rest
          | None => false
          end
      end
  end.

(** ** The block builder

    [relax.BlockBuilder] is not part of the importer. Its state is held as
    the sequence of the calls made on it inside the dataflow block of
    [main], the latest last: the unique names [testing.nn.Parameter] asks
    for, the converters it is handed to, the expressions normalised and the
    bindings emitted. *)
Inductive bb_call : Type :=
  | GetUniqueName (name : string)
  | ConverterCall (op_name : string) (inputs : list (option Expr))
      (attrs : gmap string AttrValue)
  | Normalize (op : Expr)
  | Emit (binding : Expr).

Definition BlockBuilder : Type := list bb_call.

(** ** The libraries the importer calls

    numpy, the onnx package and the core of TVM are not part of the
    importer. Their operations are the fields of [External], and every
    definition below takes them from there. The bodies of the converters
    that are not embedded one by one are taken the same way: a converter is
    a function of the operands and the attributes. *)
Record External : Type := mkExternal {
  (* numpy: [a + b] on arrays and [a.reshape(dims)] *)
  np_add : NDArray -> NDArray -> result NDArray;
  np_reshape : NDArray -> list Z -> result NDArray;
  (* onnx: [numpy_helper.to_array] and [mapping.TENSOR_TYPE_TO_NP_TYPE] *)
  to_array : TensorProto -> result NDArray;
  TENSOR_TYPE_TO_NP_TYPE : Z -> option string;
  (* tvm: [BlockBuilder.normalize] and [relax.op.add] *)
  bb_normalize : Expr -> result Expr;
  relax_op_add : option Expr -> option Expr -> result Expr;
  (* tvm: [BlockBuilder.get_unique_name] on a builder with the calls made *)
  get_unique_name : BlockBuilder -> string -> string;
  (* Python: [c.isalpha()] on a character beyond ASCII, by its code point *)
  unicode_isalpha : Z -> bool;
  (* the method [_impl_v<version>] of a converter class embedded by name only *)
  converter_body :
    string -> Z -> onnx_input Expr -> gmap string AttrValue -> result Expr
}.

(** ** [NameSupply] *)

(** Modelled from the spec: [tvm.ir.supply.NameSupply] is missing from the
    sources at hand. The supply keeps a counter per issued name; a name never
    issued before is issued as it is, and a name that collides with an issued
    one receives a numeric suffix, the counter going up until the suffixed
    name is new. The supply is created with an empty prefix. *)
Record NameSupply : Type := mkNameSupply { name_map : gmap string nat }.

Definition NameSupply_new : NameSupply := mkNameSupply ∅.

(** [str.replace(old, new)] for one-character [old] and [new]. *)
Fixpoint replace_char (old new : ascii) (s : string) : string :=
  match s with
  | EmptyString => EmptyString
  | String c s' => String (if decide (c = old) then new else c) (replace_char old new s')
  end.

Definition suffixed (name : string) (k : nat) : string := name +:+ "_" +:+ pretty k.

(** The first of the counters [k], [k + 1], ... whose suffixed name is not in
    the map; [fuel] bounds the search. *)
Fixpoint next_free (m : gmap string nat) (name : string) (fuel k : nat) : nat :=
  match fuel with
  | O => k
  | S fuel' =>
      match m !! suffixed name k with
      | None => k
      | Some _ => next_free m name fuel' (S k)
      end
  end.

(** Modelled from the spec: [NameSupply.fresh_name(name)], missing from the
    sources at hand; the issued name and the supply afterwards. Dots become
    underscores; a name not issued before is issued as it is; a name that
    collides receives the first numeric suffix above its counter that
    yields a new name. More names than the map has keys cannot all be
    taken, so the search is given one step more than the size of the map. *)
Definition fresh_name (self : NameSupply) (name : string) : string * NameSupply :=
  let name := replace_char "." "_" name in
  let m := name_map self in
  match m !! name with
  | None => (name, mkNameSupply (<[name := O]> m))
  | Some count =>
      let k := next_free m name (S (size m)) (S count) in
      let new_name := suffixed name k in
      (new_name, mkNameSupply (<[new_name := O]> (<[name := k]> m)))
  end.

(** The names a supply has issued. *)
Definition issued (self : NameSupply) (name : string) : Prop :=
  is_Some (name_map self !! name).

(** ** Name sanitisation *)

(** [c.isalpha()] on a character: the letters of ASCII, and beyond ASCII
    what the Unicode tables of the interpreter say. *)
Definition isalpha (E : External) (c : Z) : bool :=
  if c <? 128 then (65 <=? c) && (c <=? 90) || (97 <=? c) && (c <=? 122)
  else unicode_isalpha E c.

(** A name that starts with a letter or an underscore. *)
Definition starts_well (E : External) (s : string) : Prop :=
  exists c, first_char s = Some c /\ (isalpha E c = true \/ c = 95).

(** [_sanitize_name], on the name supply of the importer. *)
Definition _sanitize_name (E : External) (supply : NameSupply) (name : string)
  : string * NameSupply :=
  match name with
  | EmptyString => fresh_name supply "empty_"
  | String _ _ =>
      let new_name := replace_char "." "_" name in
      match first_char new_name with
      | Some c =>
          if negb (isalpha E c) && negb (c =? 95)
          then fresh_name supply ("input_" +:+ new_name)
          else fresh_name supply new_name
      | None =>   (* not reached: [new_name] is a [str] and is not empty *)
          fresh_name supply ("input_" +:+ new_name)
      end
  end.

(** The names one supply issues for a sequence of raw names, in order. *)
Fixpoint sanitize_names (E : External) (supply : NameSupply) (names : list string)
  : list string :=
  match names with
  | [] => []
  | name :: names' =>
      let '(new_name, supply') := _sanitize_name E supply name in
      new_name :: sanitize_names E supply' names'
  end.

(** ** Converters *)

(** [all([isinstance(inp, relax.Constant) for inp in inputs])] *)
Definition all_Constant (inputs : onnx_input Expr) : bool :=
  forallb (fun inp => match inp with
                      | Some e => is_Constant e
                      | None => false
                      end) inputs.

(** [inp.data.numpy()] *)
Definition data_numpy (inp : option Expr) : result NDArray :=
  match inp with
  | Some (Constant data) => Ok data
  | _ => Raise AttributeError_None
  end.

Section converters.
Context (E : External).

(** [Add._impl_v13]; [relax.const(output, output.dtype)] keeps the array. *)
Definition Add_impl_v13 (inputs : onnx_input Expr) (attr : gmap string AttrValue)
  : result Expr :=
  if all_Constant inputs then
    i0 ← onnx_input_getitem_int inputs 0;
    a ← data_numpy i0;
    i1 ← onnx_input_getitem_int inputs 1;
    b ← data_numpy i1;
    output ← np_add E a b;
    Ok (Constant output)
  else
    i0 ← onnx_input_getitem_int inputs 0;
    i1 ← onnx_input_getitem_int inputs 1;
    relax_op_add E i0 i1.

(** [getattr(cls, "_impl_v{}".format(version))] *)
Definition get_impl (cls : OnnxOpConverter) (version : Z)
  : onnx_input Expr -> gmap string AttrValue -> result Expr :=
  if decide (cls_name cls = "Add" /\ version = 13) then Add_impl_v13
  else converter_body E (cls_name cls) version.
End converters.

Definition _get_convert_map : gmap string OnnxOpConverter :=
  list_to_map [
    ("MatMul", ConverterClass "MatMul" [13]);
    ("Concat", ConverterClass "Concat" [13]);
    ("Add", ConverterClass "Add" [13]);
    ("Mul", ConverterClass "Mul" [13]);
    ("Cast", ConverterClass "Cast" [13]);
    ("Gather", ConverterClass "Gather" [13]);
    ("Gemm", ConverterClass "Gemm" [13]);
    ("Reshape", ConverterClass "Reshape" [13]);
    ("Div", ConverterClass "Div" [14]);
    ("Sigmoid", ConverterClass "Sigmoid" [13]);
    ("Softmax", ConverterClass "Softmax" [13]);
    ("Transpose", ConverterClass "Transpose" [13]);
    ("Unsqueeze", ConverterClass "Unsqueeze" [11; 13]);
    ("Gelu", ConverterClass "Gelu" [1]);
    ("BiasGelu", ConverterClass "BiasGelu" [1]);
    ("Where", ConverterClass "Where" [16]);
    ("Clip", ConverterClass "Clip" [13]);
    ("Equal", ConverterClass "Equal" [13]);
    ("Shape", ConverterClass "Shape" [13]);
    ("Not", ConverterClass "Not" [13]);
    ("Tanh", ConverterClass "Tanh" [13]);
    ("Sqrt", ConverterClass "Sqrt" [13]);
    ("Relu", ConverterClass "Relu" [13]);
    ("Conv", ConverterClass "Conv" [11]);
    ("Pow", ConverterClass "Pow" [13]);
    ("Erf", ConverterClass "Erf" [13]);
    ("CumSum", ConverterClass "CumSum" [14]);
    ("Squeeze", ConverterClass "Squeeze" [13]);
    ("Constant", ConverterClass "Constant" [13]);
    ("Sub", ConverterClass "Sub" [13]);
    ("Sin", ConverterClass "Sin" [7]);
    ("Cos", ConverterClass "Cos" [7]);
    ("Neg", ConverterClass "Neg" [13]);
    ("Abs", ConverterClass "Abs" [13]);
    ("Min", ConverterClass "Min" [13]);
    ("Max", ConverterClass "Max" [13]);
    ("Log", ConverterClass "Log" [13]);
    ("Exp", ConverterClass "Exp" [1; 13]);
    ("Less", ConverterClass "Less" [13]);
    ("LessOrEqual", ConverterClass "LessOrEqual" [13]);
    ("LayerNormalization", ConverterClass "LayerNormalization" [17]);
    ("SkipLayerNormalization", ConverterClass "SkipLayerNormalization" [1]);
    ("EmbedLayerNormalization", ConverterClass "EmbedLayerNormalization" [1]);
    ("InstanceNormalization", ConverterClass "InstanceNormalization" [6]);
    ("ReduceMax", ConverterClass "ReduceMax" [11]);
    ("ReduceMin", ConverterClass "ReduceMin" [11]);
    ("ReduceSum", ConverterClass "ReduceSum" [11; 13]);
    ("ReduceMean", ConverterClass "ReduceMean" [13]);
    ("ReduceProd", ConverterClass "ReduceProd" [13]);
    ("ReduceLogSumExp", ConverterClass "ReduceLogSumExp" [13]);
    ("ReduceLogSum", ConverterClass "ReduceLogSum" [13]);
    ("ReduceSumSquare", ConverterClass "ReduceSumSquare" [13]);
    ("ReduceL1", ConverterClass "ReduceL1" [13]);
    ("ReduceL2", ConverterClass "ReduceL2" [13]);
    ("ArgMax", ConverterClass "ArgMax" [1; 11; 12]);
    ("ArgMin", ConverterClass "ArgMin" [1; 11; 12]);
    ("Expand", ConverterClass "Expand" [13]);
    ("ConstantOfShape", ConverterClass "ConstantOfShape" [9]);
    ("Slice", ConverterClass "Slice" [13]);
    ("Attention", ConverterClass "Attention" [1]);
    ("Pad", ConverterClass "Pad" [11]);
    ("Split", ConverterClass "Split" [1; 13]);
    ("Tile", ConverterClass "Tile" [13]);
    ("BatchNormalization", ConverterClass "BatchNormalization" [16]);
    ("GlobalAveragePool", ConverterClass "GlobalAveragePool" [1]);
    ("Flatten", ConverterClass "Flatten" [13]);
    ("MaxPool", ConverterClass "MaxPool" [12]);
    ("Identity", ConverterClass "Identity" [1]);
    ("Resize", ConverterClass "Resize" [18]);
    ("Einsum", ConverterClass "Einsum" [12]);
    ("Range", ConverterClass "Range" [12]);
    ("Greater", ConverterClass "Greater" [13]);
    ("Reciprocal", ConverterClass "Reciprocal" [13]);
    ("OneHot", ConverterClass "OneHot" [11])
  ].

(** ** [ONNXGraphImporter] *)

(** The [dtype_dict] argument: absent, one type, or a type per name. *)
Inductive dtype_dict_arg : Type :=
  | DtypeNone
  | DtypeStr (dtype : string)
  | DtypeDict (dtypes : gmap string string).

(** A [dict] whose order of insertion is observed: assigning to a key that
    is present keeps its place, a new key goes to the end. *)
Fixpoint odict_set {V : Type} (d : list (string * V)) (k : string) (v : V)
  : list (string * V) :=
  match d with
  | [] => [(k, v)]
  | (k', v') :: d' =>
      if decide (k' = k) then (k, v) :: d' else (k', v') :: odict_set d' k v
  end.

Record ONNXGraphImporter : Type := mkImporter {
  _nodes : gmap string Expr;
  _inputs : list (string * Expr);
  _num_input : nat;
  _shape : gmap string (list PrimExpr);
  _input_names : list string;
  _dtype : dtype_dict_arg;
  opset : option Z;
  _name_supply : NameSupply;
  _sanitize : bool;
  bb : BlockBuilder
}.

(** [ONNXGraphImporter(shape_dict, dtype_dict, sanitize)] *)
Definition ONNXGraphImporter_init (shape_dict : option (gmap string (list PrimExpr)))
    (dtype_dict : dtype_dict_arg) (sanitize : bool) : ONNXGraphImporter :=
  {| _nodes := ∅;
     _inputs := [];
     _num_input := O;
     _shape := default ∅ shape_dict;
     _input_names := [];
     _dtype := dtype_dict;
     opset := None;
     _name_supply := NameSupply_new;
     _sanitize := sanitize;
     bb := [] |}.

Definition set_nodes (self : ONNXGraphImporter) (nodes : gmap string Expr)
  : ONNXGraphImporter :=
  {| _nodes := nodes; _inputs := _inputs self; _num_input := _num_input self;
     _shape := _shape self; _input_names := _input_names self;
     _dtype := _dtype self; opset := opset self;
     _name_supply := _name_supply self; _sanitize := _sanitize self;
     bb := bb self |}.

Definition set_opset (self : ONNXGraphImporter) (v : Z) : ONNXGraphImporter :=
  {| _nodes := _nodes self; _inputs := _inputs self; _num_input := _num_input self;
     _shape := _shape self; _input_names := _input_names self;
     _dtype := _dtype self; opset := Some v;
     _name_supply := _name_supply self; _sanitize := _sanitize self;
     bb := bb self |}.

(** The importer after calls on its block builder. *)
Definition add_calls (self : ONNXGraphImporter) (calls : list bb_call)
  : ONNXGraphImporter :=
  {| _nodes := _nodes self; _inputs := _inputs self; _num_input := _num_input self;
     _shape := _shape self; _input_names := _input_names self;
     _dtype := _dtype self; opset := opset self;
     _name_supply := _name_supply self; _sanitize := _sanitize self;
     bb := bb self ++ calls |}.

(** [self._nodes[name]] *)
Definition nodes_getitem (nodes : gmap string Expr) (name : string) : result Expr :=
  match nodes !! name with
  | Some e => Ok e
  | None => Raise (KeyError name)
  end.

(** The function [from_onnx] finalises: its name, parameters and result. *)
Record Function : Type := mkFunction {
  fn_name : string;
  fn_params : list Expr;
  fn_body : Expr
}.

(** [c.isspace()], the characters [str.strip] removes: the white space of
    ASCII with the four separators below the space, and the white space of
    Unicode beyond ASCII. *)
Definition is_space (c : Z) : bool :=
  (9 <=? c) && (c <=? 13) || (28 <=? c) && (c <=? 32)
  || (c =? 133) || (c =? 160) || (c =? 5760)
  || (8192 <=? c) && (c <=? 8202)
  || (c =? 8232) || (c =? 8233) || (c =? 8239) || (c =? 8287) || (c =? 12288).

(** [s.strip()] is empty: every character of [s] is white space. *)
Definition is_blank (s : string) : bool := all_chars is_space (String.length s) s.

Definition shape_compatible_ops : list string :=
  ["Reshape"; "ConstantOfShape"; "Gather"; "Slice"; "Expand"].

(** The loop over the operands at the head of [_construct_nodes] that turns
    away shape expressions. *)
Fixpoint check_shape_inputs (node_name op_name : string) (inputs : onnx_input Expr)
  : result unit :=
  match inputs with
  | [] => Ok ()
  | inp :: inputs' =>
      if match inp with
         | Some e => is_ShapeStructInfo (struct_info e)
         | None => false
         end
         && negb (bool_decide (op_name ∈ shape_compatible_ops))
      then Raise (ValueError_shape_expr node_name)
      else check_shape_inputs node_name op_name inputs'
  end.

(** The unpacking of a converted operator into a tuple and the number of
    its outputs. The variable [bb.emit] binds to a [TupleGetItem] is
    identified with that expression. *)
Definition unpack_outputs (op : Expr) : Expr * nat :=
  if negb (is_Tuple op) then
    match struct_info op with
    | TupleStructInfo fields =>
        let tuple_items := List.map (fun i => TupleGetItem op i) (seq 0 (length fields)) in
        (Tuple tuple_items, length tuple_items)
    | _ => (op, 1%nat)
    end
  else
    match op with
    | Tuple fields => (op, length fields)
    | _ => (op, 1%nat)       (* not reached: [op] is a tuple *)
    end.

(** The end of the loop body of [_construct_nodes]: the assertion on the
    number of outputs and the recording of the outputs in [_nodes]. *)
Definition record_outputs (nodes : gmap string Expr) (op_name : string)
    (outputs : list string) (op : Expr) : result (gmap string Expr) :=
  let '(op, outputs_num) := unpack_outputs op in
  if negb (length outputs <=? outputs_num)%nat
  then Raise (AssertionError_missing_outputs (length outputs) outputs_num op_name)
  else if (outputs_num =? 1)%nat then
    match outputs with
    | o :: _ => Ok (<[o := op]> nodes)
    | [] => Raise IndexError
    end
  else
    for_each (fun nodes '(k, i) => x ← expr_getitem op i; Ok (<[k := x]> nodes))
             (zip outputs (seq 0 (length outputs))) nodes.

(** One attribute of [_parse_attr]. *)
Definition parse_one_attr (attrs : gmap string AttrValue) (a : AttributeProto)
  : result (gmap string AttrValue) :=
  let name := a_name a in
  let set_opt {X} (field : option X) (mk : X -> AttrValue) (attrs : gmap string AttrValue) :=
    match field with
    | Some x => <[name := mk x]> attrs
    | None => attrs
    end in
  let set_list {X} (field : list X) (mk : list X -> AttrValue)
      (attrs : gmap string AttrValue) : result (gmap string AttrValue) :=
    match field with
    | [] => Ok attrs
    | _ :: _ =>
        match attrs !! name with
        | Some _ => Raise AssertionError_attr_type
        | None => Ok (<[name := mk field]> attrs)
        end
    end in
  let attrs := set_opt (a_f a) AttrFloat attrs in
  let attrs := set_opt (a_i a) AttrInt attrs in
  let attrs := set_opt (a_s a) AttrBytes attrs in
  let attrs := set_opt (a_g a) (fun _ => AttrGraph) attrs in
  attrs ← set_list (a_floats a) AttrFloats attrs;
  attrs ← set_list (a_ints a) AttrInts attrs;
  attrs ← set_list (a_strings a) AttrStrings attrs;
  let attrs := set_opt (a_t a) AttrTensor attrs in
  attrs ← set_list (a_tensors a) AttrTensors attrs;
  match a_graphs a with
  | _ :: _ => Raise NotImplementedError_graphs
  | [] =>
      match attrs !! name with
      | None => Raise (ValueError_parse_attribute name)
      | Some _ => Ok attrs
      end
  end.

Definition _parse_attr (attr_proto : list AttributeProto) : result (gmap string AttrValue) :=
  for_each parse_one_attr attr_proto ∅.

(** [_check_for_unsupported_ops] *)
Definition unsupported_ops_of (nodes : list NodeProto) : gset string :=
  foldl (fun unsupported_ops node =>
           let op_name := n_op_type node in
           if bool_decide (_get_convert_map !! op_name = None)
              && negb (bool_decide (op_name = "Constant"))
           then unsupported_ops ∪ {[ op_name ]}
           else unsupported_ops)
        ∅ nodes.

Definition _check_for_unsupported_ops (graph : GraphProto) : result unit :=
  let unsupported_ops := unsupported_ops_of (g_node graph) in
  if bool_decide (unsupported_ops = ∅) then Ok ()
  else Raise (OpNotImplemented unsupported_ops).

Section importer.
Context (E : External).

(** [get_type] on the integer element type of a tensor. *)
Definition get_type (elem_type : Z) : result string :=
  match TENSOR_TYPE_TO_NP_TYPE E elem_type with
  | Some t => Ok t
  | None => Raise (KeyError (pretty elem_type))
  end.

(** [get_info]: the name, the shape and the element type of a declared
    value; the fourth component only feeds a warning. *)
Definition get_info (info_proto : ValueInfoProto)
  : result (string * list PrimExpr * option string) :=
  let shape := List.map (fun dim => let value := dim_value dim in
                                    if value =? 0 then TirVar "dyn" else IntImm value)
                        (vi_dim info_proto) in
  dtype ← (if vi_elem_type info_proto =? 0 then Ok None
           else t ← get_type (vi_elem_type info_proto); Ok (Some t));
  Ok (vi_name info_proto, shape, dtype).

(** [_parse_array] *)
Definition _parse_array (tensor_proto : TensorProto) : result NDArray :=
  a ← to_array E tensor_proto;
  np_reshape E a (tp_dims tensor_proto).

Definition _parse_graph_initializers (self : ONNXGraphImporter) (graph : GraphProto)
  : result ONNXGraphImporter :=
  for_each (fun self init_tensor =>
              if is_blank (tp_name init_tensor) then Raise ValueError_tensor_name
              else
                array ← _parse_array init_tensor;
                Ok (set_nodes self (<[tp_name init_tensor := Constant array]> (_nodes self))))
           (g_initializer graph) self.

(** [_new_var]: a [Parameter] is a [relax.Var] with the struct info of a
    tensor of the given shape and element type. Its name is not [var_name]
    as it stands: the constructor of [Parameter] asks the block builder in
    scope, which is the one of the importer, for a unique name made of it. *)
Definition _new_var (self : ONNXGraphImporter) (var_name : string)
    (shape : list PrimExpr) (dtype : option string) : Expr * BlockBuilder :=
  (Var (get_unique_name E (bb self) var_name) (TensorStructInfo (Some shape) dtype),
   bb self ++ [GetUniqueName var_name]).

(** The body of the loop of [_parse_graph_input]. *)
Definition parse_one_input (self : ONNXGraphImporter) (i : ValueInfoProto)
  : result ONNXGraphImporter :=
  '(i_name, i_shape, d_type) ← get_info i;
  self ←
    match _nodes self !! i_name with
    | Some _ => Ok self
    | None =>
        let i_shape := match _shape self !! i_name with
                       | Some shape => shape
                       | None => i_shape
                       end in
        let dtype := match _dtype self with
                     | DtypeDict dtypes =>
                         match dtypes !! i_name with
                         | Some t => Some t
                         | None => d_type
                         end
                     | _ => d_type
                     end in
        let '(var_name, supply) :=
          if _sanitize self then _sanitize_name E (_name_supply self) i_name
          else (i_name, _name_supply self) in
        let '(var, builder) := _new_var self var_name i_shape dtype in
        Ok {| _nodes := <[i_name := var]> (_nodes self);
              _inputs := _inputs self;
              _num_input := S (_num_input self);
              _shape := _shape self;
              _input_names := _input_names self ++ [i_name];
              _dtype := _dtype self;
              opset := opset self;
              _name_supply := supply;
              _sanitize := _sanitize self;
              bb := builder |}
    end;
  v ← nodes_getitem (_nodes self) i_name;
  Ok {| _nodes := _nodes self;
        _inputs := odict_set (_inputs self) i_name v;
        _num_input := _num_input self;
        _shape := _shape self;
        _input_names := _input_names self;
        _dtype := _dtype self;
        opset := opset self;
        _name_supply := _name_supply self;
        _sanitize := _sanitize self;
        bb := bb self |}.

Definition _parse_graph_input (self : ONNXGraphImporter) (graph : GraphProto)
  : result ONNXGraphImporter :=
  for_each parse_one_input (g_input graph) self.

Definition _convert_operator (op_name : string) (node_index : nat)
    (inputs : onnx_input Expr) (attrs : gmap string AttrValue) (opset : Z)
  : result Expr :=
  match _get_convert_map !! op_name with
  | Some convert_class =>
      version ← get_converter convert_class opset;
      get_impl E convert_class version inputs attrs
  | None => Raise (NotImplementedError_operator op_name)
  end.

(** The operands of a node: the value recorded under each input name,
    [None] for the empty name. *)
Definition resolve_inputs (nodes : gmap string Expr) (names : list string)
  : result (onnx_input Expr) :=
  map_result (fun i => if decide (i = "") then Ok None
                       else e ← nodes_getitem nodes i; Ok (Some e)) names.

(** The bindings the unpacking of a converted operator emits: one
    [TupleGetItem] per field, for an operator that is no tuple and has the
    type of one. *)
Definition emitted (op : Expr) : list bb_call :=
  if negb (is_Tuple op) then
    match struct_info op with
    | TupleStructInfo fields =>
        List.map (fun i => Emit (TupleGetItem op i)) (seq 0 (length fields))
    | _ => []
    end
  else [].

(** The body of the loop of [_construct_nodes]. The opset is set by
    [from_onnx] before the loop runs. The converter is handed the block
    builder, which then normalises the operator and emits the bindings of
    the unpacking. *)
Definition construct_node (self : ONNXGraphImporter) (indexed : nat * NodeProto)
  : result ONNXGraphImporter :=
  let '(node_index, node) := indexed in
  let op_name := n_op_type node in
  attr ← _parse_attr (n_attribute node);
  inputs ← resolve_inputs (_nodes self) (n_input node);
  let i_name := n_name node in
  let outputs := n_output node in
  let attr := <["tvm_custom" := AttrCustom i_name (length outputs)]> attr in
  _ ← check_shape_inputs (n_name node) op_name inputs;
  opset ← match opset self with
          | Some v => Ok v
          | None => Raise (ExternalError "opset is None")
          end;
  converted ← _convert_operator op_name node_index inputs attr opset;
  op ← bb_normalize E converted;
  nodes ← record_outputs (_nodes self) op_name outputs op;
  Ok (add_calls (set_nodes self nodes)
        (ConverterCall op_name inputs attr :: Normalize converted :: emitted op)).

Definition _construct_nodes (self : ONNXGraphImporter) (graph : GraphProto)
  : result ONNXGraphImporter :=
  for_each construct_node (imap (fun i node => (i, node)) (g_node graph)) self.

(** [[v for k, v in self._inputs.items() if isinstance(v, relax.Var)]] *)
Definition param_list (self : ONNXGraphImporter) : list Expr :=
  filter (fun v => is_Var v = true) (List.map snd (_inputs self)).

(** The method [ONNXGraphImporter.from_onnx]. *)
Definition ONNXGraphImporter_from_onnx (self : ONNXGraphImporter) (graph : GraphProto)
    (opset : Z) : result Function :=
  let self := set_opset self opset in
  self ← _parse_graph_initializers self graph;
  self ← _parse_graph_input self graph;
  _ ← _check_for_unsupported_ops graph;
  self ← _construct_nodes self graph;
  outputs ← map_result (fun i => nodes_getitem (_nodes self) (vi_name i)) (g_output graph);
  let outputs := match outputs with
                 | [o] => o
                 | _ => Tuple outputs
                 end in
  Ok {| fn_name := "main"; fn_params := param_list self; fn_body := outputs |}.

(** The opset the model declares for the default domain, 1 without one. *)
Definition opset_in_model (model : ModelProto) : Z :=
  match filter (fun o => os_domain o ∈ ["ai.onnx"; ""]) (m_opset_import model) with
  | o :: _ => os_version o
  | [] => 1
  end.

(** The entry point [from_onnx]. *)
Definition from_onnx (model : ModelProto)
    (shape_dict : option (gmap string (list PrimExpr)))
    (dtype_dict : dtype_dict_arg) (opset : option Z) (sanitize_input_names : bool)
  : result Function :=
  if m_ir_version model <? 3 then Raise (ValueError_ir_version (m_ir_version model))
  else
    let g := ONNXGraphImporter_init shape_dict dtype_dict sanitize_input_names in
    let graph := m_graph model in
    let opset := match opset with
                 | None => opset_in_model model
                 | Some v => v
                 end in
    ONNXGraphImporter_from_onnx g graph opset.
End importer.

(** The components of an unpacked result: the fields of a tuple, the
    expression itself otherwise. *)
Definition components (op : Expr) : list Expr :=
  match op with
  | Tuple fields => fields
  | _ => [op]
  end.

(** A node uses an operator the converter map does not know. *)
Definition has_unsupported_op (graph : GraphProto) : Prop :=
  exists node, node ∈ g_node graph /\ _get_convert_map !! n_op_type node = None.

(** An operand that is present and is a shape. *)
Definition has_shape_operand (inputs : onnx_input Expr) : Prop :=
  exists e, Some e ∈ inputs /\ is_ShapeStructInfo (struct_info e) = true.

(** ** A host for the scenarios

    The scenarios run on tensors of 64-bit integers of one shape: on these
    numpy adds element by element and wraps around. [BlockBuilder.normalize]
    leaves a constant and a variable as they are. Converters that are not
    embedded are not called by any scenario. The names of the scenarios are
    made unique by a count of the earlier requests, and their characters
    are below 256. *)

Definition wrap_int64 (z : Z) : Z := (z + 2 ^ 63) mod 2 ^ 64 - 2 ^ 63.

Definition int64_add (a b : NDArray) : result NDArray :=
  if decide (nd_dtype a = "int64" /\ nd_dtype b = "int64" /\ nd_shape a = nd_shape b)
  then Ok (mkNDArray "int64" (nd_shape a)
             (zip_with (fun x y => wrap_int64 (x + y)) (nd_data a) (nd_data b)))
  else Raise (ExternalError "numpy.add").

Definition int64_to_array (t : TensorProto) : result NDArray :=
  if tp_data_type t =? 7
  then Ok (mkNDArray "int64" (tp_dims t) (tp_int64_data t))
  else Raise (ExternalError "onnx.numpy_helper.to_array").

Definition reshape (a : NDArray) (dims : list Z) : result NDArray :=
  if foldr Z.mul 1 dims =? len (nd_data a)
  then Ok (mkNDArray (nd_dtype a) dims (nd_data a))
  else Raise (ExternalError "numpy.reshape").

Definition np_type_of (elem_type : Z) : option string :=
  match elem_type with
  | 1 => Some "float32"
  | 2 => Some "uint8"
  | 3 => Some "int8"
  | 4 => Some "uint16"
  | 5 => Some "int16"
  | 6 => Some "int32"
  | 7 => Some "int64"
  | 9 => Some "bool"
  | 10 => Some "float16"
  | 11 => Some "float64"
  | 12 => Some "uint32"
  | 13 => Some "uint64"
  | _ => None
  end.

(** The names the builder of the scenarios hands out: dots become
    underscores, and a name asked for before is given the number of the
    earlier requests. *)
Definition unique_name (builder : BlockBuilder) (name : string) : string :=
  let name := replace_char "." "_" name in
  let asked := length (filter (fun call => match call with
                                           | GetUniqueName n =>
                                               bool_decide (replace_char "." "_" n = name)
                                           | _ => false
                                           end = true) builder) in
  if (asked =? 0)%nat then name else name +:+ pretty asked.

(** The letters among the characters from 128 to 255; the scenarios use no
    character beyond them. *)
Definition latin1_isalpha (c : Z) : bool :=
  (c =? 170) || (c =? 181) || (c =? 186)
  || (192 <=? c) && (c <=? 214) || (216 <=? c) && (c <=? 246)
  || (248 <=? c) && (c <=? 255).

Definition host : External :=
  {| np_add := int64_add;
     np_reshape := reshape;
     to_array := int64_to_array;
     TENSOR_TYPE_TO_NP_TYPE := np_type_of;
     bb_normalize := Ok;
     relax_op_add := fun a b =>
       match a, b with
       | Some a, Some b => Ok (Call "relax.add" [a; b] (TensorStructInfo None None))
       | _, _ => Raise (ExternalError "relax.op.add")
       end;
     get_unique_name := unique_name;
     unicode_isalpha := latin1_isalpha;
     converter_body := fun _ _ _ _ => Raise (ExternalError "converter") |}.

Definition int64_tensor (name : string) (values : list Z) : TensorProto :=
  mkTensorProto name [len values] 7 values.

Definition int64_constant (values : list Z) : Expr :=
  Constant (mkNDArray "int64" [len values] values).

Definition node (op_type name : string) (inputs outputs : list string) : NodeProto :=
  mkNodeProto op_type name inputs outputs [].

Definition value_info (name : string) (dims : list Z) (elem_type : Z) : ValueInfoProto :=
  mkValueInfoProto name (List.map (mkDimension "") dims) elem_type.

Definition model_of (graph : GraphProto) : ModelProto :=
  mkModelProto 8 [mkOperatorSetId "" 13] graph.

(** One [Add] on the initializers [[1,2]] and [[3,4]]. *)
Definition add_graph : GraphProto :=
  {| g_initializer := [int64_tensor "a" [1; 2]; int64_tensor "b" [3; 4]];
     g_input := [];
     g_output := [value_info "c" [2] 7];
     g_node := [node "Add" "add0" ["a"; "b"] ["c"]] |}.

(** The same, with the initializers declared as inputs next to a real input. *)
Definition add_graph_inputs : GraphProto :=
  {| g_initializer := [int64_tensor "a" [1; 2]; int64_tensor "b" [3; 4]];
     g_input := [value_info "x" [2] 7; value_info "a" [2] 7;
                 value_info "y" [2] 7; value_info "b" [2] 7; value_info "x" [2] 7];
     g_output := [value_info "c" [2] 7];
     g_node := [node "Add" "add0" ["a"; "b"] ["c"]] |}.

(** The [Add] records its result under the name of an initializer. *)
Definition add_graph_rebinding : GraphProto :=
  {| g_initializer := [int64_tensor "a" [1; 2]; int64_tensor "b" [3; 4]];
     g_input := [];
     g_output := [value_info "a" [2] 7];
     g_node := [node "Add" "add0" ["a"; "b"] ["a"]] |}.

(** Two operators the converter map does not know, one of them twice. *)
Definition unsupported_graph : GraphProto :=
  {| g_initializer := [int64_tensor "a" [1; 2]];
     g_input := [];
     g_output := [value_info "c" [2] 7];
     g_node := [node "Foo" "n0" ["a"] ["b"]; node "Add" "n1" ["a"; "b"] ["c"];
                node "Bar" "n2" ["c"] ["d"]; node "Foo" "n3" ["d"] ["e"]] |}.

(** An operator the converter map does not know, in a graph whose
    initializer has no name. *)
Definition unsupported_graph_unnamed_initializer : GraphProto :=
  {| g_initializer := [int64_tensor "" [1; 2]];
     g_input := [];
     g_output := [value_info "b" [2] 7];
     g_node := [node "Foo" "n0" ["a"] ["b"]] |}.

(** An input whose element type is not set, returned as it is. *)
Definition untyped_input_graph : GraphProto :=
  {| g_initializer := [];
     g_input := [value_info "x" [2; 3] 0; value_info "y" [2; 3] 1];
     g_output := [value_info "x" [2; 3] 0];
     g_node := [] |}.

(** The element type of a variable that stands for a tensor. *)
Definition var_dtype (e : Expr) : option string :=
  match e with
  | Var _ (TensorStructInfo _ dtype) => dtype
  | _ => None
  end.

(** The recording of values under names, one after the other. *)
Definition record_all (nodes : gmap string Expr) (bindings : list (string * Expr))
  : gmap string Expr :=
  foldl (fun nodes kx => <[kx.1 := kx.2]> nodes) nodes bindings.

(** The names of a list in the order in which they are first seen. *)
Definition see (seen : list string) (name : string) : list string :=
  if decide (name ∈ seen) then seen else seen ++ [name].

Definition first_seen (names : list string) : list string := foldl see [] names.

(** The names of the initializers and of the declared inputs of a graph. *)
Definition initializer_names (graph : GraphProto) : list string :=
  tp_name <$> g_initializer graph.

Definition input_names (graph : GraphProto) : list string :=
  vi_name <$> g_input graph.

(** ** The populated fields of an attribute *)

(** The values of the fields of an attribute that are populated, in the
    order in which [_parse_attr] looks at the fields; the field [graphs] is
    left aside. *)
Definition kinds (a : AttributeProto) : list AttrValue :=
  option_list (AttrFloat <$> a_f a)
  ++ option_list (AttrInt <$> a_i a)
  ++ option_list (AttrBytes <$> a_s a)
  ++ option_list ((fun _ => AttrGraph) <$> a_g a)
  ++ (if a_floats a is [] then [] else [AttrFloats (a_floats a)])
  ++ (if a_ints a is [] then [] else [AttrInts (a_ints a)])
  ++ (if a_strings a is [] then [] else [AttrStrings (a_strings a)])
  ++ option_list (AttrTensor <$> a_t a)
  ++ (if a_tensors a is [] then [] else [AttrTensors (a_tensors a)]).

(** One of the fields [f], [i], [s], [g] is populated. *)
Definition has_scalar (a : AttributeProto) : Prop :=
  is_Some (a_f a) \/ is_Some (a_i a) \/ is_Some (a_s a) \/ is_Some (a_g a).

(** One of the fields [floats], [ints], [strings] is populated. *)
Definition has_list (a : AttributeProto) : Prop :=
  a_floats a <> [] \/ a_ints a <> [] \/ a_strings a <> [].

(** ** The bookkeeping of the declared inputs *)

(** The name a variable carries. *)
Definition var_name (e : Expr) : string :=
  match e with
  | Var name_hint _ => name_hint
  | _ => ""
  end.

(** What [_parse_graph_input] keeps true of the importer: [_input_names]
    lists the names of [_inputs] that are bound to variables, in order;
    [_inputs] holds what [_nodes] holds; every variable of [_nodes] is in
    [_inputs]; and [_num_input] counts [_input_names]. *)
Definition inputs_invariant (self : ONNXGraphImporter) : Prop :=
  _input_names self = (filter (fun kv => is_Var kv.2 = true) (_inputs self)).*1
  /\ Forall (fun kv => _nodes self !! kv.1 = Some kv.2) (_inputs self)
  /\ (forall name v, _nodes self !! name = Some v -> is_Var v = true ->
                     name ∈ (_inputs self).*1)
  /\ _num_input self = length (_input_names self).

(** The names of the parameters of the function. *)
Definition param_names (self : ONNXGraphImporter) : list string :=
  var_name <$> param_list self.

(** The names the block builder answers with when it is asked for unique
    names one after the other, starting from the calls made so far. *)
Fixpoint unique_names (E : External) (builder : BlockBuilder) (names : list string)
  : list string :=
  match names with
  | [] => []
  | name :: names' =>
      get_unique_name E builder name
      :: unique_names E (builder ++ [GetUniqueName name]) names'
  end.

(** ** Further converters

    The converters below raise exceptions that the first list does not
    hold; [raised] adds them. [Unmodelled] stands for a run the embedding
    does not follow (an attribute of a kind the operator does not define, an
    array that is not one-dimensional): nothing is stated about it. *)
Inductive raised : Type :=
  | AssertionError (msg : string)
  | ValueError (msg : string)
  | NotImplementedError (msg : string)
  | TypeError (msg : string)
  | AttributeError (msg : string)
  | UnboundLocalError (name : string)
  | OpAttributeUnImplemented (msg : string)
  | Earlier (e : exn)
  | Unmodelled (what : string).

Inductive outcome (A : Type) : Type :=
  | Return (a : A)
  | Throw (e : raised).
Arguments Return {A} a.
Arguments Throw {A} e.

Global Instance outcome_ret : MRet outcome := fun A a => Return a.
Global Instance outcome_bind : MBind outcome := fun A B k r =>
  match r with
  | Return a => k a
  | Throw e => Throw e
  end.

Definition lift {A : Type} (r : result A) : outcome A :=
  match r with
  | Ok a => Return a
  | Raise e => Throw (Earlier e)
  end.

(** [attr.get(key, default)] for an attribute that holds an integer. *)
Definition attr_get_int (attr : gmap string AttrValue) (key : string) (default : Z)
  : outcome Z :=
  match attr !! key with
  | None => Return default
  | Some (AttrInt x) => Return x
  | Some _ => Throw (Unmodelled "attribute that is not an integer")
  end.

(** [data.struct_info.shape]: the dimensions, [None] when the struct info
    of the tensor has no shape. *)
Definition struct_info_shape (data : option Expr) : outcome (option (list PrimExpr)) :=
  match data with
  | None => Throw (Earlier AttributeError_None)
  | Some e =>
      match struct_info e with
      | TensorStructInfo shape _ => Return shape
      | _ => Throw (AttributeError "shape")
      end
  end.

(** [len(data.struct_info.shape)] *)
Definition shape_len (data : option Expr) : outcome Z :=
  shape ← struct_info_shape data;
  match shape with
  | Some dims => Return (len dims)
  | None => Throw (TypeError "object of type 'NoneType' has no len()")
  end.

(** [[dim.value for dim in data.struct_info.shape]] *)
Definition shape_values (data : option Expr) : outcome (list Z) :=
  shape ← struct_info_shape data;
  match shape with
  | None => Throw (TypeError "'NoneType' object is not iterable")
  | Some dims =>
      foldr (fun dim rest =>
               match dim with
               | IntImm value => values ← rest; Return (value :: values)
               | TirVar _ => Throw (AttributeError "value")
               end) (Return []) dims
  end.

(** [ArgMax._check_attrs] and, word for word, [ArgMin._check_attrs];
    [keepdims] defaults to [True], which is the integer 1. *)
Definition _check_attrs (data : option Expr) (attr : gmap string AttrValue)
    (shift_axis : bool) : outcome (Z * AttrValue) :=
  dims_num ← shape_len data;
  axis ← attr_get_int attr "axis" 0;
  let axis := if shift_axis && (axis <? 0) then axis + dims_num else axis in
  if (0 <=? axis) && (axis <? dims_num) then
    Return (axis, default (AttrInt 1) (attr !! "keepdims"))
  else Throw (AssertionError "Axis is out of bounds").

(** [if value:] on an attribute value that holds an integer. *)
Definition attr_truth (attr : gmap string AttrValue) (key : string) : outcome bool :=
  x ← attr_get_int attr key 0; Return (negb (x =? 0)).

Section ArgMax.
Context (relax_op_argmax : option Expr -> Z -> AttrValue -> outcome Expr).

Definition ArgMax_impl_v1 (inputs : onnx_input Expr) (attr : gmap string AttrValue)
  : outcome Expr :=
  data ← lift (onnx_input_getitem_int inputs 0);
  '(axis, keepdims) ← _check_attrs data attr false;
  relax_op_argmax data axis keepdims.

Definition ArgMax_impl_v11 (inputs : onnx_input Expr) (attr : gmap string AttrValue)
  : outcome Expr :=
  data ← lift (onnx_input_getitem_int inputs 0);
  '(axis, keepdims) ← _check_attrs data attr true;
  relax_op_argmax data axis keepdims.

Definition ArgMax_impl_v12 (inputs : onnx_input Expr) (attr : gmap string AttrValue)
  : outcome Expr :=
  data ← lift (onnx_input_getitem_int inputs 0);
  '(axis, keepdims) ← _check_attrs data attr true;
  select_last_index ← attr_truth attr "select_last_index";
  if (select_last_index : bool)
  then Throw (OpAttributeUnImplemented
                "'select_last_index' attribute has not been supported yet")
  else relax_op_argmax data axis keepdims.

(** The method of [ArgMax] that [get_converter] selects for an opset. *)
Definition ArgMax_convert (opset : Z) (inputs : onnx_input Expr)
    (attr : gmap string AttrValue) : outcome Expr :=
  version ← lift (get_converter ArgMax opset);
  if version =? 1 then ArgMax_impl_v1 inputs attr
  else if version =? 11 then ArgMax_impl_v11 inputs attr
  else ArgMax_impl_v12 inputs attr.
End ArgMax.

(** An operator call that records the operand and the axis it is built on;
    the scenarios use it for [relax.op.argmax]. *)
Definition argmax_call (data : option Expr) (axis : Z) (keepdims : AttrValue)
  : outcome Expr :=
  Return (Call "relax.argmax" (option_list data ++ [ShapeExpr [IntImm axis]])
            ObjectStructInfo).

(** [l[:-1]] *)
Definition all_but_last {A : Type} (l : list A) : list A := take (length l - 1) l.

(** The loop of [Split._impl_v1] over [splits[:-1]]: the running sums. *)
Definition split_indices (splits : list Z) : list Z :=
  (foldl (fun '(index, indices) i => let index := index + i in (index, indices ++ [index]))
         (0, []) (all_but_last splits)).2.

(** [sum(l)] *)
Definition sum_Z (l : list Z) : Z := foldr Z.add 0 l.

(** What [topi.split] is given: the places to split at, or the number of
    equal parts. *)
Inductive split_arg : Type :=
  | SplitAt (indices : list Z)
  | SplitInto (num_outputs : nat).

Section Split.
Context (topi_split : option Expr -> split_arg -> Z -> outcome Expr).

Definition Split_impl_v1 (inputs : onnx_input Expr) (attr : gmap string AttrValue)
  : outcome Expr :=
  indices ←
    match attr !! "split" with
    | Some (AttrInts splits) =>
        if (1 <? len splits) then Return (SplitAt (split_indices splits))
        else match attr !! "tvm_custom" with
             | Some (AttrCustom _ num_outputs) => Return (SplitInto num_outputs)
             | _ => Throw (Earlier (KeyError "tvm_custom"))
             end
    | None =>
        match attr !! "tvm_custom" with
        | Some (AttrCustom _ num_outputs) => Return (SplitInto num_outputs)
        | _ => Throw (Earlier (KeyError "tvm_custom"))
        end
    | Some _ => Throw (Unmodelled "split that is not a list of integers")
    end;
  data ← lift (onnx_input_getitem_int inputs 0);
  axis ← attr_get_int attr "axis" 0;
  topi_split data indices axis.
End Split.

(** The shape [Flatten._impl_v13] reshapes to. [numpy.prod] multiplies in
    64-bit integers and is 1 on the empty list. *)
Definition flatten_shape (data_shape : list Z) (axis : Z) : outcome (Z * Z) :=
  if axis =? 0 then Return (1, -1)
  else
    dims ← lift (py_list_slice data_shape (Slice (Some 0) (Some axis) None));
    Return (wrap_int64 (foldr Z.mul 1 dims), -1).

Section Flatten.
Context (relax_op_reshape : option Expr -> Z * Z -> outcome Expr).

Definition Flatten_impl_v13 (inputs : onnx_input Expr) (attr : gmap string AttrValue)
  : outcome Expr :=
  axis ← attr_get_int attr "axis" 1;
  data ← lift (onnx_input_getitem_int inputs 0);
  data_shape ← shape_values data;
  new_shape ← flatten_shape data_shape axis;
  data ← lift (onnx_input_getitem_int inputs 0);
  relax_op_reshape data new_shape.
End Flatten.

(** The loop of [Expand._impl_v13] that raises the entries of the target
    shape to the dimensions of the data: [new_shape[i] = data_shape[i]]
    where [s < data_shape[i]]. *)
Fixpoint expand_loop (i : nat) (new_shape data_shape : list Z) : outcome (list Z) :=
  match new_shape with
  | [] => Return []
  | s :: rest =>
      d ← lift (py_list_index data_shape (Z.of_nat i));
      rest' ← expand_loop (S i) rest data_shape;
      Return ((if s <? d then d else s) :: rest')
  end.

(** [shape.data.numpy().tolist()] for a one-dimensional array of 64-bit
    integers, the type of a target shape. *)
Definition tolist_1d (a : NDArray) : outcome (list Z) :=
  match nd_shape a with
  | [_] => if decide (nd_dtype a = "int64") then Return (nd_data a)
           else Throw (Unmodelled "array that does not hold 64-bit integers")
  | _ => Throw (Unmodelled "array that is not one-dimensional")
  end.

Section Expand.
Context (relax_op_broadcast_to : option Expr -> list PrimExpr -> outcome Expr).

(** The branches of [Expand._impl_v13] for a target shape that is a shape
    expression or a constant. *)
Definition Expand_impl_v13 (inputs : onnx_input Expr) (attr : gmap string AttrValue)
  : outcome Expr :=
  data ← lift (onnx_input_getitem_int inputs 0);
  shape ← lift (onnx_input_getitem_int inputs 1);
  match shape with
  | Some (ShapeExpr values) => relax_op_broadcast_to data values
  | Some (Constant array) =>
      new_shape ← tolist_1d array;
      data_shape ← shape_values data;
      new_shape ← expand_loop 0 new_shape data_shape;
      if decide (new_shape = data_shape) then
        match data with
        | Some e => Return e
        | None => Throw (Earlier AttributeError_None)
        end
      else relax_op_broadcast_to data (IntImm <$> new_shape)
  | _ => Throw (Unmodelled "target shape known at run time only")
  end.
End Expand.

Section Clip.
Context (topi_maximum topi_minimum : option Expr -> Expr -> outcome Expr).

(** [Clip._impl_v13]: the bounds are the second and third operand, each
    applied when it [is not None]. *)
Definition Clip_impl_v13 (inputs : onnx_input Expr) (attr : gmap string AttrValue)
  : outcome (option Expr) :=
  results ← lift (onnx_input_getitem_int inputs 0);
  lower ← lift (onnx_input_getitem_int inputs 1);
  results ← match lower with
            | Some bound => r ← topi_maximum results bound; Return (Some r)
            | None => Return results
            end;
  upper ← lift (onnx_input_getitem_int inputs 2);
  match upper with
  | Some bound => r ← topi_minimum results bound; Return (Some r)
  | None => Return results
  end.
End Clip.

(** ** [target_info]: the default target of the current device

    What the functions learn from the machine: the commands they run and
    the fields the regular expressions cut out of their output. A field is
    [None] when its regular expression finds nothing; the lists are the
    words the source splits the text into. *)
Record Machine : Type := mkMachine {
  which_llc : bool;                       (* shutil.which("llc") is not None *)
  host_cpu : option string;               (* after "Host CPU: " in llc --version *)
  platform : string;                      (* sys.platform *)
  flags : option (list string);           (* after "Flags: " in lscpu: lower case, split *)
  architecture : option string;           (* after "Architecture: " in lscpu *)
  cores_per_socket : option Z;            (* int of "Core(s) per socket: " *)
  sockets : option Z;                     (* int of "Socket(s): " *)
  registered_targets : option (list string);   (* march_list *)
  host_target : string;                   (* llvm-config --host-target *)
  available_features : string -> option (list string);   (* attrs_list for -march *)
  gpu_exist : bool;                       (* tvm.gpu(0).exist *)
  rocm_exist : bool                       (* tvm.rocm(0).exist *)
}.

(** [re.search(...).group(0)] *)
Definition group0 {A : Type} (found : option A) : outcome A :=
  match found with
  | Some x => Return x
  | None => Throw (AttributeError "'NoneType' object has no attribute 'group'")
  end.

(** [s[:-1]] on a string *)
Fixpoint str_all_but_last (s : string) : string :=
  match s with
  | EmptyString => EmptyString
  | String c EmptyString => EmptyString
  | String c rest => String c (str_all_but_last rest)
  end.

(** The attribute string of [get_llvm_target]: ["+%s,"] for every attribute,
    then the final comma removed. *)
Definition attrs_string (attrs : list string) : string :=
  str_all_but_last (foldl (fun attrs_string attr => attrs_string +:+ "+" +:+ attr +:+ ",")
                          "" attrs).

Definition get_llvm_target (m : Machine) : outcome string :=
  if negb (which_llc m) then Return "llvm"
  else
    cpu ← group0 (host_cpu m);
    '(features, march, total_cores) ←
      (if decide (platform m = "linux" \/ platform m = "linux2") then
         features ← group0 (flags m);
         march ← group0 (architecture m);
         cores ← group0 (cores_per_socket m);
         sockets ← group0 (sockets m);
         let total_cores : string := pretty (cores * sockets) in
         let march := if decide (march = "x86_64") then "x86-64" else march in
         Return (features, march, total_cores)
       else Throw (ValueError ("Platform " +:+ platform m +:+ " is not supported.")));
    march_list ← group0 (registered_targets m);
    let valid_march := bool_decide (march ∈ march_list) in
    let target := "llvm -mcpu=" +:+ cpu +:+ " -mtriple=" +:+ host_target m
                  +:+ " -num_cores=" +:+ total_cores in
    if valid_march then
      attrs_list ← group0 (available_features m march);
      let attrs := filter (fun f => f ∈ attrs_list) features in
      Return (target +:+ " -mattr=" +:+ attrs_string attrs)
    else Return target.

(** The last branch formats its message with [target], which no branch has
    assigned by then. *)
Definition get_default_target (m : Machine) (ctx : string) : outcome string :=
  if decide (ctx = "cpu") then get_llvm_target m
  else if decide (ctx = "gpu") then
    if gpu_exist m then Return "cuda"
    else if rocm_exist m then Return "rocm"
    else Throw (NotImplementedError "Only cuda and rocm GPUs currently supported.")
  else Throw (UnboundLocalError "target").

(** A linux machine for the scenarios. *)
Definition linux_machine : Machine :=
  mkMachine true (Some "skylake") "linux" (Some ["fpu"; "sse2"; "ht"; "avx2"])
    (Some "x86_64") (Some 4) (Some 2) (Some ["aarch64"; "x86"; "x86-64"])
    "x86_64-pc-linux-gnu"
    (fun march => if decide (march = "x86-64") then Some ["avx2"; "avx512f"; "sse2"] else None)
    false true.

(** * Properties *)

#[local] Opaque _get_convert_map.

(** ** Results *)

Lemma map_result_ext {X Y : Type} (f g : X -> result Y) (xs : list X) :
  Forall (fun x => f x = g x) xs -> map_result f xs = map_result g xs.
Proof.
  induction 1 as [|x xs Hx _ IH]; simpl; [reflexivity|].
  rewrite Hx, IH. reflexivity.
Qed.

Lemma map_result_total {X Y : Type} (f : X -> result Y) (g : X -> Y) (xs : list X) :
  Forall (fun x => f x = Ok (g x)) xs -> map_result f xs = Ok (List.map g xs).
Proof.
  induction 1 as [|x xs Hx _ IH]; simpl; [reflexivity|].
  rewrite Hx, IH. reflexivity.
Qed.

(** ** Ranges and slices *)

Lemma py_range_bounds (b e st x : Z) :
  st <> 0 -> x ∈ py_range b e st ->
  if 0 <? st then b <= x < e else e < x <= b.
Proof.
  intros Hst Hx. unfold py_range in Hx.
  apply list_elem_of_In, in_map_iff in Hx as (k & <- & Hk).
  apply in_seq in Hk. destruct Hk as [_ Hk]. simpl in Hk.
  destruct (Z.ltb_spec 0 st) as [Hpos|Hneg].
  - destruct (Z.ltb_spec b e) as [Hlt|Hge]; [|simpl in Hk; lia].
    assert (Hq : Z.of_nat k <= (e - b - 1) / st) by lia.
    assert (Hm : st * ((e - b - 1) / st) <= e - b - 1)
      by (apply Z.mul_div_le; lia).
    nia.
  - destruct (Z.ltb_spec e b) as [Hlt|Hge]; [|simpl in Hk; lia].
    assert (Hq : Z.of_nat k <= (b - e - 1) / (- st)) by lia.
    assert (Hm : (- st) * ((b - e - 1) / (- st)) <= b - e - 1)
      by (apply Z.mul_div_le; lia).
    nia.
Qed.

Lemma py_range_length (b e st : Z) :
  st <> 0 ->
  Z.of_nat (length (py_range b e st)) <= Z.max 0 (if 0 <? st then e - b else b - e).
Proof.
  intros Hst. unfold py_range. rewrite length_map, length_seq.
  destruct (Z.ltb_spec 0 st) as [Hpos|Hneg].
  - destruct (Z.ltb_spec b e) as [Hlt|Hge]; [|simpl; lia].
    assert ((e - b - 1) / st <= e - b - 1) by (apply Z.div_le_upper_bound; nia).
    assert (0 <= (e - b - 1) / st) by (apply Z.div_pos; lia).
    lia.
  - destruct (Z.ltb_spec e b) as [Hlt|Hge]; [|simpl; lia].
    assert ((b - e - 1) / (- st) <= b - e - 1) by (apply Z.div_le_upper_bound; nia).
    assert (0 <= (b - e - 1) / (- st)) by (apply Z.div_pos; lia).
    lia.
Qed.

(** A slice without a stop bound, taken on a range as long as the list,
    yields positions of the list only. *)
Lemma range_getitem_slice_no_stop (n : Z) (b st : option Z) (indices : list Z) :
  0 <= n ->
  range_getitem_slice n (Slice b None st) = Ok indices ->
  Forall (fun i => 0 <= i < n) indices /\ Z.of_nat (length indices) <= n.
Proof.
  intros Hn. unfold range_getitem_slice, slice_indices. simpl.
  rewrite Z.max_r by lia.
  destruct (Z.eqb_spec (default 1 st) 0) as [|Hst]; [discriminate|]. simpl.
  intros [= <-]. split.
  - apply Forall_forall. intros x Hx.
    apply py_range_bounds in Hx; [|assumption].
    destruct (Z.ltb_spec 0 (default 1 st)), (Z.ltb_spec (default 1 st) 0);
      try lia; destruct b as [b|]; try lia;
      destruct (Z.ltb_spec b 0); lia.
  - etransitivity; [apply py_range_length; assumption|].
    destruct (Z.ltb_spec 0 (default 1 st)), (Z.ltb_spec (default 1 st) 0);
      try lia; destruct b as [b|]; try lia;
      destruct (Z.ltb_spec b 0); lia.
Qed.

Lemma py_range_step_1 (b e : Z) :
  0 <= b <= e ->
  py_range b e 1 = List.map Z.of_nat (seq (Z.to_nat b) (Z.to_nat (e - b))).
Proof.
  intros Hbe. unfold py_range. simpl.
  replace (Z.to_nat (if b <? e then (e - b - 1) / 1 + 1 else 0)) with (Z.to_nat (e - b)).
  2:{ destruct (Z.ltb_spec b e); [rewrite Z.div_1_r|]; lia. }
  rewrite <- (Nat.add_0_r (Z.to_nat b)) at 1.
  rewrite <- (fmap_add_seq (Z.to_nat b) 0%nat).
  change (@fmap list _ nat nat) with (@List.map nat nat).
  rewrite List.map_map. apply List.map_ext. intros k. lia.
Qed.

Lemma py_list_index_inside {X : Type} (l : list X) (k : nat) (x : X) :
  l !! k = Some x → py_list_index l (Z.of_nat k) = Ok x.
Proof.
  intros H.
  assert (Hf : (Z.of_nat k <? 0) = false) by (apply Z.ltb_ge; lia).
  unfold py_list_index. cbv zeta. rewrite Hf. cbv iota. rewrite Hf.
  rewrite Nat2Z.id, H. reflexivity.
Qed.

Lemma map_py_list_index_seq {X : Type} (l : list X) (n k : nat) :
  (k + n <= length l)%nat ->
  map_result (py_list_index l) (List.map Z.of_nat (seq k n)) = Ok (take n (drop k l)).
Proof.
  revert k. induction n as [|n IH]; intros k Hk; simpl.
  - reflexivity.
  - destruct (lookup_lt_is_Some_2 l k) as [x Hx]; [lia|].
    rewrite (py_list_index_inside _ _ _ Hx). simpl.
    rewrite IH by lia. simpl.
    rewrite (drop_S _ _ _ Hx). reflexivity.
Qed.

Section onnx_input_facts.
Context {A : Type}.
Implicit Types self : onnx_input A.

Lemma onnx_input_getitem_int_past_end self (item : Z) :
  len self <= item -> onnx_input_getitem_int self item = Ok None.
Proof.
  intros H. unfold onnx_input_getitem_int.
  destruct (Z.ltb_spec item (len self)); [lia | reflexivity].
Qed.

Lemma onnx_input_getitem_int_inside self (item : Z) :
  0 <= item < len self ->
  onnx_input_getitem_int self item = py_list_index self item.
Proof.
  intros H. unfold onnx_input_getitem_int.
  destruct (Z.ltb_spec item (len self)); [reflexivity | lia].
Qed.

(** With no stop bound the subscription agrees with the slicing of a
    built-in list. *)
Lemma onnx_input_getitem_slice_no_stop self (b st : option Z) :
  onnx_input_getitem self (SubSlice (Slice b None st))
  = (xs ← py_list_slice self (Slice b None st); Ok (Items xs)).
Proof.
  unfold onnx_input_getitem, py_list_slice. simpl.
  destruct (range_getitem_slice (len self) (Slice b None st)) as [indices|e] eqn:Hr;
    simpl; [|reflexivity].
  apply range_getitem_slice_no_stop in Hr as [Hin _]; [|unfold len; lia].
  rewrite (map_result_ext (onnx_input_getitem_int self) (py_list_index self)).
  - reflexivity.
  - eapply Forall_impl; [exact Hin|]. intros i Hi.
    apply onnx_input_getitem_int_inside, Hi.
Qed.

Lemma map_result_length {X Y : Type} (f : X -> result Y) (xs : list X) (ys : list Y) :
  map_result f xs = Ok ys -> length ys = length xs.
Proof.
  revert ys. induction xs as [|x xs IH]; intros ys; simpl.
  - intros [= <-]. reflexivity.
  - destruct (f x); simpl; [|discriminate].
    destruct (map_result f xs); simpl; [|discriminate].
    intros [= <-]. simpl. f_equal. apply IH. reflexivity.
Qed.

Lemma onnx_input_getitem_slice_truncated self (b st : option Z) (xs : list (option A)) :
  onnx_input_getitem self (SubSlice (Slice b None st)) = Ok (Items xs) ->
  (length xs <= length self)%nat.
Proof.
  unfold onnx_input_getitem. simpl.
  destruct (range_getitem_slice (len self) (Slice b None st)) as [indices|e] eqn:Hr;
    simpl; [|discriminate].
  apply range_getitem_slice_no_stop in Hr as [_ Hlen]; [|unfold len; lia].
  destruct (map_result _ indices) as [ys|e] eqn:Hm; simpl; [|discriminate].
  intros [= <-]. apply map_result_length in Hm. unfold len in Hlen. lia.
Qed.

(** [inputs[k:]] drops the first [k] operands and adds nothing. *)
Lemma onnx_input_getitem_from self (k : nat) :
  onnx_input_getitem self (SubSlice (Slice (Some (Z.of_nat k)) None None))
  = Ok (Items (drop k self)).
Proof.
  rewrite onnx_input_getitem_slice_no_stop.
  unfold py_list_slice, range_getitem_slice, slice_indices. simpl.
  replace (Z.of_nat k <? 0) with false by (symmetry; apply Z.ltb_ge; lia).
  rewrite Z.max_r by (unfold len; lia).
  rewrite py_range_step_1 by (unfold len; lia).
  destruct (decide (k <= length self)%nat) as [Hk|Hk].
  - rewrite Z.min_l by (unfold len; lia). rewrite Nat2Z.id.
    rewrite map_py_list_index_seq by (unfold len; lia).
    rewrite take_ge; [reflexivity|].
    rewrite length_drop. unfold len. lia.
  - rewrite Z.min_r by (unfold len; lia).
    replace (Z.to_nat (len self - len self)) with 0%nat by lia. simpl.
    rewrite drop_ge by lia. reflexivity.
Qed.
End onnx_input_facts.

(** C10. [onnx_input] is total for integer reads past the end: every index
    greater than or equal to the length yields [None] and raises nothing.
    A slice with no stop bound is cut at the length: it is the slice a
    built-in list would give, it holds no more elements than the list, and
    [inputs[k:]] is the list without its first [k] elements. *)
Theorem onnx_input_getitem_past_end {A : Type} (self : onnx_input A) :
  (forall item : Z,
      len self <= item -> onnx_input_getitem self (SubInt item) = Ok (Item None)) /\
  (forall b st : option Z,
      onnx_input_getitem self (SubSlice (Slice b None st))
      = (xs ← py_list_slice self (Slice b None st); Ok (Items xs))) /\
  (forall (b st : option Z) (xs : list (option A)),
      onnx_input_getitem self (SubSlice (Slice b None st)) = Ok (Items xs) ->
      (length xs <= length self)%nat) /\
  (forall k : nat,
      onnx_input_getitem self (SubSlice (Slice (Some (Z.of_nat k)) None None))
      = Ok (Items (drop k self))).
Proof.
  split; [|split; [|split]].
  - intros item H. simpl. rewrite onnx_input_getitem_int_past_end by exact H. reflexivity.
  - apply onnx_input_getitem_slice_no_stop.
  - apply onnx_input_getitem_slice_truncated.
  - apply onnx_input_getitem_from.
Qed.

Lemma onnx_input_getitem_past_end_witness :
  onnx_input_getitem [Some 10%nat; None; Some 30%nat] (SubInt 3) = Ok (Item None)
  /\ onnx_input_getitem [Some 10%nat; None; Some 30%nat] (SubInt 7) = Ok (Item None)
  /\ onnx_input_getitem [Some 10%nat; None; Some 30%nat]
       (SubSlice (Slice (Some 1) None None)) = Ok (Items [None; Some 30%nat]).
Proof.
  pose proof (onnx_input_getitem_past_end [Some 10%nat; None; Some 30%nat])
    as (Hint & _ & _ & Hfrom).
  split; [|split].
  - apply Hint. unfold len. simpl. lia.
  - apply Hint. unfold len. simpl. lia.
  - exact (Hfrom 1%nat).
Defined.

(** With a stop bound past the end the slice is filled up with [None]. *)
Example onnx_input_getitem_stop_past_end :
  onnx_input_getitem [Some 10%nat; Some 20%nat] (SubSlice (Slice (Some 0) (Some 4) None))
  = Ok (Items [Some 10%nat; Some 20%nat; None; None]).
Proof. reflexivity. Qed.

(** ** Version selection *)

Lemma elem_of_positions_of (opset : Z) (versions : list Z) (i : nat) :
  i ∈ positions_of opset versions ↔ versions !! i = Some opset.
Proof.
  unfold positions_of. rewrite list_elem_of_fmap. split.
  - intros ([j v] & -> & H). apply list_elem_of_filter in H as [Hv H].
    apply elem_of_lookup_imap in H as (k & w & [= -> ->] & H).
    simpl in *. subst. exact H.
  - intros H. exists (i, opset). split; [reflexivity|].
    apply list_elem_of_filter. split; [reflexivity|].
    apply elem_of_lookup_imap. eauto.
Qed.

(** The position [max] picks: that of the last occurrence of the opset. *)
Lemma max_positions_of (opset : Z) (l1 l2 : list Z) :
  opset ∉ l2 →
  max_list (positions_of opset (l1 ++ opset :: l2)) = length l1.
Proof.
  intros Hnot.
  assert (Hin : length l1 ∈ positions_of opset (l1 ++ opset :: l2)).
  { apply elem_of_positions_of. apply list_lookup_middle. reflexivity. }
  pose proof (max_list_elem_of_le _ _ Hin) as Hle.
  assert (Hmax : max_list (positions_of opset (l1 ++ opset :: l2))
                 ∈ positions_of opset (l1 ++ opset :: l2)).
  { apply max_list_elem_of. intros Hnil. rewrite Hnil in Hin. inversion Hin. }
  apply elem_of_positions_of in Hmax.
  destruct (decide (max_list (positions_of opset (l1 ++ opset :: l2)) = length l1))
    as [|Hne]; [assumption|].
  exfalso. apply Hnot.
  rewrite lookup_app_r in Hmax by lia.
  destruct (max_list (positions_of opset (l1 ++ opset :: l2)) - length l1)%nat
    as [|j] eqn:Hj; [lia|].
  simpl in Hmax. eapply list_elem_of_lookup_2, Hmax.
Qed.

(** The sorted list of the registered versions and the opset, cut at the
    last occurrence of the opset. *)
Lemma sorted_versions_split (registered : list Z) (opset : Z) :
  exists l1 l2 : list Z,
    sorted (registered ++ [opset]) = l1 ++ opset :: l2
    /\ l1 ++ l2 ≡ₚ registered
    /\ StronglySorted Z.le (l1 ++ opset :: l2)
    /\ Forall (fun r => r <= opset) l1
    /\ Forall (fun r => opset < r) l2.
Proof.
  pose proof (merge_sort_Permutation Z.le (registered ++ [opset])) as Hperm.
  pose proof (StronglySorted_merge_sort Z.le (registered ++ [opset])) as Hsorted.
  fold (sorted (registered ++ [opset])) in Hperm, Hsorted.
  assert (Hin : opset ∈ sorted (registered ++ [opset])).
  { rewrite Hperm. apply elem_of_app. right. apply list_elem_of_singleton. reflexivity. }
  apply list_elem_of_split_r in Hin as (l1 & l2 & Heq & Hnot).
  exists l1, l2. rewrite Heq in *.
  split; [reflexivity|]. split; [|split; [assumption|split]].
  - apply (Permutation_cons_inv (a := opset)).
    rewrite Permutation_middle, Hperm.
    symmetry. apply Permutation_cons_append.
  - apply Forall_forall. intros r Hr.
    eapply (StronglySorted_app_1_elem_of Z.le l1 (opset :: l2)); eauto.
    apply list_elem_of_here.
  - apply StronglySorted_app_1_r in Hsorted.
    apply StronglySorted_inv in Hsorted as [_ Hall].
    apply Forall_forall. intros r Hr.
    rewrite Forall_forall in Hall. specialize (Hall r Hr).
    assert (r <> opset) by (intros ->; contradiction).
    lia.
Qed.

Lemma py_list_index_last {X : Type} (l : list X) (x : X) :
  py_list_index (l ++ [x]) (-1) = Ok x.
Proof.
  unfold py_list_index. simpl.
  replace (-1 + len (l ++ [x])) with (Z.of_nat (length l))
    by (unfold len; rewrite length_app; simpl; lia).
  replace (Z.of_nat (length l) <? 0) with false by (symmetry; apply Z.ltb_ge; lia).
  rewrite Nat2Z.id, list_lookup_middle by reflexivity. reflexivity.
Qed.

Lemma has_impl_true (cls : OnnxOpConverter) (version : Z) :
  version ∈ impl_versions cls -> has_impl cls version = true.
Proof. intros H. unfold has_impl. apply bool_decide_eq_true. exact H. Qed.

(** The versions of the class that do not exceed the opset, when there is
    one: [get_converter] returns the largest of them. *)
Lemma get_converter_largest_below (cls : OnnxOpConverter) (opset : Z) :
  (exists r, r ∈ impl_versions cls /\ r <= opset) ->
  exists version,
    get_converter cls opset = Ok version
    /\ version ∈ impl_versions cls
    /\ version <= opset
    /\ (forall r, r ∈ impl_versions cls -> r <= opset -> r <= version).
Proof.
  intros (r & Hr & Hle).
  destruct (sorted_versions_split (impl_versions cls) opset)
    as (l1 & l2 & Heq & Hperm & Hsorted & Hl1 & Hl2).
  assert (Hne : l1 <> []).
  { intros ->. simpl in Hperm. rewrite <- Hperm in Hr.
    rewrite Forall_forall in Hl2. specialize (Hl2 r Hr). lia. }
  destruct (exists_last Hne) as (l1' & m & ->).
  exists m.
  assert (Hm : m ∈ impl_versions cls).
  { rewrite <- Hperm. rewrite !elem_of_app. left. right.
    apply list_elem_of_singleton. reflexivity. }
  split; [|split; [assumption|split]].
  - unfold get_converter. rewrite Heq.
    rewrite max_positions_of.
    2:{ intros Hin. rewrite Forall_forall in Hl2. specialize (Hl2 _ Hin). lia. }
    rewrite length_app. simpl.
    replace (Z.of_nat (length l1' + 1) - 1) with (Z.of_nat (length l1')) by lia.
    erewrite py_list_index_inside.
    2:{ rewrite <- !app_assoc. apply list_lookup_middle. reflexivity. }
    simpl. rewrite has_impl_true by assumption. reflexivity.
  - rewrite Forall_forall in Hl1. apply Hl1.
    apply elem_of_app. right. apply list_elem_of_singleton. reflexivity.
  - intros r' Hr' Hle'. rewrite <- Hperm in Hr'.
    apply elem_of_app in Hr' as [Hr'|Hr'].
    + apply elem_of_app in Hr' as [Hr'|Hr'].
      * rewrite <- app_assoc in Hsorted.
        eapply (StronglySorted_app_1_elem_of Z.le l1' ([m] ++ opset :: l2)); eauto.
        apply list_elem_of_here.
      * apply list_elem_of_singleton in Hr'. lia.
    + rewrite Forall_forall in Hl2. specialize (Hl2 _ Hr'). lia.
Qed.

(** An exact match is returned as it is. *)
Lemma get_converter_exact (cls : OnnxOpConverter) (opset : Z) :
  opset ∈ impl_versions cls -> get_converter cls opset = Ok opset.
Proof.
  intros Hin.
  destruct (get_converter_largest_below cls opset) as (v & -> & _ & Hle & Hmax).
  - exists opset. split; [assumption | lia].
  - f_equal. specialize (Hmax opset Hin). lia.
Qed.

(** Below every version of the class the index [max(...) - 1] is [-1], the
    last place of the sorted list: [get_converter] returns the largest
    version of the class and raises nothing. *)
Lemma get_converter_below_all (cls : OnnxOpConverter) (opset : Z) :
  impl_versions cls <> [] ->
  (forall r, r ∈ impl_versions cls -> opset < r) ->
  exists version,
    get_converter cls opset = Ok version
    /\ version ∈ impl_versions cls
    /\ opset < version
    /\ (forall r, r ∈ impl_versions cls -> r <= version).
Proof.
  intros Hreg Hbelow.
  destruct (sorted_versions_split (impl_versions cls) opset)
    as (l1 & l2 & Heq & Hperm & Hsorted & Hl1 & Hl2).
  assert (l1 = []) as ->.
  { destruct l1 as [|r l1]; [reflexivity|]. exfalso.
    apply Forall_cons in Hl1 as [Hr _].
    assert (Hin : r ∈ impl_versions cls) by (rewrite <- Hperm; apply list_elem_of_here).
    specialize (Hbelow r Hin). lia. }
  simpl in *.
  assert (Hne : l2 <> []).
  { intros ->. apply Permutation_nil in Hperm. congruence. }
  destruct (exists_last Hne) as (l2' & m & ->).
  assert (Hm : m ∈ impl_versions cls).
  { rewrite <- Hperm. apply elem_of_app. right.
    apply list_elem_of_singleton. reflexivity. }
  exists m. split; [|split; [assumption|split; [auto|]]].
  - unfold get_converter. rewrite Heq.
    assert (Hmax : max_list (positions_of opset (opset :: l2' ++ [m])) = 0%nat).
    { apply (max_positions_of opset []).
      intros Hin. rewrite Forall_forall in Hl2. specialize (Hl2 _ Hin). lia. }
    rewrite Hmax. change (Z.of_nat 0 - 1) with (-1).
    change (opset :: l2' ++ [m]) with ((opset :: l2') ++ [m]).
    rewrite py_list_index_last.
    simpl. rewrite has_impl_true by assumption. reflexivity.
  - intros r Hr. rewrite <- Hperm in Hr.
    apply elem_of_app in Hr as [Hr|Hr].
    + apply StronglySorted_inv in Hsorted as [Hsorted _].
      eapply (StronglySorted_app_1_elem_of Z.le l2' [m]); eauto.
      apply list_elem_of_here.
    + apply list_elem_of_singleton in Hr. lia.
Qed.

(** Only a class without any version makes [get_converter] raise. *)
Lemma get_converter_no_version (name : string) (opset : Z) :
  get_converter (ConverterClass name []) opset
  = Raise (NotImplementedError_opset opset name).
Proof.
  unfold get_converter. simpl impl_versions.
  change (sorted ([] ++ [opset])) with [opset].
  pose proof (max_positions_of opset [] []) as Hmax. simpl in Hmax.
  rewrite Hmax by (intros H; inversion H).
  change (py_list_index [opset] (Z.of_nat 0 - 1)) with (Ok opset : result Z).
  reflexivity.
Qed.

Example get_converter_Unsqueeze :
  get_converter Unsqueeze 11 = Ok 11 /\ get_converter Unsqueeze 12 = Ok 11
  /\ get_converter Unsqueeze 13 = Ok 13 /\ get_converter Unsqueeze 18 = Ok 13
  /\ get_converter Unsqueeze 10 = Ok 13.
Proof. vm_compute. auto. Qed.

Example get_converter_ArgMax :
  get_converter ArgMax 1 = Ok 1 /\ get_converter ArgMax 10 = Ok 1
  /\ get_converter ArgMax 11 = Ok 11 /\ get_converter ArgMax 12 = Ok 12
  /\ get_converter ArgMax 0 = Ok 12.
Proof. vm_compute. auto. Qed.

(** C1. [MatMul] has the single version 13. Asked for opset 11, which is
    below every version of the class, [get_converter] does not raise: it
    returns [_impl_v13], a version above the opset asked for. *)
Theorem get_converter_MatMul_11 :
  _get_convert_map !! "MatMul" = Some MatMul
  /\ impl_versions MatMul = [13]
  /\ get_converter MatMul 11 = Ok 13.
Proof. vm_compute. auto. Qed.

(** ** The name supply *)

Lemma suffixed_inj (name : string) : Inj (=) (=) (suffixed name).
Proof.
  intros j k H. unfold suffixed in H.
  apply (inj (String.app name)) in H.
  apply (inj (String.app "_")) in H.
  apply (inj pretty) in H. exact H.
Qed.

Lemma next_free_spec (m : gmap string nat) (name : string) (fuel k : nat) :
  Exists (fun j => m !! suffixed name j = None) (seq k fuel) →
  m !! suffixed name (next_free m name fuel k) = None.
Proof.
  revert k. induction fuel as [|fuel IH]; intros k H; simpl in *.
  - inversion H.
  - destruct (m !! suffixed name k) eqn:Hk; [|exact Hk].
    apply IH. apply Exists_cons in H as [H|H]; [congruence | exact H].
Qed.

(** More candidates than keys: one of them is not a key. *)
Lemma some_suffix_free (m : gmap string nat) (name : string) (k : nat) :
  Exists (fun j => m !! suffixed name j = None) (seq k (S (size m))).
Proof.
  destruct (decide (Forall (fun j => is_Some (m !! suffixed name j)) (seq k (S (size m)))))
    as [Hall|Hnot].
  - exfalso.
    assert (Hdup : NoDup (suffixed name <$> seq k (S (size m)))).
    { apply (NoDup_fmap_2 (suffixed name) (Inj0 := suffixed_inj name)), NoDup_seq. }
    assert (Hsub : list_to_set (suffixed name <$> seq k (S (size m))) ⊆ dom m).
    { intros x Hx. apply elem_of_list_to_set, list_elem_of_fmap in Hx as (j & -> & Hj).
      apply elem_of_dom. rewrite Forall_forall in Hall. apply Hall, Hj. }
    apply subseteq_size in Hsub.
    rewrite size_list_to_set, length_fmap, length_seq, size_dom in Hsub by exact Hdup.
    lia.
  - apply not_Forall_Exists in Hnot; [|intros j; apply _].
    eapply Exists_impl; [exact Hnot|]. intros j Hj. simpl in Hj.
    destruct (m !! suffixed name j); [|reflexivity].
    exfalso. apply Hj. eauto.
Qed.

Lemma fresh_name_not_issued (self : NameSupply) (name : string) :
  ¬ issued self (fresh_name self name).1.
Proof.
  unfold issued, fresh_name. cbv zeta.
  destruct (name_map self !! replace_char "." "_" name) as [count|] eqn:Hm; cbn [fst].
  - rewrite next_free_spec by apply some_suffix_free.
    intros [x Hx]. discriminate.
  - rewrite Hm. intros [x Hx]. discriminate.
Qed.

Lemma fresh_name_issued (self : NameSupply) (name : string) :
  issued (fresh_name self name).2 (fresh_name self name).1.
Proof.
  unfold issued, fresh_name.
  destruct (name_map self !! replace_char "." "_" name) as [count|]; simpl;
    rewrite lookup_insert_eq; eauto.
Qed.

Lemma fresh_name_keeps (self : NameSupply) (name x : string) :
  issued self x → issued (fresh_name self name).2 x.
Proof.
  unfold issued, fresh_name. intros Hx.
  destruct (name_map self !! replace_char "." "_" name) as [count|]; simpl;
    repeat (apply lookup_insert_is_Some'; right); exact Hx.
Qed.

Lemma string_app_empty_r (s : string) : s +:+ "" = s.
Proof.
  induction s as [|c s IH]; [reflexivity|].
  change (String c (s +:+ "") = String c s). rewrite IH. reflexivity.
Qed.

Lemma fresh_name_prefix (self : NameSupply) (name : string) :
  exists suffix, (fresh_name self name).1 = replace_char "." "_" name +:+ suffix.
Proof.
  unfold fresh_name.
  destruct (name_map self !! replace_char "." "_" name) as [count|]; simpl.
  - eexists. unfold suffixed. reflexivity.
  - exists "". symmetry. apply string_app_empty_r.
Qed.

Lemma replace_char_idem (s : string) :
  replace_char "." "_" (replace_char "." "_" s) = replace_char "." "_" s.
Proof.
  induction s as [|c s IH]; [reflexivity|].
  cbn [replace_char]. rewrite IH. f_equal.
  destruct (decide (c = "."%char)) as [->|Hc]; [reflexivity|].
  rewrite decide_False by exact Hc. reflexivity.
Qed.

Lemma decode_char_app (s t : string) (c : Z) (rest : string) :
  decode_char s = Some (c, rest) -> decode_char (s +:+ t) = Some (c, rest +:+ t).
Proof.
  destruct s as [|c0 s1]; [discriminate|].
  change (String c0 s1 +:+ t) with (String c0 (s1 +:+ t)).
  unfold decode_char. cbv zeta.
  destruct (Z.of_nat (nat_of_ascii c0) <? 128); [intros [= <- <-]; reflexivity|].
  destruct (Z.of_nat (nat_of_ascii c0) <? 192); [discriminate|].
  destruct (Z.of_nat (nat_of_ascii c0) <? 224).
  { destruct s1 as [|c1 s2]; [discriminate|].
    change (String c1 s2 +:+ t) with (String c1 (s2 +:+ t)). cbv beta iota.
    destruct (continuation c1) as [x1|]; [|discriminate]. cbn [mbind option_bind].
    destruct (128 <=? _); [intros [= <- <-]; reflexivity | discriminate]. }
  destruct (Z.of_nat (nat_of_ascii c0) <? 240).
  { destruct s1 as [|c1 [|c2 s3]]; try discriminate.
    change (String c1 (String c2 s3) +:+ t) with (String c1 (String c2 (s3 +:+ t))).
    cbv beta iota.
    destruct (continuation c1) as [x1|]; [|discriminate]. cbn [mbind option_bind].
    destruct (continuation c2) as [x2|]; [|discriminate]. cbn [mbind option_bind].
    destruct (_ && _); [intros [= <- <-]; reflexivity | discriminate]. }
  destruct (Z.of_nat (nat_of_ascii c0) <? 248); [|discriminate].
  destruct s1 as [|c1 [|c2 [|c3 s4]]]; try discriminate.
  change (String c1 (String c2 (String c3 s4)) +:+ t)
    with (String c1 (String c2 (String c3 (s4 +:+ t)))).
  cbv beta iota.
  destruct (continuation c1) as [x1|]; [|discriminate]. cbn [mbind option_bind].
  destruct (continuation c2) as [x2|]; [|discriminate]. cbn [mbind option_bind].
  destruct (continuation c3) as [x3|]; [|discriminate]. cbn [mbind option_bind].
  destruct (_ && _); [intros [= <- <-]; reflexivity | discriminate].
Qed.

Lemma first_char_app (s t : string) (c : Z) :
  first_char s = Some c -> first_char (s +:+ t) = Some c.
Proof.
  unfold first_char. destruct (decode_char s) as [[c' rest]|] eqn:Hs; [|discriminate].
  intros [= ->]. rewrite (decode_char_app _ t _ _ Hs). reflexivity.
Qed.

Lemma sanitize_name_starts_well (E : External) (supply : NameSupply) (name : string) :
  starts_well E (_sanitize_name E supply name).1.
Proof.
  assert (Hinput : forall new_name,
             starts_well E (fresh_name supply ("input_" +:+ new_name)).1).
  { intros new_name.
    destruct (fresh_name_prefix supply ("input_" +:+ new_name)) as [suffix ->].
    exists 105. split; [reflexivity | left; reflexivity]. }
  unfold _sanitize_name. destruct name as [|c0 rest].
  - destruct (fresh_name_prefix supply "empty_") as [suffix ->].
    exists 101. split; [reflexivity | left; reflexivity].
  - set (new_name := replace_char "." "_" (String c0 rest)). cbv zeta.
    destruct (first_char new_name) as [c|] eqn:Hfirst; [|apply Hinput].
    destruct (negb (isalpha E c) && negb (c =? 95)) eqn:Hc; [apply Hinput|].
    destruct (fresh_name_prefix supply new_name) as [suffix ->].
    unfold new_name at 1. rewrite replace_char_idem. fold new_name.
    exists c. split; [apply first_char_app, Hfirst|].
    apply andb_false_iff in Hc as [Hc|Hc].
    + left. apply negb_false_iff, Hc.
    + right. apply negb_false_iff, Z.eqb_eq in Hc. exact Hc.
Qed.

Lemma sanitize_name_is_fresh_name (E : External) (supply : NameSupply) (name : string) :
  exists name', _sanitize_name E supply name = fresh_name supply name'.
Proof.
  unfold _sanitize_name. destruct name as [|c0 rest]; [eauto|]. cbv zeta.
  destruct (first_char (replace_char "." "_" (String c0 rest))) as [c|]; [|eauto].
  destruct (negb (isalpha E c) && negb (c =? 95)); eauto.
Qed.

Lemma sanitize_names_fresh (E : External) (supply : NameSupply) (names : list string) :
  NoDup (sanitize_names E supply names)
  /\ Forall (fun x => ¬ issued supply x) (sanitize_names E supply names).
Proof.
  revert supply. induction names as [|name names IH]; intros supply; simpl.
  - split; constructor.
  - destruct (sanitize_name_is_fresh_name E supply name) as [name' Heq].
    rewrite Heq. destruct (fresh_name supply name') as [new_name supply'] eqn:Hf.
    destruct (IH supply') as [Hdup Hall].
    pose proof (fresh_name_issued supply name') as Hin.
    pose proof (fresh_name_not_issued supply name') as Hout.
    rewrite Hf in Hin, Hout. simpl in Hin, Hout.
    split.
    + constructor; [|exact Hdup].
      intros Hmem. rewrite Forall_forall in Hall. exact (Hall _ Hmem Hin).
    + constructor; [exact Hout|].
      eapply Forall_impl; [exact Hall|]. intros x Hx Hi. apply Hx.
      pose proof (fresh_name_keeps supply name' x Hi) as Hk.
      rewrite Hf in Hk. exact Hk.
Qed.

(** C5. The sanitised name is not empty and starts with a letter or an
    underscore, a letter being a character [str.isalpha] accepts; it was
    not issued by the supply before, it is issued afterwards, and what was
    issued stays issued. So the names one supply issues for any sequence of
    raw names are pairwise distinct. The empty name is given a name that
    starts with [empty_]. *)
Theorem sanitize_name_valid_fresh (E : External) (supply : NameSupply) (name : string) :
  (_sanitize_name E supply name).1 <> ""
  /\ starts_well E (_sanitize_name E supply name).1
  /\ ¬ issued supply (_sanitize_name E supply name).1
  /\ issued (_sanitize_name E supply name).2 (_sanitize_name E supply name).1
  /\ (forall x, issued supply x -> issued (_sanitize_name E supply name).2 x)
  /\ (forall names, NoDup (sanitize_names E supply names))
  /\ (exists suffix, (_sanitize_name E supply "").1 = "empty_" +:+ suffix).
Proof.
  destruct (sanitize_name_is_fresh_name E supply name) as [name' Heq].
  pose proof (sanitize_name_starts_well E supply name) as Hwell.
  split; [|split; [exact Hwell|]].
  { destruct Hwell as (c & Hfirst & _). intros Hempty. rewrite Hempty in Hfirst.
    discriminate Hfirst. }
  rewrite Heq.
  split; [apply fresh_name_not_issued|].
  split; [apply fresh_name_issued|].
  split; [intros x; apply fresh_name_keeps|].
  split; [intros names; apply sanitize_names_fresh|].
  apply (fresh_name_prefix supply "empty_").
Qed.

Lemma sanitize_name_valid_fresh_witness :
  (_sanitize_name host (_sanitize_name host NameSupply_new "1.x").2 "input_1_x").1
  = "input_1_x_1"
  /\ issued (_sanitize_name host (_sanitize_name host NameSupply_new "1.x").2 "input_1_x").2
       "input_1_x".
Proof.
  split; [reflexivity|].
  pose proof (sanitize_name_valid_fresh host
                (_sanitize_name host NameSupply_new "1.x").2 "input_1_x")
    as (_ & _ & _ & _ & Hkeep & _).
  apply Hkeep. exists O. vm_compute. reflexivity.
Defined.

(** A name that starts with a letter beyond ASCII is kept as it is: the
    bytes 195 and 169 encode the character 233, e with an acute accent. A
    name that starts with the character 215, the multiplication sign, is
    given the prefix [input_]. *)
Example sanitize_name_beyond_ascii :
  first_char (String "195"%char (String "169"%char "x")) = Some 233
  /\ (_sanitize_name host NameSupply_new (String "195"%char (String "169"%char "x"))).1
     = String "195"%char (String "169"%char "x")
  /\ (_sanitize_name host NameSupply_new (String "195"%char (String "151"%char "x"))).1
     = "input_" +:+ String "195"%char (String "151"%char "x").
Proof. vm_compute. auto. Qed.

(** A name made of white space is blank, also of white space beyond ASCII:
    the bytes 194 and 160 encode the no-break space. *)
Example is_blank_beyond_ascii :
  is_blank (String "194"%char (String "160"%char " ")) = true
  /\ is_blank "" = true
  /\ is_blank " a" = false.
Proof. vm_compute. auto. Qed.

(** ** Operators without a converter *)

Lemma bind_Ok_l {A B : Type} (a : A) (k : A -> result B) : Ok a ≫= k = k a.
Proof. reflexivity. Qed.

Lemma bind_Raise_l {A B : Type} (e : exn) (k : A -> result B) : Raise e ≫= k = Raise e.
Proof. reflexivity. Qed.

Lemma elem_of_foldl_union (P : string -> bool) (nodes : list NodeProto)
    (acc : gset string) (op : string) :
  op ∈ foldl (fun unsupported_ops node =>
                if P (n_op_type node) then unsupported_ops ∪ {[ n_op_type node ]}
                else unsupported_ops) acc nodes
  ↔ op ∈ acc \/ exists node, node ∈ nodes /\ n_op_type node = op /\ P op = true.
Proof.
  revert acc. induction nodes as [|n nodes IH]; intros acc; cbn [foldl].
  - split; [auto | intros [H|(node & H & _)]; [exact H | inversion H]].
  - rewrite IH. destruct (P (n_op_type n)) eqn:HP.
    + rewrite elem_of_union, elem_of_singleton. split.
      * intros [[H| ->]|(node & Hin & Hop & Hnone)]; auto.
        -- right. exists n. split; [apply list_elem_of_here | auto].
        -- right. exists node. split; [apply list_elem_of_further, Hin | auto].
      * intros [H|(node & Hin & Hop & Hnone)]; auto.
        apply elem_of_cons in Hin as [->|Hin]; [auto | right; eauto].
    + split.
      * intros [H|(node & Hin & Hop & Hnone)]; auto.
        right. exists node. split; [apply list_elem_of_further, Hin | auto].
      * intros [H|(node & Hin & Hop & Hnone)]; auto.
        apply elem_of_cons in Hin as [->|Hin]; [congruence | right; eauto].
Qed.

Lemma Constant_in_convert_map : _get_convert_map !! "Constant" <> None.
Proof. vm_compute. discriminate. Qed.

Lemma elem_of_unsupported_ops_of (nodes : list NodeProto) (op : string) :
  op ∈ unsupported_ops_of nodes
  ↔ exists node, node ∈ nodes /\ n_op_type node = op /\ _get_convert_map !! op = None.
Proof.
  etransitivity;
    [exact (elem_of_foldl_union
              (fun op_name => bool_decide (_get_convert_map !! op_name = None)
                              && negb (bool_decide (op_name = "Constant")))
              nodes ∅ op)|].
  split.
  - intros [H|(node & Hin & Hop & HP)]; [set_solver|].
    apply andb_true_iff in HP as [HP _]. apply bool_decide_eq_true in HP. eauto.
  - intros (node & Hin & Hop & Hnone). right. exists node.
    split; [exact Hin|]. split; [exact Hop|].
    apply andb_true_iff. split; [apply bool_decide_eq_true, Hnone|].
    apply negb_true_iff, bool_decide_eq_false. intros ->.
    exact (Constant_in_convert_map Hnone).
Qed.

(** The claim of C2 fails for a graph that does not get as far as the
    check: the initializer without a name is turned away first, and the
    error says nothing about the operator [Foo]. *)
Lemma unsupported_ops_behind_unnamed_initializer :
  has_unsupported_op unsupported_graph_unnamed_initializer
  /\ from_onnx host (model_of unsupported_graph_unnamed_initializer)
       None (DtypeStr "float32") None true
     = Raise ValueError_tensor_name.
Proof.
  split; [|vm_compute; reflexivity].
  exists (node "Foo" "n0" ["a"] ["b"]). split; [apply list_elem_of_here | reflexivity].
Qed.

(** C2, as the code has it. A graph with a node whose operator is not in
    the converter map: [_check_for_unsupported_ops] raises one error that
    carries the set of all such operator names of the graph, each once.
    [from_onnx] runs the check after the initializers and the inputs are
    parsed and before [_construct_nodes]: when these parse, lowering ends
    with that error and no node is converted; when one of them raises,
    lowering ends with the error it raises. *)
Theorem unsupported_ops_reported (E : External) (self : ONNXGraphImporter)
    (graph : GraphProto) (opset : Z) :
  has_unsupported_op graph ->
  _check_for_unsupported_ops graph
  = Raise (OpNotImplemented (unsupported_ops_of (g_node graph)))
  /\ (forall op, op ∈ unsupported_ops_of (g_node graph)
                 <-> exists node, node ∈ g_node graph /\ n_op_type node = op
                                  /\ _get_convert_map !! op = None)
  /\ (forall self1 self2,
        _parse_graph_initializers E (set_opset self opset) graph = Ok self1 ->
        _parse_graph_input E self1 graph = Ok self2 ->
        ONNXGraphImporter_from_onnx E self graph opset
        = Raise (OpNotImplemented (unsupported_ops_of (g_node graph))))
  /\ ONNXGraphImporter_from_onnx E self graph opset
     = (self ← _parse_graph_initializers E (set_opset self opset) graph;
        _ ← _parse_graph_input E self graph;
        Raise (OpNotImplemented (unsupported_ops_of (g_node graph)))).
Proof.
  intros (node & Hin & Hnone).
  assert (Hcheck : _check_for_unsupported_ops graph
                   = Raise (OpNotImplemented (unsupported_ops_of (g_node graph)))).
  { unfold _check_for_unsupported_ops. cbv zeta.
    rewrite bool_decide_eq_false_2; [reflexivity|].
    intros Hempty.
    assert (Hmem : n_op_type node ∈ unsupported_ops_of (g_node graph))
      by (apply elem_of_unsupported_ops_of; eauto).
    rewrite Hempty in Hmem. set_solver. }
  assert (Hfrom : ONNXGraphImporter_from_onnx E self graph opset
                  = (self ← _parse_graph_initializers E (set_opset self opset) graph;
                     _ ← _parse_graph_input E self graph;
                     Raise (OpNotImplemented (unsupported_ops_of (g_node graph))))).
  { unfold ONNXGraphImporter_from_onnx. cbv zeta. rewrite Hcheck.
    destruct (_parse_graph_initializers E (set_opset self opset) graph) as [self1|e];
      [|reflexivity]. rewrite !bind_Ok_l.
    destruct (_parse_graph_input E self1 graph) as [self2|e]; reflexivity. }
  split; [exact Hcheck|]. split; [apply elem_of_unsupported_ops_of|].
  split; [|exact Hfrom].
  intros self1 self2 Hinit Hinput.
  rewrite Hfrom, Hinit, bind_Ok_l, Hinput, bind_Ok_l. reflexivity.
Qed.

Lemma unsupported_ops_reported_witness :
  from_onnx host (model_of unsupported_graph) None (DtypeStr "float32") None true
  = Raise (OpNotImplemented {[ "Foo"; "Bar" ]}).
Proof.
  assert (Hun : has_unsupported_op unsupported_graph).
  { exists (node "Foo" "n0" ["a"] ["b"]). split; [apply list_elem_of_here | reflexivity]. }
  pose proof (unsupported_ops_reported host
                (ONNXGraphImporter_init None (DtypeStr "float32") true)
                unsupported_graph 13 Hun) as (_ & _ & Hparsed & _).
  etransitivity; [eapply Hparsed; vm_compute; reflexivity|].
  vm_compute. reflexivity.
Defined.

(** ** Shape operands *)

Lemma check_shape_inputs_rejects (node_name op_name : string) (inputs : onnx_input Expr) :
  has_shape_operand inputs ->
  op_name ∉ shape_compatible_ops ->
  check_shape_inputs node_name op_name inputs = Raise (ValueError_shape_expr node_name).
Proof.
  intros (e & Hin & Hshape) Hop.
  induction inputs as [|inp inputs IH]; [inversion Hin|]. simpl.
  rewrite (bool_decide_eq_false_2 _ Hop). simpl. rewrite andb_true_r.
  apply elem_of_cons in Hin as [<-|Hin].
  - rewrite Hshape. reflexivity.
  - rewrite (IH Hin). destruct inp as [e'|]; [|reflexivity].
    destruct (is_ShapeStructInfo (struct_info e')); reflexivity.
Qed.

Lemma check_shape_inputs_accepts (node_name op_name : string) (inputs : onnx_input Expr) :
  op_name ∈ shape_compatible_ops ->
  check_shape_inputs node_name op_name inputs = Ok ().
Proof.
  intros Hop. induction inputs as [|inp inputs IH]; [reflexivity|]. simpl.
  rewrite (bool_decide_eq_true_2 _ Hop). simpl. rewrite andb_false_r. exact IH.
Qed.

(** C3. A node with an operand that is present and is a shape
    ([ShapeStructInfo], the struct info of a [ShapeExpr]): when its operator
    is none of [Reshape], [ConstantOfShape], [Gather], [Slice], [Expand], the
    check raises and the conversion of the node fails, with the error of the
    check as soon as the attributes parse; when its operator is one of the
    five the check lets the operands through. *)
Theorem shape_operand_rejected (E : External) (self : ONNXGraphImporter)
    (node_index : nat) (node : NodeProto) (inputs : onnx_input Expr) :
  resolve_inputs (_nodes self) (n_input node) = Ok inputs ->
  has_shape_operand inputs ->
  (forall values, struct_info (ShapeExpr values) = ShapeStructInfo (len values))
  /\ (forall op, op ∈ shape_compatible_ops
                 <-> op = "Reshape" \/ op = "ConstantOfShape" \/ op = "Gather"
                     \/ op = "Slice" \/ op = "Expand")
  /\ (n_op_type node ∉ shape_compatible_ops ->
      check_shape_inputs (n_name node) (n_op_type node) inputs
      = Raise (ValueError_shape_expr (n_name node))
      /\ is_Raise (construct_node E self (node_index, node))
      /\ (is_Ok (_parse_attr (n_attribute node)) ->
          construct_node E self (node_index, node)
          = Raise (ValueError_shape_expr (n_name node))))
  /\ (n_op_type node ∈ shape_compatible_ops ->
      check_shape_inputs (n_name node) (n_op_type node) inputs = Ok ()).
Proof.
  intros Hinputs Hshape.
  split; [reflexivity|]. split.
  { intros op. unfold shape_compatible_ops.
    rewrite !elem_of_cons, elem_of_nil. tauto. }
  split; [|apply check_shape_inputs_accepts].
  intros Hop.
  pose proof (check_shape_inputs_rejects (n_name node) _ _ Hshape Hop) as Hcheck.
  split; [exact Hcheck|].
  unfold construct_node. cbv zeta.
  destruct (_parse_attr (n_attribute node)) as [attr|e].
  - rewrite bind_Ok_l, Hinputs, bind_Ok_l, Hcheck, bind_Raise_l.
    split; [eexists; reflexivity | reflexivity].
  - rewrite bind_Raise_l.
    split; [eexists; reflexivity | intros [a Ha]; discriminate].
Qed.

Lemma shape_operand_rejected_witness :
  construct_node host
    (set_nodes (ONNXGraphImporter_init None DtypeNone true)
               {[ "s" := ShapeExpr [IntImm 2; IntImm 3] ]})
    (O, node "Add" "add0" ["s"; ""] ["c"])
  = Raise (ValueError_shape_expr "add0").
Proof.
  apply (shape_operand_rejected host _ O (node "Add" "add0" ["s"; ""] ["c"])
           [Some (ShapeExpr [IntImm 2; IntImm 3]); None]).
  - vm_compute. reflexivity.
  - exists (ShapeExpr [IntImm 2; IntImm 3]). split; [apply list_elem_of_here | reflexivity].
  - vm_compute. intros H. repeat (apply elem_of_cons in H as [H|H]; [discriminate|]).
    inversion H.
  - exists ∅. reflexivity.
Defined.

(** ** Constant folding in [Add] *)

Lemma Add_impl_v13_constants (E : External) (a b : NDArray) (attr : gmap string AttrValue) :
  Add_impl_v13 E [Some (Constant a); Some (Constant b)] attr
  = (output ← np_add E a b; Ok (Constant output)).
Proof. reflexivity. Qed.

Lemma Add_impl_v13_folded (E : External) (inputs : onnx_input Expr)
    (attr : gmap string AttrValue) (e : Expr) :
  all_Constant inputs = true ->
  Add_impl_v13 E inputs attr = Ok e ->
  is_Constant e = true.
Proof.
  intros Hall. unfold Add_impl_v13. rewrite Hall.
  destruct (onnx_input_getitem_int inputs 0) as [i0|]; [|discriminate]. rewrite bind_Ok_l.
  destruct (data_numpy i0) as [a|]; [|discriminate]. rewrite bind_Ok_l.
  destruct (onnx_input_getitem_int inputs 1) as [i1|]; [|discriminate]. rewrite bind_Ok_l.
  destruct (data_numpy i1) as [b|]; [|discriminate]. rewrite bind_Ok_l.
  destruct (np_add E a b) as [output|]; [|discriminate]. rewrite bind_Ok_l.
  intros [= <-]. reflexivity.
Qed.

(** C6. [Add._impl_v13] on two constants is the constant of their numpy
    sum, and whenever all its operands are constants what it returns is a
    constant: no call of [relax.op.add] is built. The graph with the one
    [Add] on the initializers [[1,2]] and [[3,4]] lowers to a function
    without parameters whose result is the constant [[4,6]]. *)
Theorem Add_folds_constants :
  (forall (E : External) (a b : NDArray) (attr : gmap string AttrValue),
      Add_impl_v13 E [Some (Constant a); Some (Constant b)] attr
      = (output ← np_add E a b; Ok (Constant output)))
  /\ (forall (E : External) (inputs : onnx_input Expr) (attr : gmap string AttrValue)
             (e : Expr),
         all_Constant inputs = true ->
         Add_impl_v13 E inputs attr = Ok e ->
         is_Constant e = true)
  /\ (forall E : External,
         _convert_operator E "Add" O [Some (int64_constant [1; 2]); Some (int64_constant [3; 4])] ∅ 13
         = Add_impl_v13 E [Some (int64_constant [1; 2]); Some (int64_constant [3; 4])] ∅)
  /\ from_onnx host (model_of add_graph) None (DtypeStr "float32") None true
     = Ok {| fn_name := "main"; fn_params := []; fn_body := int64_constant [4; 6] |}.
Proof.
  split; [exact Add_impl_v13_constants|].
  split; [exact Add_impl_v13_folded|].
  split; [intros E; vm_compute; reflexivity|].
  vm_compute. reflexivity.
Qed.

Lemma Add_folds_constants_witness :
  is_Constant (int64_constant [4; 6]) = true.
Proof.
  destruct Add_folds_constants as (_ & Hfold & _).
  apply (Hfold host [Some (int64_constant [1; 2]); Some (int64_constant [3; 4])] ∅).
  - reflexivity.
  - vm_compute. reflexivity.
Defined.

(** ** The outputs of a node *)

Lemma unpack_outputs_components (op : Expr) :
  (unpack_outputs op).2 = length (components (unpack_outputs op).1).
Proof.
  unfold unpack_outputs. destruct op; simpl; try reflexivity;
    try (destruct sinfo; simpl; rewrite ?length_map, ?length_seq; reflexivity).
  destruct (struct_info op); simpl; try reflexivity.
  destruct (fields !! index) as [[]|]; simpl;
    rewrite ?length_map, ?length_seq; reflexivity.
Qed.

Lemma unpack_outputs_tuple (op : Expr) :
  (unpack_outputs op).2 <> 1%nat ->
  exists fields, (unpack_outputs op).1 = Tuple fields.
Proof.
  unfold unpack_outputs. destruct op; simpl; eauto; try congruence;
    try (destruct sinfo; simpl; eauto; congruence).
  destruct (struct_info op); simpl; try congruence.
  destruct (fields !! index) as [[]|]; simpl; eauto; congruence.
Qed.

Lemma for_each_record (fields : list Expr) (outputs : list string) (k : nat)
    (nodes : gmap string Expr) :
  (k + length outputs <= length fields)%nat ->
  for_each (fun nodes '(o, i) => x ← expr_getitem (Tuple fields) i; Ok (<[o := x]> nodes))
           (zip outputs (seq k (length outputs))) nodes
  = Ok (record_all nodes (zip outputs (drop k fields))).
Proof.
  revert k nodes. induction outputs as [|o outputs IH]; intros k nodes Hlen.
  - reflexivity.
  - simpl in Hlen. destruct (lookup_lt_is_Some_2 fields k) as [x Hx]; [lia|].
    rewrite (drop_S _ _ _ Hx).
    cbn [length seq zip zip_with for_each expr_getitem].
    rewrite Hx. rewrite !bind_Ok_l. rewrite IH by lia. reflexivity.
Qed.

Lemma record_outputs_missing (nodes : gmap string Expr) (op_name : string)
    (outputs : list string) (op : Expr) :
  ((unpack_outputs op).2 < length outputs)%nat ->
  record_outputs nodes op_name outputs op
  = Raise (AssertionError_missing_outputs (length outputs) (unpack_outputs op).2 op_name).
Proof.
  intros Hlt. unfold record_outputs.
  destruct (unpack_outputs op) as [op' outputs_num]. simpl in Hlt.
  destruct (Nat.leb_spec (length outputs) outputs_num); [lia | reflexivity].
Qed.

Lemma record_outputs_several (nodes : gmap string Expr) (op_name : string)
    (outputs : list string) (op : Expr) :
  (length outputs <= (unpack_outputs op).2)%nat ->
  (unpack_outputs op).2 <> 1%nat ->
  record_outputs nodes op_name outputs op
  = Ok (record_all nodes (zip outputs (components (unpack_outputs op).1))).
Proof.
  intros Hle Hne. unfold record_outputs.
  pose proof (unpack_outputs_components op) as Hnum.
  destruct (unpack_outputs_tuple op Hne) as [fields Hfields].
  destruct (unpack_outputs op) as [op' outputs_num]. simpl in *. subst op'.
  simpl in Hnum.
  destruct (Nat.leb_spec (length outputs) outputs_num); [|lia]. simpl.
  destruct (Nat.eqb_spec outputs_num 1); [contradiction|].
  apply (for_each_record fields outputs 0). lia.
Qed.

Lemma record_outputs_single (nodes : gmap string Expr) (op_name o : string) (op : Expr) :
  (unpack_outputs op).2 = 1%nat ->
  record_outputs nodes op_name [o] op = Ok (<[o := (unpack_outputs op).1]> nodes).
Proof.
  intros Hone. unfold record_outputs.
  destruct (unpack_outputs op) as [op' outputs_num]. simpl in *. subst. reflexivity.
Qed.



(** ** Recording under a bound name *)

(** The claim of C8 fails: the [Add] of [add_graph_rebinding] records its
    result under the name of an initializer; nothing is raised and the
    name, bound to [[1,2]] before, is bound to [[4,6]] afterwards. *)
Lemma rebinding_is_silent :
  exists self1 self2,
    _parse_graph_initializers host
      (set_opset (ONNXGraphImporter_init None (DtypeStr "float32") true) 13)
      add_graph_rebinding = Ok self1
    /\ _nodes self1 !! "a" = Some (int64_constant [1; 2])
    /\ _construct_nodes host self1 add_graph_rebinding = Ok self2
    /\ _nodes self2 !! "a" = Some (int64_constant [4; 6])
    /\ from_onnx host (model_of add_graph_rebinding) None (DtypeStr "float32") None true
       = Ok {| fn_name := "main"; fn_params := []; fn_body := int64_constant [4; 6] |}.
Proof.
  eexists. eexists.
  split; [vm_compute; reflexivity|].
  split; [vm_compute; reflexivity|].
  split; [vm_compute; reflexivity|].
  split; vm_compute; reflexivity.
Qed.

(** C8, as the code has it. Recording an output under a name that is bound
    raises nothing: with one output the old value is replaced by the new
    one, with several the declared names are recorded one after the other,
    whatever the environment holds. The environment is a map: a name has at
    most one value at a time, the one recorded last. *)
Theorem record_outputs_rebinds (nodes : gmap string Expr) (op_name o : string)
    (outputs : list string) (op v : Expr) :
  nodes !! o = Some v ->
  ((unpack_outputs op).2 = 1%nat ->
   record_outputs nodes op_name [o] op = Ok (<[o := (unpack_outputs op).1]> nodes)
   /\ <[o := (unpack_outputs op).1]> nodes !! o = Some (unpack_outputs op).1)
  /\ ((unpack_outputs op).2 <> 1%nat ->
      (length outputs <= (unpack_outputs op).2)%nat ->
      record_outputs nodes op_name outputs op
      = Ok (record_all nodes (zip outputs (components (unpack_outputs op).1)))).
Proof.
  intros _. split.
  - intros Hone. split; [apply record_outputs_single, Hone | apply lookup_insert_eq].
  - intros Hne Hle. apply record_outputs_several; assumption.
Qed.

Lemma record_outputs_rebinds_witness :
  record_outputs {[ "a" := int64_constant [1; 2] ]} "Add" ["a"] (int64_constant [4; 6])
  = Ok (<["a" := int64_constant [4; 6]]> {[ "a" := int64_constant [1; 2] ]}).
Proof.
  pose proof (record_outputs_rebinds {[ "a" := int64_constant [1; 2] ]} "Add" "a" ["a"]
                (int64_constant [4; 6]) (int64_constant [1; 2])) as Hrebind.
  destruct Hrebind as [Hone _]; [reflexivity|].
  apply Hone. reflexivity.
Defined.

(** ** The element type of an input *)

Lemma get_info_name (E : External) (i : ValueInfoProto) (i_name : string)
    (i_shape : list PrimExpr) (d_type : option string) :
  get_info E i = Ok (i_name, i_shape, d_type) ->
  i_name = vi_name i /\ (vi_elem_type i = 0 -> d_type = None).
Proof.
  unfold get_info. cbv zeta.
  destruct (Z.eqb_spec (vi_elem_type i) 0) as [Hz|Hz].
  - rewrite bind_Ok_l. intros [= <- _ <-]. auto.
  - destruct (get_type E (vi_elem_type i)); [|discriminate].
    rewrite !bind_Ok_l. intros [= <- _ <-]. split; [reflexivity | contradiction].
Qed.

(** What one turn of the loop of [_parse_graph_input] does to the state. *)
Lemma parse_one_input_spec (E : External) (self self' : ONNXGraphImporter)
    (i : ValueInfoProto) :
  parse_one_input E self i = Ok self' ->
  exists (v : Expr) (d_type : option string) (i_shape : list PrimExpr),
    get_info E i = Ok (vi_name i, i_shape, d_type)
    /\ _nodes self' !! vi_name i = Some v
    /\ _inputs self' = odict_set (_inputs self) (vi_name i) v
    /\ match _nodes self !! vi_name i with
       | Some v0 => _nodes self' = _nodes self /\ v = v0
       | None =>
           _nodes self' = <[vi_name i := v]> (_nodes self)
           /\ is_Var v = true
           /\ var_dtype v = match _dtype self with
                            | DtypeDict dtypes =>
                                match dtypes !! vi_name i with
                                | Some t => Some t
                                | None => d_type
                                end
                            | _ => d_type
                            end
       end.
Proof.
  unfold parse_one_input.
  destruct (get_info E i) as [[[i_name i_shape] d_type]|e] eqn:Hinfo; [|discriminate].
  apply get_info_name in Hinfo as Hname. destruct Hname as [-> _].
  rewrite bind_Ok_l. cbv beta iota.
  destruct (_nodes self !! vi_name i) as [v0|] eqn:Hnode.
  - rewrite bind_Ok_l. unfold nodes_getitem. rewrite Hnode, bind_Ok_l.
    intros [= <-]. exists v0, d_type, i_shape. simpl. auto.
  - destruct (if _sanitize self then _sanitize_name E (_name_supply self) (vi_name i)
              else (vi_name i, _name_supply self)) as [var_name supply].
    unfold _new_var. rewrite bind_Ok_l. unfold nodes_getitem. cbn [_nodes].
    rewrite lookup_insert_eq, bind_Ok_l.
    intros [= <-]. eexists. exists d_type, i_shape. cbn [_nodes _inputs].
    rewrite lookup_insert_eq.
    split; [reflexivity|]. split; [reflexivity|]. split; [reflexivity|].
    split; [reflexivity|]. split; reflexivity.
Qed.

(** C9. The docstrings of the importer and of [from_onnx] give
    [dtype_dict] as "str or dict of str to str", the input types of the
    graph, and ["float32"] is its default. A single type is read nowhere:
    the input [x], whose element type the model leaves unset, is lowered
    with [dtype_dict = "float32"], and its parameter has no element type
    instead of [float32]. *)
Theorem single_dtype_not_applied :
  from_onnx host (model_of untyped_input_graph) None (DtypeStr "float32") None true
  = Ok {| fn_name := "main";
          fn_params := [Var "x" (TensorStructInfo (Some [IntImm 2; IntImm 3]) None);
                        Var "y" (TensorStructInfo (Some [IntImm 2; IntImm 3]) (Some "float32"))];
          fn_body := Var "x" (TensorStructInfo (Some [IntImm 2; IntImm 3]) None) |}
  /\ var_dtype (Var "x" (TensorStructInfo (Some [IntImm 2; IntImm 3]) None))
     <> Some "float32".
Proof. split; [vm_compute; reflexivity | discriminate]. Qed.

(** The element type of a parameter, for every input and importer. A
    declared input that is not an initializer becomes a variable. With a
    single type string (or no [dtype_dict]) the string is not looked at: the
    variable has the element type the model declares, none when the model
    leaves it unset. With a map, an input the map lists has the mapped type
    and an input it does not list has the declared type. *)
Lemma input_dtype_override (E : External) (self : ONNXGraphImporter)
    (i : ValueInfoProto) (i_name : string) (i_shape : list PrimExpr)
    (d_type : option string) :
  get_info E i = Ok (i_name, i_shape, d_type) ->
  _nodes self !! i_name = None ->
  (vi_elem_type i = 0 -> d_type = None)
  /\ exists (self' : ONNXGraphImporter) (v : Expr),
       parse_one_input E self i = Ok self'
       /\ _nodes self' !! i_name = Some v
       /\ is_Var v = true
       /\ (forall s, _dtype self = DtypeStr s -> var_dtype v = d_type)
       /\ (_dtype self = DtypeNone -> var_dtype v = d_type)
       /\ (forall dtypes t, _dtype self = DtypeDict dtypes ->
             dtypes !! i_name = Some t -> var_dtype v = Some t)
       /\ (forall dtypes, _dtype self = DtypeDict dtypes ->
             dtypes !! i_name = None -> var_dtype v = d_type).
Proof.
  intros Hinfo Hnone.
  destruct (get_info_name _ _ _ _ _ Hinfo) as [-> Hunset].
  split; [exact Hunset|].
  destruct (parse_one_input E self i) as [self'|e] eqn:Hparse.
  - destruct (parse_one_input_spec _ _ _ _ Hparse)
      as (v & d_type' & i_shape' & Hinfo' & Hv & _ & Hcase).
    rewrite Hinfo in Hinfo'. injection Hinfo' as <- <-.
    rewrite Hnone in Hcase. destruct Hcase as (_ & Hvar & Hdtype).
    exists self', v. split; [reflexivity|]. split; [exact Hv|]. split; [exact Hvar|].
    rewrite Hdtype. repeat split.
    + intros s ->. reflexivity.
    + intros ->. reflexivity.
    + intros dtypes t -> ->. reflexivity.
    + intros dtypes -> ->. reflexivity.
  - exfalso. revert Hparse. unfold parse_one_input.
    rewrite Hinfo, bind_Ok_l. cbv beta iota. rewrite Hnone.
    destruct (if _sanitize self then _sanitize_name E (_name_supply self) (vi_name i)
              else (vi_name i, _name_supply self)) as [var_name supply].
    unfold _new_var. rewrite bind_Ok_l. unfold nodes_getitem. cbn [_nodes].
    rewrite lookup_insert_eq, bind_Ok_l. discriminate.
Qed.

Lemma input_dtype_override_witness :
  exists (self' : ONNXGraphImporter) (v : Expr),
    parse_one_input host (ONNXGraphImporter_init None (DtypeDict {[ "x" := "int8" ]}) true)
      (value_info "x" [2; 3] 0) = Ok self'
    /\ _nodes self' !! "x" = Some v
    /\ var_dtype v = Some "int8".
Proof.
  destruct (input_dtype_override host
              (ONNXGraphImporter_init None (DtypeDict {[ "x" := "int8" ]}) true)
              (value_info "x" [2; 3] 0) "x" [IntImm 2; IntImm 3] None)
    as (_ & self' & v & Hparse & Hv & _ & _ & _ & Hlisted & _).
  - reflexivity.
  - reflexivity.
  - exists self', v. split; [exact Hparse|]. split; [exact Hv|].
    apply (Hlisted {[ "x" := "int8" ]}); reflexivity.
Defined.

(** ** Inputs that are initializers *)

Lemma odict_set_keys {V : Type} (d : list (string * V)) (k : string) (v : V) :
  (odict_set d k v).*1 = see d.*1 k.
Proof.
  unfold see. induction d as [|[k' v'] d IH].
  - cbn. rewrite decide_False by apply not_elem_of_nil. reflexivity.
  - cbn [odict_set]. rewrite fmap_cons. cbn [fst].
    destruct (decide (k' = k)) as [->|Hne].
    + rewrite fmap_cons. cbn [fst].
      rewrite decide_True by apply list_elem_of_here. reflexivity.
    + rewrite fmap_cons, IH. cbn [fst].
      destruct (decide (k ∈ d.*1)) as [Hin|Hnin].
      * rewrite decide_True by (apply list_elem_of_further, Hin). reflexivity.
      * rewrite decide_False; [reflexivity|].
        intros Hin. apply elem_of_cons in Hin as [->|Hin]; contradiction.
Qed.

Lemma odict_set_Forall {V : Type} (P : string * V -> Prop) (d : list (string * V))
    (k : string) (v : V) :
  Forall P d -> P (k, v) -> Forall P (odict_set d k v).
Proof.
  intros Hd Hkv. induction Hd as [|[k' v'] d Hx Hd IH]; simpl.
  - constructor; [exact Hkv | constructor].
  - destruct (decide (k' = k)); constructor; auto.
Qed.

(** The loop over the initializers binds their names to constants and
    leaves [_inputs] alone. *)
Lemma parse_graph_initializers_spec (E : External) (tensors : list TensorProto)
    (self self' : ONNXGraphImporter) :
  for_each (fun self init_tensor =>
              if is_blank (tp_name init_tensor) then Raise ValueError_tensor_name
              else
                array ← _parse_array E init_tensor;
                Ok (set_nodes self (<[tp_name init_tensor := Constant array]> (_nodes self))))
           tensors self = Ok self' ->
  _inputs self' = _inputs self
  /\ (forall k, k ∈ tp_name <$> tensors ->
                exists c, _nodes self' !! k = Some (Constant c))
  /\ (forall k, k ∉ tp_name <$> tensors -> _nodes self' !! k = _nodes self !! k).
Proof.
  revert self. induction tensors as [|t tensors IH]; intros self; cbn [for_each].
  - intros [= <-]. split; [reflexivity|]. split; [|reflexivity].
    intros k Hk. inversion Hk.
  - destruct (is_blank (tp_name t)); [discriminate|].
    destruct (_parse_array E t) as [array|e]; [|discriminate].
    rewrite !bind_Ok_l. intros Hrest.
    destruct (IH _ Hrest) as (Hinputs & Hin & Hout).
    split; [exact Hinputs|]. split.
    + intros k Hk. rewrite fmap_cons in Hk.
      destruct (decide (k ∈ tp_name <$> tensors)) as [Hk'|Hk']; [apply Hin, Hk'|].
      apply elem_of_cons in Hk as [->|Hk]; [|contradiction].
      rewrite (Hout _ Hk'). cbn [set_nodes _nodes]. rewrite lookup_insert_eq. eauto.
    + intros k Hk. rewrite fmap_cons in Hk.
      apply not_elem_of_cons in Hk as [Hne Hk].
      rewrite (Hout _ Hk). cbn [set_nodes _nodes].
      rewrite lookup_insert_ne by congruence. reflexivity.
Qed.

(** The loop over the declared inputs: the names are seen in order, what is
    bound stays bound, what becomes bound is a variable, and [_inputs] holds
    what [_nodes] holds. *)
Lemma parse_graph_input_spec (E : External) (inputs : list ValueInfoProto)
    (self self' : ONNXGraphImporter) :
  for_each (parse_one_input E) inputs self = Ok self' ->
  (_inputs self').*1 = foldl see (_inputs self).*1 (vi_name <$> inputs)
  /\ (forall k v, _nodes self !! k = Some v -> _nodes self' !! k = Some v)
  /\ (forall k v, _nodes self' !! k = Some v ->
                  _nodes self !! k = Some v \/ (_nodes self !! k = None /\ is_Var v = true))
  /\ (Forall (fun kv => _nodes self !! kv.1 = Some kv.2) (_inputs self) ->
      Forall (fun kv => _nodes self' !! kv.1 = Some kv.2) (_inputs self')).
Proof.
  revert self. induction inputs as [|i inputs IH]; intros self; cbn [for_each].
  - intros [= <-]. repeat split; auto.
  - destruct (parse_one_input E self i) as [self1|e] eqn:Hone; [|discriminate].
    rewrite bind_Ok_l. intros Hrest.
    destruct (parse_one_input_spec _ _ _ _ Hone)
      as (v & d_type & i_shape & _ & Hv & Hinputs & Hcase).
    destruct (IH _ Hrest) as (Hkeys & Hmono & Hnew & Hforall).
    assert (Hmono1 : forall k w, _nodes self !! k = Some w -> _nodes self1 !! k = Some w).
    { intros k w Hk. destruct (_nodes self !! vi_name i) as [v0|] eqn:Hn.
      - destruct Hcase as [-> _]. exact Hk.
      - destruct Hcase as (-> & _). rewrite lookup_insert_ne; [exact Hk | congruence]. }
    split; [|split; [|split]].
    + rewrite Hkeys, Hinputs, odict_set_keys. reflexivity.
    + intros k w Hk. apply Hmono, Hmono1, Hk.
    + intros k w Hk. destruct (Hnew _ _ Hk) as [Hk1|[Hk1 Hvar]].
      * destruct (_nodes self !! vi_name i) as [v0|] eqn:Hn.
        -- destruct Hcase as [Heq _]. rewrite Heq in Hk1. auto.
        -- destruct Hcase as (Heq & Hvar & _). rewrite Heq in Hk1.
           destruct (decide (vi_name i = k)) as [<-|Hne].
           ++ rewrite lookup_insert_eq in Hk1. injection Hk1 as <-. auto.
           ++ rewrite lookup_insert_ne in Hk1 by exact Hne. auto.
      * right. split; [|exact Hvar].
        destruct (_nodes self !! k) as [w'|] eqn:Hk0; [|reflexivity].
        rewrite (Hmono1 _ _ Hk0) in Hk1. discriminate.
    + intros Hall. apply Hforall. rewrite Hinputs.
      apply odict_set_Forall; [|exact Hv].
      eapply Forall_impl; [exact Hall|]. intros [k w] Hk. apply Hmono1, Hk.
Qed.

Lemma construct_nodes_inputs (E : External) (nodes : list (nat * NodeProto))
    (self self' : ONNXGraphImporter) :
  for_each (construct_node E) nodes self = Ok self' -> _inputs self' = _inputs self.
Proof.
  revert self. induction nodes as [|[index node] nodes IH]; intros self; cbn [for_each].
  - intros [= <-]. reflexivity.
  - destruct (construct_node E self (index, node)) as [self1|e] eqn:Hone; [|discriminate].
    rewrite bind_Ok_l. intros Hrest. rewrite (IH _ Hrest).
    revert Hone. unfold construct_node. cbv zeta.
    repeat match goal with
           | |- context [mbind _ ?r] =>
               destruct r; [rewrite bind_Ok_l | discriminate]
           end.
    intros [= <-]. reflexivity.
Qed.

Lemma filter_is_Var (inits : list string) (d : list (string * Expr)) :
  Forall (fun kv => is_Var kv.2 = true <-> kv.1 ∉ inits) d ->
  filter (fun v => is_Var v = true) (List.map snd d)
  = (filter (fun kv => kv.1 ∉ inits) d).*2.
Proof.
  induction 1 as [|[k v] d Hkv _ IH]; [reflexivity|]. simpl in Hkv.
  cbn [List.map snd]. rewrite !filter_cons. cbn [fst snd].
  destruct (decide (is_Var v = true)) as [Hv|Hv];
    destruct (decide (k ∉ inits)) as [Hk|Hk]; [|tauto|tauto|exact IH].
  rewrite fmap_cons, IH. reflexivity.
Qed.

Lemma filter_keys {V : Type} (P : string -> Prop) `{forall k, Decision (P k)}
    (d : list (string * V)) :
  (filter (fun kv => P kv.1) d).*1 = filter P d.*1.
Proof.
  induction d as [|[k v] d IH]; [reflexivity|].
  rewrite fmap_cons, !filter_cons. cbn [fst].
  destruct (decide (P k)); [rewrite fmap_cons, IH | rewrite IH]; reflexivity.
Qed.

(** C4. Lowering starts from an importer that has bound nothing. After the
    initializers and the declared inputs are parsed, the name of every
    initializer is bound to the constant the initializers gave it, whether
    it is declared as an input or not; [_inputs] lists the declared names in
    the order they are first seen, with the values [_nodes] holds for them;
    the parameters are the values of the declared names that are not
    initializers, in that order, all of them variables; and they are the
    parameters of the function [from_onnx] returns. *)
Theorem initializer_inputs_not_parameters (E : External) (self : ONNXGraphImporter)
    (graph : GraphProto) (opset : Z) (self1 self2 : ONNXGraphImporter) :
  _nodes self = ∅ ->
  _inputs self = [] ->
  _parse_graph_initializers E (set_opset self opset) graph = Ok self1 ->
  _parse_graph_input E self1 graph = Ok self2 ->
  (forall name, name ∈ initializer_names graph ->
     exists c, _nodes self1 !! name = Some (Constant c)
               /\ _nodes self2 !! name = Some (Constant c))
  /\ (_inputs self2).*1 = first_seen (input_names graph)
  /\ Forall (fun kv => _nodes self2 !! kv.1 = Some kv.2) (_inputs self2)
  /\ param_list self2
     = (filter (fun kv => kv.1 ∉ initializer_names graph) (_inputs self2)).*2
  /\ (filter (fun kv => kv.1 ∉ initializer_names graph) (_inputs self2)).*1
     = filter (fun name => name ∉ initializer_names graph) (first_seen (input_names graph))
  /\ Forall (fun v => is_Var v = true) (param_list self2)
  /\ (forall f, ONNXGraphImporter_from_onnx E self graph opset = Ok f ->
                fn_params f = param_list self2).
Proof.
  intros Hnodes Hinputs Hinit Hinput.
  destruct (parse_graph_initializers_spec _ _ _ _ Hinit) as (Hinputs1 & Hin & Hout).
  destruct (parse_graph_input_spec _ _ _ _ Hinput) as (Hkeys & Hmono & Hnew & Hforall).
  cbn [set_opset _inputs _nodes] in Hinputs1, Hout.
  rewrite Hinputs in Hinputs1. rewrite Hinputs1 in Hkeys, Hforall.
  specialize (Hforall (Forall_nil_2 _)).
  change (foldl see [].*1 (vi_name <$> g_input graph))
    with (first_seen (input_names graph)) in Hkeys.
  assert (Hclass : Forall (fun kv => is_Var kv.2 = true <-> kv.1 ∉ initializer_names graph)
                          (_inputs self2)).
  { eapply Forall_impl; [exact Hforall|]. intros [k v] Hk. cbn [fst snd] in *.
    destruct (decide (k ∈ initializer_names graph)) as [Hmem|Hmem].
    - destruct (Hin _ Hmem) as [c Hc]. rewrite (Hmono _ _ Hc) in Hk.
      injection Hk as <-. split; [discriminate | contradiction].
    - split; [auto|]. intros _.
      destruct (Hnew _ _ Hk) as [Hk1|[_ Hvar]]; [|exact Hvar].
      rewrite (Hout _ Hmem), Hnodes, lookup_empty in Hk1. discriminate. }
  assert (Hparams : param_list self2
                    = (filter (fun kv => kv.1 ∉ initializer_names graph) (_inputs self2)).*2).
  { apply filter_is_Var, Hclass. }
  split; [|split; [|split; [|split; [|split; [|split]]]]].
  - intros name Hname. destruct (Hin _ Hname) as [c Hc]. eauto.
  - exact Hkeys.
  - exact Hforall.
  - exact Hparams.
  - rewrite <- Hkeys.
    exact (filter_keys (fun name => name ∉ initializer_names graph) (_inputs self2)).
  - rewrite Hparams. apply Forall_fmap, Forall_forall. intros [k v] Hkv.
    apply list_elem_of_filter in Hkv as [Hk Hkv]. cbn [fst snd] in *.
    rewrite Forall_forall in Hclass. apply (Hclass _ Hkv), Hk.
  - intros f. unfold ONNXGraphImporter_from_onnx. cbv zeta.
    rewrite Hinit, bind_Ok_l, Hinput, bind_Ok_l.
    destruct (_check_for_unsupported_ops graph); [rewrite bind_Ok_l | discriminate].
    destruct (_construct_nodes E self2 graph) as [self3|e] eqn:Hconstruct; [|discriminate].
    rewrite bind_Ok_l.
    destruct (map_result _ (g_output graph)); [rewrite bind_Ok_l | discriminate].
    intros [= <-]. cbn [fn_params]. unfold param_list.
    rewrite (construct_nodes_inputs _ _ _ _ Hconstruct). reflexivity.
Qed.

Lemma initializer_inputs_not_parameters_witness :
  exists self1 self2 : ONNXGraphImporter,
    _parse_graph_initializers host
      (set_opset (ONNXGraphImporter_init None (DtypeStr "float32") true) 13)
      add_graph_inputs = Ok self1
    /\ _parse_graph_input host self1 add_graph_inputs = Ok self2
    /\ (_inputs self2).*1 = ["x"; "a"; "y"; "b"]
    /\ (filter (fun kv => kv.1 ∉ initializer_names add_graph_inputs) (_inputs self2)).*1
       = ["x"; "y"]
    /\ Forall (fun v => is_Var v = true) (param_list self2).
Proof.
  eexists. eexists.
  split; [vm_compute; reflexivity|].
  split; [vm_compute; reflexivity|].
  edestruct (initializer_inputs_not_parameters host
               (ONNXGraphImporter_init None (DtypeStr "float32") true)
               add_graph_inputs 13)
    as (_ & Hkeys & _ & _ & Hnames & Hvars & _).
  - reflexivity.
  - reflexivity.
  - vm_compute. reflexivity.
  - vm_compute. reflexivity.
  - split; [exact Hkeys|]. split; [exact Hnames | exact Hvars].
Defined.

(** * Further properties of the importer *)

(** ** Version selection, for every class and opset *)

(** X1. When the class has a version that does not exceed the opset,
    [get_converter] returns the largest such version; a version of the
    class asked for by its own number is returned as it is. *)
Theorem get_converter_selects_largest (cls : OnnxOpConverter) (opset : Z) :
  (exists r, r ∈ impl_versions cls /\ r <= opset) ->
  exists version,
    get_converter cls opset = Ok version
    /\ version ∈ impl_versions cls
    /\ version <= opset
    /\ (forall r, r ∈ impl_versions cls -> r <= opset -> r <= version)
    /\ (opset ∈ impl_versions cls -> version = opset).
Proof.
  intros Hex.
  destruct (get_converter_largest_below cls opset Hex) as (v & Hget & Hin & Hle & Hmax).
  exists v. repeat split; try assumption.
  intros Hopset. specialize (Hmax opset Hopset). lia.
Qed.

Lemma get_converter_selects_largest_witness :
  exists version,
    get_converter ArgMax 11 = Ok version /\ version = 11.
Proof.
  destruct (get_converter_selects_largest ArgMax 11) as (v & Hget & _ & _ & _ & Hexact).
  - exists 1. split; [apply list_elem_of_here | lia].
  - exists v. split; [exact Hget|]. apply Hexact.
    apply list_elem_of_further, list_elem_of_here.
Defined.

(** X2. Below every version of a class that has one, [get_converter]
    raises nothing and returns the largest version of the class, which is
    above the opset asked for. *)
Theorem get_converter_wraps_around (cls : OnnxOpConverter) (opset : Z) :
  impl_versions cls <> [] ->
  (forall r, r ∈ impl_versions cls -> opset < r) ->
  exists version,
    get_converter cls opset = Ok version
    /\ version ∈ impl_versions cls
    /\ opset < version
    /\ (forall r, r ∈ impl_versions cls -> r <= version).
Proof. apply get_converter_below_all. Qed.

Lemma get_converter_wraps_around_witness :
  exists version, get_converter Unsqueeze 10 = Ok version /\ 10 < version.
Proof.
  destruct (get_converter_wraps_around Unsqueeze 10) as (v & Hget & _ & Hlt & _).
  - discriminate.
  - intros r Hr. simpl in Hr.
    repeat (apply elem_of_cons in Hr as [->|Hr]; [lia|]). inversion Hr.
  - exists v. split; assumption.
Defined.

(** X3. [get_converter] raises for no opset when the class has a version:
    it always returns one of the versions of the class. It raises
    [NotImplementedError] only for a class without any version, naming the
    opset asked for. *)
Theorem get_converter_raises_only_without_versions (cls : OnnxOpConverter) (opset : Z) :
  (impl_versions cls <> [] ->
     exists version, get_converter cls opset = Ok version /\ version ∈ impl_versions cls)
  /\ (impl_versions cls = [] ->
      get_converter cls opset = Raise (NotImplementedError_opset opset (cls_name cls))).
Proof.
  split.
  - intros Hne.
    destruct (decide (Exists (fun r => r <= opset) (impl_versions cls))) as [Hex|Hnex].
    + apply Exists_exists in Hex.
      destruct (get_converter_largest_below cls opset Hex) as (v & Hget & Hin & _).
      eauto.
    + destruct (get_converter_below_all cls opset Hne) as (v & Hget & Hin & _).
      * intros r Hr. destruct (decide (r <= opset)) as [Hle|Hgt]; [|lia].
        exfalso. apply Hnex, Exists_exists. eauto.
      * eauto.
  - intros Hnil. destruct cls as [name versions]. simpl in *. subst.
    apply get_converter_no_version.
Qed.

(** ** Reads of [onnx_input] before the start and up to a given stop *)

(** X4. A negative integer index reads from the end, as on a built-in
    list: down to minus the length it yields the element at that distance
    from the end, and below that it raises [IndexError]. *)
Theorem onnx_input_getitem_negative {A : Type} (self : onnx_input A) (item : Z) :
  item < 0 ->
  (- len self <= item ->
     exists x, self !! Z.to_nat (len self + item) = Some x
               /\ onnx_input_getitem self (SubInt item) = Ok (Item x))
  /\ (item < - len self -> onnx_input_getitem self (SubInt item) = Raise IndexError).
Proof.
  intros Hneg.
  assert (Hlt : (item <? len self) = true) by (apply Z.ltb_lt; unfold len; lia).
  assert (Hn : (item <? 0) = true) by (apply Z.ltb_lt; lia).
  split.
  - intros Hge.
    destruct (lookup_lt_is_Some_2 self (Z.to_nat (len self + item))) as [x Hx];
      [unfold len in *; lia|].
    exists x. split; [exact Hx|].
    cbn [onnx_input_getitem]. unfold onnx_input_getitem_int, py_list_index.
    rewrite Hlt. cbv zeta. rewrite Hn.
    replace (item + len self <? 0) with false by (symmetry; apply Z.ltb_ge; lia).
    replace (item + len self) with (len self + item) by lia.
    rewrite Hx. reflexivity.
  - intros Hbelow.
    cbn [onnx_input_getitem]. unfold onnx_input_getitem_int, py_list_index.
    rewrite Hlt. cbv zeta. rewrite Hn.
    replace (item + len self <? 0) with true by (symmetry; apply Z.ltb_lt; lia).
    reflexivity.
Qed.

Lemma onnx_input_getitem_negative_witness :
  onnx_input_getitem [Some 10%nat; None; Some 30%nat] (SubInt (-4)) = Raise IndexError.
Proof.
  apply (onnx_input_getitem_negative [Some 10%nat; None; Some 30%nat] (-4)).
  - lia.
  - unfold len. simpl. lia.
Defined.

(** X5. A slice [inputs[a:b]] with [0 <= a <= b] has exactly [b - a]
    entries, whatever the length of the list: the entry for position [i] is
    the element at [i] when the list has one and [None] when it has not. *)
Theorem onnx_input_getitem_slice_padded {A : Type} (self : onnx_input A) (a b : nat) :
  (a <= b)%nat ->
  onnx_input_getitem self (SubSlice (Slice (Some (Z.of_nat a)) (Some (Z.of_nat b)) None))
  = Ok (Items ((fun i => default None (self !! i)) <$> seq a (b - a))).
Proof.
  unfold onnx_input in *. intros Hab. cbn [onnx_input_getitem stop].
  unfold range_getitem_slice, slice_indices. cbn [step start stop default].
  change (1 =? 0) with false. change (1 <? 0) with false. cbv iota zeta.
  replace (Z.of_nat a <? 0) with false by (symmetry; apply Z.ltb_ge; lia).
  replace (Z.of_nat b <? 0) with false by (symmetry; apply Z.ltb_ge; lia).
  rewrite (Z.max_r 0 (Z.of_nat b)) by lia.
  rewrite (Z.min_l (Z.of_nat a)) by lia. rewrite Z.min_id.
  rewrite bind_Ok_l. rewrite py_range_step_1 by lia.
  rewrite Nat2Z.id. replace (Z.to_nat (Z.of_nat b - Z.of_nat a)) with (b - a)%nat by lia.
  rewrite bind_Ok_l.
  rewrite (map_result_total _ (fun i => default None (self !! Z.to_nat i))).
  - rewrite bind_Ok_l. rewrite List.map_map. do 2 f_equal.
    apply List.map_ext. intros i. rewrite Nat2Z.id. reflexivity.
  - apply Forall_forall. intros i Hi.
    apply list_elem_of_In, in_map_iff in Hi as (k & <- & _).
    cbv beta. rewrite Nat2Z.id. unfold onnx_input_getitem_int.
    destruct (Z.ltb_spec (Z.of_nat k) (len self)) as [Hlt|Hge].
    + destruct (lookup_lt_is_Some_2 self k) as [x Hx]; [unfold len in Hlt; lia|].
      rewrite Hx. apply py_list_index_inside, Hx.
    + rewrite lookup_ge_None_2 by (unfold len in Hge; lia). reflexivity.
Qed.

Lemma onnx_input_getitem_slice_padded_witness :
  onnx_input_getitem [Some 10%nat; Some 20%nat] (SubSlice (Slice (Some 1) (Some 4) None))
  = Ok (Items [Some 20%nat; None; None]).
Proof.
  apply (onnx_input_getitem_slice_padded [Some 10%nat; Some 20%nat] 1 4). lia.
Defined.

(** ** The decoding of attributes *)

Lemma for_each_app {S X : Type} (body : S -> X -> result S) (xs ys : list X) (st : S) :
  for_each body (xs ++ ys) st = (st' ← for_each body xs st; for_each body ys st').
Proof.
  revert st. induction xs as [|x xs IH]; intros st; cbn [for_each app].
  - reflexivity.
  - destruct (body st x) as [st1|e]; [|reflexivity].
    rewrite !bind_Ok_l. apply IH.
Qed.

Lemma parse_attr_app_cons (l rest : list AttributeProto) (a : AttributeProto)
    (attrs : gmap string AttrValue) :
  _parse_attr l = Ok attrs ->
  _parse_attr (l ++ a :: rest)
  = (attrs' ← parse_one_attr attrs a; for_each parse_one_attr rest attrs').
Proof.
  unfold _parse_attr. intros H. rewrite for_each_app, H, bind_Ok_l. reflexivity.
Qed.

Ltac attr_lookups :=
  repeat match goal with
         | |- context [match <[?k := ?v]> ?m !! ?k with _ => _ end] =>
             rewrite (lookup_insert_eq m k v)
         | H : ?m !! ?k = _ |- context [match ?m !! ?k with _ => _ end] => rewrite H
         | |- context [match ?m !! ?k with _ => _ end] => destruct (m !! k) eqn:?
         | _ => progress cbn
         end.

(** What one attribute does to the dictionary: only its own name changes,
    and its name is a key afterwards. *)
Lemma parse_one_attr_frame (attrs attrs' : gmap string AttrValue) (a : AttributeProto) :
  parse_one_attr attrs a = Ok attrs' ->
  (forall k, k <> a_name a -> attrs' !! k = attrs !! k)
  /\ is_Some (attrs' !! a_name a).
Proof.
  destruct a as [name f i s g floats ints strings t tensors graphs].
  unfold parse_one_attr. cbn [a_name a_f a_i a_s a_g a_floats a_ints a_strings a_t
                              a_tensors a_graphs].
  destruct f, i, s, g, floats, ints, strings, t, tensors, graphs; attr_lookups;
    try discriminate;
    (intros [= <-]; split;
     [intros k Hk; rewrite ?lookup_insert_ne by congruence; reflexivity
     | rewrite ?lookup_insert_eq; eauto]).
Qed.

Lemma parse_attr_dom (l : list AttributeProto) (attrs0 attrs : gmap string AttrValue) :
  for_each parse_one_attr l attrs0 = Ok attrs ->
  forall k, is_Some (attrs !! k) <-> k ∈ a_name <$> l \/ is_Some (attrs0 !! k).
Proof.
  revert attrs0. induction l as [|a l IH]; intros attrs0; cbn [for_each].
  - intros [= <-] k. rewrite fmap_nil, elem_of_nil. tauto.
  - destruct (parse_one_attr attrs0 a) as [attrs1|e] eqn:Hone; [|discriminate].
    rewrite bind_Ok_l. intros Hrest k.
    destruct (parse_one_attr_frame _ _ _ Hone) as [Hframe Hname].
    rewrite (IH _ Hrest), fmap_cons, elem_of_cons.
    destruct (decide (k = a_name a)) as [->|Hne].
    + tauto.
    + rewrite (Hframe _ Hne). tauto.
Qed.

(** X6. When [_parse_attr] returns, the keys of the dictionary are exactly
    the names of the attributes: every attribute of the node has an entry
    and nothing else has. *)
Theorem parse_attr_keys (l : list AttributeProto) (attrs : gmap string AttrValue) :
  _parse_attr l = Ok attrs ->
  forall k, is_Some (attrs !! k) <-> k ∈ a_name <$> l.
Proof.
  intros H k. rewrite (parse_attr_dom _ _ _ H k), lookup_empty.
  split; [intros [Hk|[x Hx]]; [exact Hk | discriminate] | auto].
Qed.

Lemma parse_attr_keys_witness :
  is_Some (({[ "axis" := AttrInt 1 ]} : gmap string AttrValue) !! "perm")
  <-> "perm" ∈ a_name <$> [mkAttributeProto "axis" None (Some 1) None None [] [] [] None [] []].
Proof.
  apply (parse_attr_keys [mkAttributeProto "axis" None (Some 1) None None [] [] [] None [] []]).
  reflexivity.
Defined.

Lemma parse_one_attr_single (attrs : gmap string AttrValue) (a : AttributeProto)
    (v : AttrValue) :
  kinds a = [v] -> a_graphs a = [] -> attrs !! a_name a = None ->
  parse_one_attr attrs a = Ok (<[a_name a := v]> attrs).
Proof.
  destruct a as [name f i s g floats ints strings t tensors graphs].
  unfold parse_one_attr, kinds.
  cbn [a_name a_f a_i a_s a_g a_floats a_ints a_strings a_t a_tensors a_graphs].
  intros Hk -> Hnone.
  destruct f, i, s, g, floats, ints, strings, t, tensors; cbn in Hk;
    try discriminate Hk; injection Hk as <-; attr_lookups; reflexivity.
Qed.

Lemma parse_attr_single_gen (l : list AttributeProto) (attrs0 : gmap string AttrValue) :
  NoDup (a_name <$> l) ->
  Forall (fun a => length (kinds a) = 1%nat /\ a_graphs a = []) l ->
  (forall a, a ∈ l -> attrs0 !! a_name a = None) ->
  exists attrs,
    for_each parse_one_attr l attrs0 = Ok attrs
    /\ (forall a v, a ∈ l -> kinds a = [v] -> attrs !! a_name a = Some v)
    /\ (forall k, k ∉ a_name <$> l -> attrs !! k = attrs0 !! k).
Proof.
  revert attrs0. induction l as [|a l IH]; intros attrs0 Hdup Hall Hnone; cbn [for_each].
  - exists attrs0. split; [reflexivity|]. split; [|reflexivity].
    intros a v Ha. inversion Ha.
  - rewrite fmap_cons in Hdup. apply NoDup_cons in Hdup as [Hnotin Hdup].
    apply Forall_cons in Hall as [[Hlen Hgraphs] Hall].
    destruct (kinds a) as [|v [|]] eqn:Hk; try discriminate Hlen.
    rewrite (parse_one_attr_single attrs0 a v Hk Hgraphs) by (apply Hnone, list_elem_of_here).
    rewrite bind_Ok_l.
    destruct (IH (<[a_name a := v]> attrs0) Hdup Hall) as (attrs & Hrest & Hvals & Hframe).
    { intros b Hb. rewrite lookup_insert_ne.
      - apply Hnone, list_elem_of_further, Hb.
      - intros Heq. apply Hnotin. rewrite Heq. apply list_elem_of_fmap_2, Hb. }
    exists attrs. split; [exact Hrest|]. split.
    + intros b w Hb Hkb. apply elem_of_cons in Hb as [->|Hb]; [|eauto].
      rewrite Hk in Hkb. injection Hkb as <-.
      rewrite (Hframe _ Hnotin). apply lookup_insert_eq.
    + intros k Hk'. rewrite fmap_cons in Hk'. apply not_elem_of_cons in Hk' as [Hne Hk'].
      rewrite (Hframe _ Hk'). apply lookup_insert_ne. congruence.
Qed.

(** X7. Attributes with distinct names, each with exactly one field
    populated and no sub-graph list, always parse, and every name is mapped
    to the value of the one populated field of its attribute. *)
Theorem parse_attr_single_kinds (l : list AttributeProto) :
  NoDup (a_name <$> l) ->
  Forall (fun a => length (kinds a) = 1%nat /\ a_graphs a = []) l ->
  exists attrs,
    _parse_attr l = Ok attrs
    /\ forall a v, a ∈ l -> kinds a = [v] -> attrs !! a_name a = Some v.
Proof.
  intros Hdup Hall.
  destruct (parse_attr_single_gen l ∅ Hdup Hall) as (attrs & Hparse & Hvals & _).
  - intros a _. apply lookup_empty.
  - exists attrs. split; assumption.
Qed.

Lemma parse_attr_single_kinds_witness :
  exists attrs,
    _parse_attr [mkAttributeProto "axis" None (Some 1) None None [] [] [] None [] [];
                 mkAttributeProto "pads" None None None None [] [0; 1] [] None [] []]
    = Ok attrs
    /\ attrs !! "pads" = Some (AttrInts [0; 1]).
Proof.
  destruct (parse_attr_single_kinds
              [mkAttributeProto "axis" None (Some 1) None None [] [] [] None [] [];
               mkAttributeProto "pads" None None None None [] [0; 1] [] None [] []])
    as (attrs & Hparse & Hvals).
  - cbn. apply NoDup_cons. split; [|apply NoDup_singleton].
    intros H. apply list_elem_of_singleton in H. discriminate.
  - repeat constructor.
  - exists attrs. split; [exact Hparse|].
    apply (Hvals (mkAttributeProto "pads" None None None None [] [0; 1] [] None [] [])).
    + apply list_elem_of_further, list_elem_of_here.
    + reflexivity.
Defined.

(** X8. An attribute with no field populated, after attributes that
    parse: [_parse_attr] raises [ValueError] naming it, unless an earlier
    attribute has the same name; then it is passed over and changes
    nothing. *)
Theorem parse_attr_unpopulated (l rest : list AttributeProto) (a : AttributeProto)
    (attrs : gmap string AttrValue) :
  kinds a = [] -> a_graphs a = [] ->
  _parse_attr l = Ok attrs ->
  _parse_attr (l ++ a :: rest)
  = if decide (a_name a ∈ a_name <$> l)
    then for_each parse_one_attr rest attrs
    else Raise (ValueError_parse_attribute (a_name a)).
Proof.
  intros Hk Hg Hl. rewrite (parse_attr_app_cons _ _ _ _ Hl).
  pose proof (parse_attr_keys _ _ Hl (a_name a)) as Hkeys.
  assert (Hone : parse_one_attr attrs a
                 = match attrs !! a_name a with
                   | None => Raise (ValueError_parse_attribute (a_name a))
                   | Some _ => Ok attrs
                   end).
  { clear Hkeys Hl. destruct a as [name f i s g floats ints strings t tensors graphs].
    unfold parse_one_attr, kinds in *.
    cbn [a_name a_f a_i a_s a_g a_floats a_ints a_strings a_t a_tensors a_graphs] in *.
    subst graphs.
    destruct f, i, s, g, floats, ints, strings, t, tensors; cbn in Hk;
      try discriminate Hk. reflexivity. }
  rewrite Hone. destruct (decide (a_name a ∈ a_name <$> l)) as [Hin|Hnin].
  - apply Hkeys in Hin as [v ->]. reflexivity.
  - destruct (attrs !! a_name a) as [v|] eqn:Hv; [|reflexivity].
    exfalso. apply Hnin, Hkeys. eauto.
Qed.

Lemma parse_attr_unpopulated_witness :
  _parse_attr ([mkAttributeProto "axis" None (Some 1) None None [] [] [] None [] []]
               ++ mkAttributeProto "perm" None None None None [] [] [] None [] [] :: [])
  = Raise (ValueError_parse_attribute "perm").
Proof.
  apply (parse_attr_unpopulated
           [mkAttributeProto "axis" None (Some 1) None None [] [] [] None [] []] []
           (mkAttributeProto "perm" None None None None [] [] [] None [] [])
           {[ "axis" := AttrInt 1 ]}); reflexivity.
Defined.

(** X9. An attribute with one of [f], [i], [s], [g] populated and one of
    [floats], [ints], [strings] populated fails the assertion that only one
    type of attribute is allowed. *)
Theorem parse_attr_scalar_and_list (l rest : list AttributeProto) (a : AttributeProto)
    (attrs : gmap string AttrValue) :
  has_scalar a -> has_list a ->
  _parse_attr l = Ok attrs ->
  _parse_attr (l ++ a :: rest) = Raise AssertionError_attr_type.
Proof.
  intros Hs Hlist Hl. rewrite (parse_attr_app_cons _ _ _ _ Hl).
  enough (Hone : parse_one_attr attrs a = Raise AssertionError_attr_type)
    by (rewrite Hone; reflexivity).
  clear Hl. destruct a as [name f i s g floats ints strings t tensors graphs].
  unfold parse_one_attr, has_scalar, has_list in *.
  cbn [a_name a_f a_i a_s a_g a_floats a_ints a_strings a_t a_tensors a_graphs] in *.
  destruct f, i, s, g;
    try (exfalso; destruct Hs as [[? [=]]|[[? [=]]|[[? [=]]|[? [=]]]]]; fail);
    destruct floats, ints, strings;
    try (exfalso; destruct Hlist as [?|[?|?]]; congruence);
    attr_lookups; reflexivity.
Qed.

Lemma parse_attr_scalar_and_list_witness :
  _parse_attr ([] ++ mkAttributeProto "axes" None (Some 1) None None [] [0; 1] [] None [] []
                  :: [])
  = Raise AssertionError_attr_type.
Proof.
  apply (parse_attr_scalar_and_list [] []
           (mkAttributeProto "axes" None (Some 1) None None [] [0; 1] [] None [] []) ∅).
  - right. left. eauto.
  - right. left. discriminate.
  - reflexivity.
Defined.

(** X10. Several of the fields [f], [i], [s], [g], [t] populated and no
    list field: nothing is raised, and the attribute has the value of the
    field that comes last in that order, also over an entry an earlier
    attribute of the same name has made. *)
Theorem parse_attr_last_scalar_wins (l rest : list AttributeProto) (a : AttributeProto)
    (attrs : gmap string AttrValue) (v : AttrValue) :
  a_floats a = [] -> a_ints a = [] -> a_strings a = [] -> a_tensors a = [] ->
  a_graphs a = [] ->
  last (kinds a) = Some v ->
  _parse_attr l = Ok attrs ->
  _parse_attr (l ++ a :: rest) = for_each parse_one_attr rest (<[a_name a := v]> attrs).
Proof.
  intros Hf Hi Hs Ht Hg Hlast Hl. rewrite (parse_attr_app_cons _ _ _ _ Hl).
  enough (Hone : parse_one_attr attrs a = Ok (<[a_name a := v]> attrs))
    by (rewrite Hone; reflexivity).
  clear Hl. destruct a as [name f i s g floats ints strings t tensors graphs].
  unfold parse_one_attr, kinds in *.
  cbn [a_name a_f a_i a_s a_g a_floats a_ints a_strings a_t a_tensors a_graphs] in *.
  subst floats ints strings tensors graphs.
  destruct f, i, s, g, t; cbn in Hlast; try discriminate Hlast;
    injection Hlast as <-; cbn; rewrite ?lookup_insert_eq, ?insert_insert_eq; reflexivity.
Qed.

Lemma parse_attr_last_scalar_wins_witness :
  _parse_attr ([] ++ mkAttributeProto "alpha" (Some 7) (Some 1) None None [] [] [] None [] []
                  :: [])
  = Ok {[ "alpha" := AttrInt 1 ]}.
Proof.
  apply (parse_attr_last_scalar_wins [] []
           (mkAttributeProto "alpha" (Some 7) (Some 1) None None [] [] [] None [] []) ∅
           (AttrInt 1)); reflexivity.
Defined.

(** X11. An attribute with a populated list of sub-graphs is never
    accepted: [_parse_attr] raises, with [NotImplementedError] when no list
    field of the attribute collides with an entry made before. A single
    sub-graph in the field [g] is accepted like any other value. *)
Theorem parse_attr_graphs (l rest : list AttributeProto) (a : AttributeProto)
    (attrs : gmap string AttrValue) :
  a_graphs a <> [] ->
  _parse_attr l = Ok attrs ->
  is_Raise (_parse_attr (l ++ a :: rest))
  /\ (a_floats a = [] -> a_ints a = [] -> a_strings a = [] -> a_tensors a = [] ->
      _parse_attr (l ++ a :: rest) = Raise NotImplementedError_graphs).
Proof.
  intros Hg Hl. rewrite (parse_attr_app_cons _ _ _ _ Hl).
  enough (Hone : is_Raise (parse_one_attr attrs a)
                 /\ (a_floats a = [] -> a_ints a = [] -> a_strings a = [] ->
                     a_tensors a = [] ->
                     parse_one_attr attrs a = Raise NotImplementedError_graphs)).
  { destruct Hone as [[e He] Hnot]. split.
    - exists e. rewrite He. reflexivity.
    - intros H1 H2 H3 H4. rewrite (Hnot H1 H2 H3 H4). reflexivity. }
  clear Hl. destruct a as [name f i s g floats ints strings t tensors graphs].
  unfold parse_one_attr.
  cbn [a_name a_f a_i a_s a_g a_floats a_ints a_strings a_t a_tensors a_graphs] in *.
  destruct graphs as [|gr graphs]; [contradiction|]. split.
  - destruct f, i, s, g, floats, ints, strings, t, tensors; attr_lookups;
      eexists; reflexivity.
  - intros -> -> -> ->. destruct f, i, s, g, t; reflexivity.
Qed.

Lemma parse_attr_graphs_witness :
  _parse_attr ([] ++ mkAttributeProto "body" None None None None [] [] [] None [] [()] :: [])
  = Raise NotImplementedError_graphs
  /\ _parse_attr [mkAttributeProto "body" None None None (Some ()) [] [] [] None [] []]
     = Ok {[ "body" := AttrGraph ]}.
Proof.
  split; [|reflexivity].
  apply (parse_attr_graphs [] []
           (mkAttributeProto "body" None None None None [] [] [] None [] [()]) ∅);
    (reflexivity || discriminate).
Defined.

(** ** The opset of the model *)

(** X12. The opset of a model is the version of the first opset import
    whose domain is [ai.onnx] or empty, whatever comes after it, and 1 when
    no import has such a domain. *)
Theorem opset_in_model_first_default (model : ModelProto) :
  (Forall (fun o => os_domain o ∉ ["ai.onnx"; ""]) (m_opset_import model) ->
   opset_in_model model = 1)
  /\ (forall l1 o l2,
        m_opset_import model = l1 ++ o :: l2 ->
        Forall (fun o => os_domain o ∉ ["ai.onnx"; ""]) l1 ->
        os_domain o ∈ ["ai.onnx"; ""] ->
        opset_in_model model = os_version o).
Proof.
  assert (Hnone : forall l : list OperatorSetIdProto,
             Forall (fun o => os_domain o ∉ ["ai.onnx"; ""]) l ->
             filter (fun o => os_domain o ∈ ["ai.onnx"; ""]) l = []).
  { induction 1 as [|o l Ho _ IH]; [reflexivity|].
    rewrite filter_cons_False by exact Ho. exact IH. }
  unfold opset_in_model. split.
  - intros Hall. rewrite (Hnone _ Hall). reflexivity.
  - intros l1 o l2 -> Hl1 Ho.
    rewrite filter_app, (Hnone _ Hl1), filter_cons_True by exact Ho. reflexivity.
Qed.

(** ** After the check for unsupported operators *)

Lemma convert_map_versions (op : string) (cls : OnnxOpConverter) :
  _get_convert_map !! op = Some cls -> impl_versions cls <> [].
Proof.
  assert (Hall : map_Forall (fun _ cls => impl_versions cls <> []) _get_convert_map).
  { refine (bool_decide_unpack _ _). vm_compute. exact I. }
  apply Hall.
Qed.

(** X13. When the check for unsupported operators has passed, the choice
    of the converter fails for no node and no opset: the operator of every
    node has a class in the converter map, [get_converter] returns one of
    its versions, and [_convert_operator] is the call of that method. *)
Theorem convert_operator_after_check (E : External) (graph : GraphProto) (node : NodeProto)
    (node_index : nat) (inputs : onnx_input Expr) (attrs : gmap string AttrValue)
    (opset : Z) :
  _check_for_unsupported_ops graph = Ok () ->
  node ∈ g_node graph ->
  exists cls version,
    _get_convert_map !! n_op_type node = Some cls
    /\ get_converter cls opset = Ok version
    /\ version ∈ impl_versions cls
    /\ _convert_operator E (n_op_type node) node_index inputs attrs opset
       = get_impl E cls version inputs attrs.
Proof.
  intros Hcheck Hnode.
  destruct (_get_convert_map !! n_op_type node) as [cls|] eqn:Hmap.
  - destruct (get_converter_raises_only_without_versions cls opset) as [Hsome _].
    destruct (Hsome (convert_map_versions _ _ Hmap)) as (version & Hget & Hin).
    exists cls, version. split; [reflexivity|]. split; [exact Hget|]. split; [exact Hin|].
    unfold _convert_operator. rewrite Hmap, Hget. reflexivity.
  - exfalso. revert Hcheck. unfold _check_for_unsupported_ops. cbv zeta.
    rewrite bool_decide_eq_false_2; [discriminate|].
    intros Hempty.
    assert (Hmem : n_op_type node ∈ unsupported_ops_of (g_node graph))
      by (apply elem_of_unsupported_ops_of; eauto).
    rewrite Hempty in Hmem. set_solver.
Qed.

Lemma convert_operator_after_check_witness :
  exists cls version,
    _get_convert_map !! "Add" = Some cls
    /\ get_converter cls 7 = Ok version
    /\ version ∈ impl_versions cls
    /\ _convert_operator host "Add" O [] ∅ 7 = get_impl host cls version [] ∅.
Proof.
  apply (convert_operator_after_check host add_graph (node "Add" "add0" ["a"; "b"] ["c"])).
  - vm_compute. reflexivity.
  - apply list_elem_of_here.
Defined.

(** ** The operands of a node *)

(** X14. When every input name of a node is empty or bound, the operands
    are resolved: there is one operand per input name, at its position,
    [None] for an empty name and the bound value for any other. *)
Theorem resolve_inputs_positions (nodes : gmap string Expr) (names : list string) :
  Forall (fun name => name = "" \/ is_Some (nodes !! name)) names ->
  resolve_inputs nodes names
  = Ok ((fun name => if decide (name = "") then None else nodes !! name) <$> names).
Proof.
  unfold resolve_inputs. induction 1 as [|name names Hname _ IH]; [reflexivity|].
  cbn [map_result]. rewrite IH, fmap_cons.
  destruct (decide (name = "")) as [->|Hne]; [reflexivity|].
  destruct Hname as [?|[e He]]; [contradiction|].
  unfold nodes_getitem. rewrite He. reflexivity.
Qed.

Lemma resolve_inputs_positions_witness :
  resolve_inputs {[ "x" := int64_constant [1] ]} ["x"; ""; "x"]
  = Ok [Some (int64_constant [1]); None; Some (int64_constant [1])].
Proof.
  rewrite (resolve_inputs_positions {[ "x" := int64_constant [1] ]} ["x"; ""; "x"]).
  - vm_compute. reflexivity.
  - repeat (apply List.Forall_cons;
            [first [left; reflexivity | right; eexists; reflexivity]|]).
    apply List.Forall_nil.
Defined.

(** X15. A node that refers to a name nothing has produced: the
    resolution of its operands raises [KeyError] with the first such name,
    and so does the conversion of the node once its attributes parse. *)
Theorem construct_node_unbound_input (E : External) (self : ONNXGraphImporter)
    (node_index : nat) (node : NodeProto) (l1 l2 : list string) (name : string) :
  n_input node = l1 ++ name :: l2 ->
  Forall (fun name => name = "" \/ is_Some (_nodes self !! name)) l1 ->
  name <> "" ->
  _nodes self !! name = None ->
  resolve_inputs (_nodes self) (n_input node) = Raise (KeyError name)
  /\ (is_Ok (_parse_attr (n_attribute node)) ->
      construct_node E self (node_index, node) = Raise (KeyError name)).
Proof.
  intros Hnames Hl1 Hne Hnone.
  assert (Hres : resolve_inputs (_nodes self) (n_input node) = Raise (KeyError name)).
  { rewrite Hnames. unfold resolve_inputs. clear Hnames.
    induction Hl1 as [|n l1 Hn _ IH]; cbn [map_result app].
    - rewrite decide_False by exact Hne. unfold nodes_getitem. rewrite Hnone. reflexivity.
    - rewrite IH. destruct (decide (n = "")) as [->|Hn']; [reflexivity|].
      destruct Hn as [?|[e He]]; [contradiction|].
      unfold nodes_getitem. rewrite He. reflexivity. }
  split; [exact Hres|].
  intros [attr Hattr]. unfold construct_node. cbv zeta.
  rewrite Hattr, bind_Ok_l, Hres. reflexivity.
Qed.

Lemma construct_node_unbound_input_witness :
  construct_node host
    (set_nodes (ONNXGraphImporter_init None DtypeNone true) {[ "a" := int64_constant [1] ]})
    (O, node "Add" "add0" ["a"; "b"] ["c"])
  = Raise (KeyError "b").
Proof.
  apply (construct_node_unbound_input host _ O (node "Add" "add0" ["a"; "b"] ["c"])
           ["a"] [] "b").
  - reflexivity.
  - apply List.Forall_cons; [right; eexists; reflexivity | apply List.Forall_nil].
  - discriminate.
  - reflexivity.
  - exists ∅. reflexivity.
Defined.

(** ** The initializers *)

Lemma for_each_app_Ok {S X : Type} (body : S -> X -> result S) (xs ys : list X)
    (st st' : S) :
  for_each body (xs ++ ys) st = Ok st' ->
  exists st1, for_each body xs st = Ok st1 /\ for_each body ys st1 = Ok st'.
Proof.
  rewrite for_each_app. destruct (for_each body xs st) as [st1|e]; [|discriminate].
  rewrite bind_Ok_l. eauto.
Qed.

(** X16. When the initializers parse, no initializer has a blank name,
    and every initializer name is bound to the constant of the array of the
    last initializer with that name. *)
Theorem initializers_last_wins (E : External) (self self' : ONNXGraphImporter)
    (graph : GraphProto) :
  _parse_graph_initializers E self graph = Ok self' ->
  Forall (fun t => is_blank (tp_name t) = false) (g_initializer graph)
  /\ (forall l1 t l2,
        g_initializer graph = l1 ++ t :: l2 ->
        tp_name t ∉ tp_name <$> l2 ->
        exists array, _parse_array E t = Ok array
                      /\ _nodes self' !! tp_name t = Some (Constant array)).
Proof.
  unfold _parse_graph_initializers. intros Hparse. split.
  - revert self Hparse. induction (g_initializer graph) as [|t l IH]; intros self;
      cbn [for_each]; [constructor|].
    destruct (is_blank (tp_name t)) eqn:Hblank; [discriminate|].
    destruct (_parse_array E t) as [array|e]; [|discriminate].
    rewrite !bind_Ok_l. intros Hrest. constructor; [exact Hblank | eauto].
  - intros l1 t l2 Heq Hlast. rewrite Heq in Hparse.
    apply for_each_app_Ok in Hparse as (st1 & _ & Hparse).
    cbn [for_each] in Hparse.
    destruct (is_blank (tp_name t)); [discriminate|].
    destruct (_parse_array E t) as [array|e]; [|discriminate].
    rewrite !bind_Ok_l in Hparse.
    destruct (parse_graph_initializers_spec _ _ _ _ Hparse) as (_ & _ & Hout).
    exists array. split; [reflexivity|].
    rewrite (Hout _ Hlast). cbn [set_nodes _nodes]. apply lookup_insert_eq.
Qed.

Lemma initializers_last_wins_witness :
  exists array,
    _parse_array host (int64_tensor "a" [5; 6]) = Ok array
    /\ array = mkNDArray "int64" [2] [5; 6].
Proof.
  destruct (initializers_last_wins host
              (ONNXGraphImporter_init None DtypeNone true)
              (set_nodes (ONNXGraphImporter_init None DtypeNone true)
                         {[ "a" := int64_constant [5; 6] ]})
              (mkGraphProto [int64_tensor "a" [1; 2]; int64_tensor "a" [5; 6]] [] [] []))
    as [_ Hlast].
  - vm_compute. reflexivity.
  - destruct (Hlast [int64_tensor "a" [1; 2]] (int64_tensor "a" [5; 6]) [])
      as (array & Harray & Hnode).
    + reflexivity.
    + rewrite fmap_nil. apply not_elem_of_nil.
    + exists array. split; [exact Harray|].
      vm_compute in Harray. injection Harray as <-. reflexivity.
Defined.

(** ** The bookkeeping of the declared inputs *)

Lemma odict_set_fresh {V : Type} (d : list (string * V)) (k : string) (v : V) :
  k ∉ d.*1 -> odict_set d k v = d ++ [(k, v)].
Proof.
  induction d as [|[k' v'] d IH]; intros Hk; cbn [odict_set app]; [reflexivity|].
  rewrite fmap_cons in Hk. apply not_elem_of_cons in Hk as [Hne Hk]. cbn [fst] in Hne.
  rewrite decide_False by congruence. rewrite IH by exact Hk. reflexivity.
Qed.

Lemma odict_set_same {V : Type} (d : list (string * V)) (k : string) (v : V) :
  k ∈ d.*1 -> Forall (fun kv => kv.1 = k -> kv.2 = v) d -> odict_set d k v = d.
Proof.
  induction d as [|[k' v'] d IH]; intros Hk Hall; cbn [odict_set].
  - inversion Hk.
  - apply Forall_cons in Hall as [Hhead Hall]. cbn [fst snd] in Hhead.
    destruct (decide (k' = k)) as [->|Hne].
    + rewrite (Hhead eq_refl). reflexivity.
    + rewrite fmap_cons in Hk. apply elem_of_cons in Hk as [Hk|Hk];
        [cbn [fst] in Hk; congruence|].
      rewrite IH by assumption. reflexivity.
Qed.

(** One turn of the loop of [_parse_graph_input], field by field. *)
Lemma parse_one_input_step (E : External) (self self' : ONNXGraphImporter)
    (i : ValueInfoProto) :
  parse_one_input E self i = Ok self' ->
  _sanitize self' = _sanitize self
  /\ match _nodes self !! vi_name i with
     | Some v0 =>
         _nodes self' = _nodes self
         /\ _inputs self' = odict_set (_inputs self) (vi_name i) v0
         /\ _input_names self' = _input_names self
         /\ _num_input self' = _num_input self
         /\ _name_supply self' = _name_supply self
         /\ bb self' = bb self
     | None =>
         exists v name,
           is_Var v = true
           /\ _nodes self' = <[vi_name i := v]> (_nodes self)
           /\ _inputs self' = odict_set (_inputs self) (vi_name i) v
           /\ _input_names self' = _input_names self ++ [vi_name i]
           /\ _num_input self' = S (_num_input self)
           /\ (name, _name_supply self')
              = (if _sanitize self then _sanitize_name E (_name_supply self) (vi_name i)
                 else (vi_name i, _name_supply self))
           /\ var_name v = get_unique_name E (bb self) name
           /\ bb self' = bb self ++ [GetUniqueName name]
     end.
Proof.
  unfold parse_one_input.
  destruct (get_info E i) as [[[i_name i_shape] d_type]|e] eqn:Hinfo; [|discriminate].
  apply get_info_name in Hinfo as [-> _].
  rewrite bind_Ok_l. cbv beta iota.
  destruct (_nodes self !! vi_name i) as [v0|] eqn:Hnode.
  - rewrite bind_Ok_l. unfold nodes_getitem. rewrite Hnode, bind_Ok_l.
    intros [= <-]. cbn. repeat split; reflexivity.
  - destruct (if _sanitize self then _sanitize_name E (_name_supply self) (vi_name i)
              else (vi_name i, _name_supply self)) as [var_name' supply] eqn:Hname.
    unfold _new_var. rewrite bind_Ok_l. unfold nodes_getitem. cbn [_nodes].
    rewrite lookup_insert_eq, bind_Ok_l.
    intros [= <-].
    cbn [_sanitize _nodes _inputs _input_names _num_input _name_supply bb].
    split; [reflexivity|].
    exists (Var (get_unique_name E (bb self) var_name')
              (TensorStructInfo
                 (Some match _shape self !! vi_name i with
                       | Some shape => shape
                       | None => i_shape
                       end)
                 match _dtype self with
                 | DtypeDict dtypes =>
                     match dtypes !! vi_name i with
                     | Some t => Some t
                     | None => d_type
                     end
                 | _ => d_type
                 end)), var_name'.
    repeat split; reflexivity.
Qed.

Lemma inputs_invariant_step (E : External) (self self' : ONNXGraphImporter)
    (i : ValueInfoProto) :
  parse_one_input E self i = Ok self' ->
  inputs_invariant self -> inputs_invariant self'.
Proof.
  intros Hstep (Hnames & Hheld & Hvars & Hnum).
  destruct (parse_one_input_step _ _ _ _ Hstep) as [_ Hcase].
  unfold inputs_invariant.
  destruct (_nodes self !! vi_name i) as [v0|] eqn:Hnode.
  - destruct Hcase as (Hn & Hi & Hin & Hnu & _ & _). rewrite Hn, Hin, Hnu.
    destruct (decide (vi_name i ∈ (_inputs self).*1)) as [Hkey|Hkey].
    + rewrite odict_set_same in Hi; [rewrite Hi; auto | exact Hkey |].
      eapply Forall_impl; [exact Hheld|]. intros [k w] Hk Heq. cbn [fst snd] in *.
      subst k. congruence.
    + rewrite odict_set_fresh in Hi by exact Hkey. rewrite Hi.
      assert (Hnot : is_Var v0 <> true) by (intros Hv; exact (Hkey (Hvars _ _ Hnode Hv))).
      split; [|split; [|split]].
      * rewrite filter_app, filter_cons_False, filter_nil, app_nil_r by exact Hnot.
        exact Hnames.
      * apply Forall_app. split; [exact Hheld|]. constructor; [exact Hnode | constructor].
      * intros name v Hv Hvar. rewrite fmap_app. apply elem_of_app. left. eauto.
      * exact Hnum.
  - destruct Hcase as (v & name0 & Hvar & Hn & Hi & Hin & Hnu & _).
    rewrite Hn, Hin, Hnu.
    assert (Hkey : vi_name i ∉ (_inputs self).*1).
    { intros Hkey. apply list_elem_of_fmap in Hkey as ([k w] & Hk & Hkw). cbn [fst] in Hk.
      rewrite Forall_forall in Hheld. specialize (Hheld _ Hkw). cbn [fst snd] in Hheld.
      subst k. congruence. }
    rewrite odict_set_fresh in Hi by exact Hkey. rewrite Hi.
    split; [|split; [|split]].
    + rewrite filter_app, filter_cons_True, filter_nil, fmap_app by exact Hvar.
      rewrite Hnames. reflexivity.
    + apply Forall_app. split.
      * rewrite Forall_forall in Hheld |- *. intros [k w] Hkw. cbn [fst snd].
        rewrite lookup_insert_ne; [apply (Hheld _ Hkw)|].
        intros <-. apply Hkey. apply list_elem_of_fmap. exists (vi_name i, w). auto.
      * constructor; [apply lookup_insert_eq | constructor].
    + intros name w Hw Hwvar. rewrite fmap_app. apply elem_of_app.
      destruct (decide (vi_name i = name)) as [<-|Hne].
      * right. apply list_elem_of_here.
      * left. rewrite lookup_insert_ne in Hw by exact Hne. eauto.
    + rewrite length_app. cbn [length]. lia.
Qed.

Lemma inputs_invariant_loop (E : External) (inputs : list ValueInfoProto)
    (self self' : ONNXGraphImporter) :
  for_each (parse_one_input E) inputs self = Ok self' ->
  inputs_invariant self -> inputs_invariant self'.
Proof.
  revert self. induction inputs as [|i inputs IH]; intros self; cbn [for_each].
  - intros [= <-]. auto.
  - destruct (parse_one_input E self i) as [self1|e] eqn:Hone; [|discriminate].
    rewrite bind_Ok_l. intros Hrest Hinv.
    eapply IH; [exact Hrest|]. eapply inputs_invariant_step; eauto.
Qed.

(** The loop over the initializers changes [_nodes] only. *)
Lemma parse_graph_initializers_fields (E : External) (tensors : list TensorProto)
    (self self' : ONNXGraphImporter) :
  for_each (fun self init_tensor =>
              if is_blank (tp_name init_tensor) then Raise ValueError_tensor_name
              else
                array ← _parse_array E init_tensor;
                Ok (set_nodes self (<[tp_name init_tensor := Constant array]> (_nodes self))))
           tensors self = Ok self' ->
  self' = set_nodes self (_nodes self')
  /\ (forall k v, _nodes self' !! k = Some v ->
                  _nodes self !! k = Some v \/ is_Var v = false).
Proof.
  revert self. induction tensors as [|t tensors IH]; intros self; cbn [for_each].
  - intros [= <-]. split; [destruct self; reflexivity | auto].
  - destruct (is_blank (tp_name t)); [discriminate|].
    destruct (_parse_array E t) as [array|e]; [|discriminate].
    rewrite !bind_Ok_l. intros Hrest. destruct (IH _ Hrest) as [Heq Hvals].
    split; [rewrite Heq at 1; reflexivity|].
    intros k v Hk. destruct (Hvals _ _ Hk) as [Hk1|Hk1]; [|auto].
    cbn [set_nodes _nodes] in Hk1.
    destruct (decide (tp_name t = k)) as [<-|Hne].
    + rewrite lookup_insert_eq in Hk1. injection Hk1 as <-. auto.
    + rewrite lookup_insert_ne in Hk1 by exact Hne. auto.
Qed.

(** X17. From an importer that has bound nothing, after the initializers
    and the declared inputs are parsed: [_input_names] lists, in order, the
    names of the parameters-to-be (the names of [_inputs] bound to
    variables), [_num_input] is their number, and it is the number of the
    parameters of the function. *)
Theorem input_bookkeeping (E : External) (self self1 self2 : ONNXGraphImporter)
    (graph : GraphProto) :
  _nodes self = ∅ -> _inputs self = [] -> _input_names self = [] ->
  _num_input self = O ->
  _parse_graph_initializers E self graph = Ok self1 ->
  _parse_graph_input E self1 graph = Ok self2 ->
  inputs_invariant self2
  /\ _num_input self2 = length (_input_names self2)
  /\ _num_input self2 = length (param_list self2).
Proof.
  intros Hnodes Hinputs Hnames Hnum Hinit Hinput.
  destruct (parse_graph_initializers_fields _ _ _ _ Hinit) as [Heq Hvals].
  assert (Hinv1 : inputs_invariant self1).
  { rewrite Heq. unfold inputs_invariant. cbn [set_nodes _input_names _inputs _nodes _num_input].
    rewrite Hinputs, Hnames, Hnum. split; [reflexivity|]. split; [constructor|].
    split; [|reflexivity].
    intros name v Hv Hvar. destruct (Hvals _ _ Hv) as [Hv0|Hv0].
    - rewrite Hnodes, lookup_empty in Hv0. discriminate.
    - congruence. }
  pose proof (inputs_invariant_loop _ _ _ _ Hinput Hinv1) as Hinv2.
  split; [exact Hinv2|]. destruct Hinv2 as (Hn & _ & _ & Hnu).
  split; [exact Hnu|]. rewrite Hnu, Hn, length_fmap. unfold param_list.
  clear. induction (_inputs self2) as [|[k v] d IH]; [reflexivity|].
  cbn [List.map snd]. rewrite !filter_cons. cbn [snd].
  destruct (decide (is_Var v = true)); cbn [length]; rewrite IH; reflexivity.
Qed.

Lemma input_bookkeeping_witness :
  exists self1 self2 : ONNXGraphImporter,
    _parse_graph_initializers host (ONNXGraphImporter_init None DtypeNone true)
      add_graph_inputs = Ok self1
    /\ _parse_graph_input host self1 add_graph_inputs = Ok self2
    /\ _num_input self2 = length (param_list self2)
    /\ _num_input self2 = 2%nat.
Proof.
  eexists. eexists.
  split; [vm_compute; reflexivity|].
  split; [vm_compute; reflexivity|].
  pose proof (fun self1 self2 =>
                input_bookkeeping host (ONNXGraphImporter_init None DtypeNone true)
                  self1 self2 add_graph_inputs eq_refl eq_refl eq_refl eq_refl) as Hbook.
  edestruct Hbook as (_ & _ & Hnum);
    [vm_compute; reflexivity | vm_compute; reflexivity |].
  split; [exact Hnum | reflexivity].
Defined.

(** Under the invariant, a turn of the loop leaves [_inputs] as it is or
    adds one entry at its end: a value that is no variable, or the new
    variable of a name not bound before, for which the block builder is
    asked once. *)
Lemma parse_one_input_cases (E : External) (self self' : ONNXGraphImporter)
    (i : ValueInfoProto) :
  parse_one_input E self i = Ok self' ->
  inputs_invariant self ->
  _sanitize self' = _sanitize self
  /\ ((_inputs self' = _inputs self /\ _name_supply self' = _name_supply self
       /\ bb self' = bb self)
      \/ (exists v, _inputs self' = _inputs self ++ [(vi_name i, v)]
                    /\ is_Var v = false
                    /\ _name_supply self' = _name_supply self
                    /\ bb self' = bb self)
      \/ (exists v name,
            _inputs self' = _inputs self ++ [(vi_name i, v)]
            /\ is_Var v = true
            /\ (name, _name_supply self')
               = (if _sanitize self
                  then _sanitize_name E (_name_supply self) (vi_name i)
                  else (vi_name i, _name_supply self))
            /\ var_name v = get_unique_name E (bb self) name
            /\ bb self' = bb self ++ [GetUniqueName name])).
Proof.
  intros Hstep (Hnames & Hheld & Hvars & Hnum).
  destruct (parse_one_input_step _ _ _ _ Hstep) as [Hsan Hcase].
  split; [exact Hsan|].
  destruct (_nodes self !! vi_name i) as [v0|] eqn:Hnode.
  - destruct Hcase as (_ & Hi & _ & _ & Hsupply & Hbb).
    destruct (decide (vi_name i ∈ (_inputs self).*1)) as [Hkey|Hkey].
    + left. split; [|split; assumption]. rewrite Hi. apply odict_set_same; [exact Hkey|].
      eapply Forall_impl; [exact Hheld|]. intros [k w] Hk Heq. cbn [fst snd] in *.
      subst k. congruence.
    + right. left. exists v0. rewrite Hi, odict_set_fresh by exact Hkey.
      split; [reflexivity|]. split; [|split; assumption].
      destruct (is_Var v0) eqn:Hv; [|reflexivity].
      exfalso. exact (Hkey (Hvars _ _ Hnode Hv)).
  - destruct Hcase as (v & name & Hvar & _ & Hi & _ & _ & Hpair & Hname & Hbb).
    right. right. exists v, name. split; [|repeat split; assumption].
    rewrite Hi. apply odict_set_fresh.
    intros Hkey. apply list_elem_of_fmap in Hkey as ([k w] & Hk & Hkw). cbn [fst] in Hk.
    rewrite Forall_forall in Hheld. specialize (Hheld _ Hkw). cbn [fst snd] in Hheld.
    subst k. congruence.
Qed.

Lemma param_list_snoc (self self' : ONNXGraphImporter) (name : string) (v : Expr) :
  _inputs self' = _inputs self ++ [(name, v)] ->
  param_list self' = param_list self ++ (if is_Var v then [v] else []).
Proof.
  intros Heq. unfold param_list. rewrite Heq, List.map_app, filter_app.
  f_equal. cbn [List.map snd]. destruct (is_Var v) eqn:Hv.
  - rewrite filter_cons_True by exact Hv. reflexivity.
  - rewrite filter_cons_False by congruence. reflexivity.
Qed.

Lemma param_names_same (self self' : ONNXGraphImporter) :
  _inputs self' = _inputs self -> param_names self' = param_names self.
Proof. intros Heq. unfold param_names, param_list. rewrite Heq. reflexivity. Qed.

Lemma param_names_no_var (self self' : ONNXGraphImporter) (name : string) (v : Expr) :
  _inputs self' = _inputs self ++ [(name, v)] -> is_Var v = false ->
  param_names self' = param_names self.
Proof.
  intros Heq Hv. unfold param_names.
  rewrite (param_list_snoc _ _ _ _ Heq), Hv, app_nil_r. reflexivity.
Qed.

Lemma param_names_var (self self' : ONNXGraphImporter) (name : string) (v : Expr) :
  _inputs self' = _inputs self ++ [(name, v)] -> is_Var v = true ->
  param_names self' = param_names self ++ [var_name v].
Proof.
  intros Heq Hv. unfold param_names.
  rewrite (param_list_snoc _ _ _ _ Heq), Hv, fmap_app. reflexivity.
Qed.

Lemma names_verbatim_loop (E : External) (inputs : list ValueInfoProto)
    (self self' : ONNXGraphImporter) :
  for_each (parse_one_input E) inputs self = Ok self' ->
  _sanitize self = false ->
  inputs_invariant self ->
  exists names,
    _input_names self' = _input_names self ++ names
    /\ bb self' = bb self ++ (GetUniqueName <$> names)
    /\ param_names self' = param_names self ++ unique_names E (bb self) names
    /\ _name_supply self' = _name_supply self.
Proof.
  revert self. induction inputs as [|i inputs IH]; intros self; cbn [for_each].
  - intros [= <-] _ _. exists []. cbn [fmap list_fmap unique_names].
    rewrite !app_nil_r. auto.
  - destruct (parse_one_input E self i) as [self1|e] eqn:Hone; [|discriminate].
    rewrite bind_Ok_l. intros Hrest Hsan Hinv.
    destruct (parse_one_input_cases _ _ _ _ Hone Hinv) as [Hsan1 Hcases].
    rewrite Hsan in Hsan1, Hcases.
    pose proof (inputs_invariant_step _ _ _ _ Hone Hinv) as Hinv1.
    destruct (IH _ Hrest Hsan1 Hinv1) as (names & Hin & Hbb & Hparams & Hsup).
    destruct Hinv as (Hkeys & _). destruct Hinv1 as (Hkeys1 & _).
    destruct Hcases as [(Hi & Hs & Hb)|[(v & Hi & Hv & Hs & Hb)|
                                       (v & name & Hi & Hv & Hpair & Hname & Hb)]].
    + exists names. rewrite Hin, Hbb, Hparams, Hsup, Hkeys1, Hkeys, Hi, Hb, Hs.
      rewrite (param_names_same _ _ Hi). auto.
    + exists names. rewrite Hin, Hbb, Hparams, Hsup, Hkeys1, Hkeys, Hi, Hb, Hs.
      rewrite (param_names_no_var _ _ _ _ Hi Hv).
      rewrite filter_app, filter_cons_False, filter_nil, app_nil_r
        by (cbn [snd]; congruence).
      auto.
    + injection Hpair as -> Hs.
      exists (vi_name i :: names).
      rewrite Hin, Hbb, Hparams, Hsup, Hkeys1, Hkeys, Hi, Hb.
      rewrite (param_names_var _ _ _ _ Hi Hv), Hname.
      rewrite filter_app, filter_cons_True, filter_nil, fmap_app by (cbn [snd]; exact Hv).
      cbn [fmap list_fmap fst unique_names]. rewrite <- !app_assoc. auto.
Qed.

Lemma fresh_importer_invariant (E : External) (self self1 : ONNXGraphImporter)
    (graph : GraphProto) :
  _nodes self = ∅ -> _inputs self = [] -> _input_names self = [] ->
  _num_input self = O ->
  _parse_graph_initializers E self graph = Ok self1 ->
  inputs_invariant self1 /\ _inputs self1 = [] /\ _input_names self1 = []
  /\ _sanitize self1 = _sanitize self /\ _name_supply self1 = _name_supply self
  /\ bb self1 = bb self.
Proof.
  intros Hnodes Hinputs Hnames Hnum Hinit.
  destruct (parse_graph_initializers_fields _ _ _ _ Hinit) as [Heq Hvals].
  rewrite Heq. cbn [set_nodes _inputs _input_names _sanitize _name_supply bb].
  split; [|auto].
  unfold inputs_invariant. cbn [set_nodes _input_names _inputs _nodes _num_input].
  rewrite Hinputs, Hnames, Hnum. split; [reflexivity|]. split; [constructor|].
  split; [|reflexivity].
  intros name v Hv Hvar. destruct (Hvals _ _ Hv) as [Hv0|Hv0].
  - rewrite Hnodes, lookup_empty in Hv0. discriminate.
  - congruence.
Qed.

(** X18. With the sanitising of names switched off, the block builder is
    asked for a unique name once for every parameter, in the order of the
    parameters, with the name of the input as the model spells it: the
    names asked for are [_input_names]. The parameters carry the names the
    builder answers with, and the name supply is not used. *)
Theorem unsanitized_names_verbatim (E : External) (self self1 self2 : ONNXGraphImporter)
    (graph : GraphProto) :
  _sanitize self = false ->
  _nodes self = ∅ -> _inputs self = [] -> _input_names self = [] ->
  _num_input self = O ->
  _parse_graph_initializers E self graph = Ok self1 ->
  _parse_graph_input E self1 graph = Ok self2 ->
  bb self2 = bb self ++ (GetUniqueName <$> _input_names self2)
  /\ param_names self2 = unique_names E (bb self) (_input_names self2)
  /\ _name_supply self2 = _name_supply self.
Proof.
  intros Hsan Hnodes Hinputs Hnames Hnum Hinit Hinput.
  destruct (fresh_importer_invariant _ _ _ _ Hnodes Hinputs Hnames Hnum Hinit)
    as (Hinv1 & Hin1 & Hnames1 & Hsan1 & Hsup1 & Hbb1).
  destruct (names_verbatim_loop _ _ _ _ Hinput) as (names & Hin & Hbb & Hparams & Hsup);
    [congruence | exact Hinv1 |].
  rewrite Hnames1 in Hin. cbn [app] in Hin. subst names.
  rewrite Hbb, Hparams, Hsup, Hbb1, Hsup1.
  unfold param_names at 1, param_list. rewrite Hin1. auto.
Qed.

Lemma unsanitized_names_verbatim_witness :
  exists self1 self2 : ONNXGraphImporter,
    _parse_graph_initializers host (ONNXGraphImporter_init None DtypeNone false)
      (mkGraphProto [] [value_info "a.b" [2] 7; value_info "a_b" [2] 7] [] []) = Ok self1
    /\ _parse_graph_input host self1
         (mkGraphProto [] [value_info "a.b" [2] 7; value_info "a_b" [2] 7] [] []) = Ok self2
    /\ bb self2 = [GetUniqueName "a.b"; GetUniqueName "a_b"]
    /\ param_names self2 = ["a_b"; "a_b1"].
Proof.
  eexists. eexists.
  split; [vm_compute; reflexivity|].
  split; [vm_compute; reflexivity|].
  pose proof (fun self1 self2 =>
                unsanitized_names_verbatim host (ONNXGraphImporter_init None DtypeNone false)
                  self1 self2
                  (mkGraphProto [] [value_info "a.b" [2] 7; value_info "a_b" [2] 7] [] [])
                  eq_refl eq_refl eq_refl eq_refl eq_refl)
    as Hverb.
  edestruct Hverb as (Hbb & Hnames & _);
    [vm_compute; reflexivity | vm_compute; reflexivity |].
  split; [exact Hbb | exact Hnames].
Defined.

Lemma names_fresh_loop (E : External) (inputs : list ValueInfoProto)
    (self self' : ONNXGraphImporter) :
  for_each (parse_one_input E) inputs self = Ok self' ->
  _sanitize self = true ->
  inputs_invariant self ->
  exists names,
    bb self' = bb self ++ (GetUniqueName <$> names)
    /\ param_names self' = param_names self ++ unique_names E (bb self) names
    /\ NoDup names
    /\ Forall (starts_well E) names
    /\ Forall (fun x => ¬ issued (_name_supply self) x) names
    /\ (forall x, issued (_name_supply self) x -> issued (_name_supply self') x).
Proof.
  revert self. induction inputs as [|i inputs IH]; intros self; cbn [for_each].
  - intros [= <-] _ _. exists []. cbn [fmap list_fmap unique_names].
    rewrite !app_nil_r. repeat split; auto; constructor.
  - destruct (parse_one_input E self i) as [self1|e] eqn:Hone; [|discriminate].
    rewrite bind_Ok_l. intros Hrest Hsan Hinv.
    destruct (parse_one_input_cases _ _ _ _ Hone Hinv) as [Hsan1 Hcases].
    rewrite Hsan in Hsan1, Hcases.
    pose proof (inputs_invariant_step _ _ _ _ Hone Hinv) as Hinv1.
    destruct (IH _ Hrest Hsan1 Hinv1)
      as (names & Hbb & Hparams & Hdup & Hwell & Hnew & Hkeep).
    destruct Hcases as [(Hi & Hs & Hb)|[(v & Hi & Hv & Hs & Hb)|
                                       (v & name & Hi & Hv & Hpair & Hname & Hb)]].
    + exists names. rewrite Hbb, Hparams, Hb, (param_names_same _ _ Hi).
      rewrite Hs in Hnew, Hkeep. auto 10.
    + exists names. rewrite Hbb, Hparams, Hb, (param_names_no_var _ _ _ _ Hi Hv).
      rewrite Hs in Hnew, Hkeep. auto 10.
    + destruct (sanitize_name_is_fresh_name E (_name_supply self) (vi_name i)) as [n' Hn'].
      pose proof (sanitize_name_starts_well E (_name_supply self) (vi_name i)) as Hstart.
      rewrite Hn' in Hpair. rewrite Hn' in Hstart.
      assert (Hn : name = (fresh_name (_name_supply self) n').1)
        by (rewrite <- Hpair; reflexivity).
      assert (Hsup : _name_supply self1 = (fresh_name (_name_supply self) n').2)
        by (rewrite <- Hpair; reflexivity).
      rewrite <- Hn in Hstart.
      exists (name :: names).
      rewrite Hbb, Hparams, Hb, (param_names_var _ _ _ _ Hi Hv), Hname.
      cbn [fmap list_fmap unique_names]. rewrite <- !app_assoc.
      split; [reflexivity|]. split; [reflexivity|].
      rewrite Hsup in Hnew, Hkeep.
      split; [|split; [|split]].
      * constructor; [|exact Hdup]. intros Hmem.
        rewrite Forall_forall in Hnew. apply (Hnew _ Hmem).
        rewrite Hn. apply fresh_name_issued.
      * constructor; assumption.
      * constructor; [rewrite Hn; apply fresh_name_not_issued|].
        eapply Forall_impl; [exact Hnew|]. intros x Hx Hissued. apply Hx.
        apply fresh_name_keeps, Hissued.
      * intros x Hx. apply Hkeep, fresh_name_keeps, Hx.
Qed.

(** X19. With the sanitising of names switched on, the names for which the
    block builder is asked, one for every parameter and in the order of the
    parameters, are pairwise distinct, and each of them starts with a
    letter or an underscore. The parameters carry the names the builder
    answers with. The name supply is the one modelled for
    [_sanitize_name]. *)
Theorem sanitized_param_names_distinct (E : External) (self self1 self2 : ONNXGraphImporter)
    (graph : GraphProto) :
  _sanitize self = true ->
  _nodes self = ∅ -> _inputs self = [] -> _input_names self = [] ->
  _num_input self = O ->
  _parse_graph_initializers E self graph = Ok self1 ->
  _parse_graph_input E self1 graph = Ok self2 ->
  exists names,
    bb self2 = bb self ++ (GetUniqueName <$> names)
    /\ param_names self2 = unique_names E (bb self) names
    /\ NoDup names
    /\ Forall (starts_well E) names.
Proof.
  intros Hsan Hnodes Hinputs Hnames Hnum Hinit Hinput.
  destruct (fresh_importer_invariant _ _ _ _ Hnodes Hinputs Hnames Hnum Hinit)
    as (Hinv1 & Hin1 & Hnames1 & Hsan1 & Hsup1 & Hbb1).
  destruct (names_fresh_loop _ _ _ _ Hinput)
    as (names & Hbb & Hparams & Hdup & Hwell & _); [congruence | exact Hinv1 |].
  exists names. rewrite Hbb, Hparams, Hbb1.
  unfold param_names at 1, param_list. rewrite Hin1. auto.
Qed.

Lemma sanitized_param_names_distinct_witness :
  exists (self1 self2 : ONNXGraphImporter) (names : list string),
    _parse_graph_initializers host (ONNXGraphImporter_init None DtypeNone true)
      (mkGraphProto [] [value_info "1.x" [2] 7; value_info "input_1_x" [2] 7] [] [])
    = Ok self1
    /\ _parse_graph_input host self1
         (mkGraphProto [] [value_info "1.x" [2] 7; value_info "input_1_x" [2] 7] [] [])
       = Ok self2
    /\ bb self2 = GetUniqueName <$> names
    /\ NoDup names
    /\ bb self2 = [GetUniqueName "input_1_x"; GetUniqueName "input_1_x_1"].
Proof.
  eexists. eexists.
  pose proof (fun self1 self2 =>
                sanitized_param_names_distinct host
                  (ONNXGraphImporter_init None DtypeNone true) self1 self2
                  (mkGraphProto [] [value_info "1.x" [2] 7; value_info "input_1_x" [2] 7] [] [])
                  eq_refl eq_refl eq_refl eq_refl eq_refl)
    as Hdistinct.
  edestruct Hdistinct as (names & Hbb & _ & Hdup & _);
    [vm_compute; reflexivity | vm_compute; reflexivity |].
  exists names.
  split; [vm_compute; reflexivity|].
  split; [vm_compute; reflexivity|].
  split; [exact Hbb|]. split; [exact Hdup|]. vm_compute. reflexivity.
Defined.

(** ** What the recording of outputs leaves alone *)

Lemma record_all_lookup (bindings : list (string * Expr)) (nodes : gmap string Expr) :
  (forall k, k ∉ bindings.*1 -> record_all nodes bindings !! k = nodes !! k)
  /\ (forall k, k ∈ bindings.*1 -> is_Some (record_all nodes bindings !! k))
  /\ (forall k, is_Some (nodes !! k) -> is_Some (record_all nodes bindings !! k)).
Proof.
  unfold record_all. revert nodes.
  induction bindings as [|[o x] bindings IH]; intros nodes; cbn [foldl fst snd].
  - split; [reflexivity|]. split; [|auto]. intros k Hk. inversion Hk.
  - destruct (IH (<[o := x]> nodes)) as (Hout & Hin & Hkeep).
    assert (Ho : is_Some (<[o := x]> nodes !! o)) by (rewrite lookup_insert_eq; eauto).
    split; [|split].
    + intros k Hk. rewrite fmap_cons in Hk. apply not_elem_of_cons in Hk as [Hne Hk].
      rewrite (Hout _ Hk). apply lookup_insert_ne. cbn [fst] in Hne. congruence.
    + intros k Hk. rewrite fmap_cons in Hk. apply elem_of_cons in Hk as [->|Hk]; auto.
    + intros k Hk. apply Hkeep. rewrite lookup_insert_is_Some'. tauto.
Qed.

(** X20. When the outputs of a node are recorded, every declared output
    name is bound afterwards, every name that was bound is still bound, and
    a name the node does not declare keeps its value. *)
Theorem record_outputs_frame (nodes nodes' : gmap string Expr) (op_name : string)
    (outputs : list string) (op : Expr) :
  record_outputs nodes op_name outputs op = Ok nodes' ->
  (forall k, k ∉ outputs -> nodes' !! k = nodes !! k)
  /\ (forall k, k ∈ outputs -> is_Some (nodes' !! k))
  /\ (forall k, is_Some (nodes !! k) -> is_Some (nodes' !! k)).
Proof.
  intros Hrec.
  destruct (decide ((unpack_outputs op).2 < length outputs)%nat) as [Hlt|Hge].
  { rewrite record_outputs_missing in Hrec by exact Hlt. discriminate. }
  destruct (decide ((unpack_outputs op).2 = 1%nat)) as [Hone|Hne].
  - destruct outputs as [|o [|o' outputs]].
    + exfalso. revert Hrec. unfold record_outputs.
      destruct (unpack_outputs op) as [op' n]. cbn [snd] in Hone. subst n. discriminate.
    + rewrite record_outputs_single in Hrec by exact Hone. injection Hrec as <-.
      split; [|split].
      * intros k Hk. apply lookup_insert_ne. intros ->. apply Hk, list_elem_of_here.
      * intros k Hk. apply list_elem_of_singleton in Hk as ->.
        rewrite lookup_insert_eq. eauto.
      * intros k Hk. rewrite lookup_insert_is_Some'. tauto.
    + cbn [length] in Hge. lia.
  - rewrite record_outputs_several in Hrec by (assumption || lia). injection Hrec as <-.
    pose proof (unpack_outputs_components op) as Hnum.
    destruct (record_all_lookup (zip outputs (components (unpack_outputs op).1)) nodes)
      as (Hout & Hin & Hkeep).
    rewrite fst_zip in Hout, Hin by lia. auto.
Qed.

Lemma record_outputs_frame_witness :
  is_Some (<["c" := int64_constant [4; 6]]> ({[ "a" := int64_constant [1; 2] ]}
             : gmap string Expr) !! "a").
Proof.
  destruct (record_outputs_frame {[ "a" := int64_constant [1; 2] ]}
              (<["c" := int64_constant [4; 6]]> {[ "a" := int64_constant [1; 2] ]})
              "Add" ["c"] (int64_constant [4; 6])) as (_ & _ & Hkeep).
  - reflexivity.
  - apply Hkeep. eexists. reflexivity.
Defined.







(** ** [Add] on other operand lists *)

Lemma onnx_input_getitem_int_nonneg {A : Type} (self : onnx_input A) (k : nat) :
  onnx_input_getitem_int self (Z.of_nat k) = Ok (default None (self !! k)).
Proof.
  unfold onnx_input in *. unfold onnx_input_getitem_int.
  destruct (Z.ltb_spec (Z.of_nat k) (len self)) as [Hlt|Hge].
  - destruct (lookup_lt_is_Some_2 self k) as [x Hx]; [unfold len in Hlt; lia|].
    rewrite Hx. apply py_list_index_inside, Hx.
  - rewrite lookup_ge_None_2 by (unfold len in Hge; lia). reflexivity.
Qed.

(** X22. [Add] reads its first two operands only. With an operand that
    is no constant anywhere in the list it calls [relax.op.add] on the first
    two, [None] standing for one that is missing. With constants only and
    fewer than two of them it raises [AttributeError], reading the data of
    [None]. *)
Theorem Add_operand_edges (E : External) (inputs : onnx_input Expr)
    (attr : gmap string AttrValue) :
  (all_Constant inputs = false ->
   Add_impl_v13 E inputs attr
   = relax_op_add E (default None (inputs !! 0%nat)) (default None (inputs !! 1%nat)))
  /\ (all_Constant inputs = true -> (length inputs < 2)%nat ->
      Add_impl_v13 E inputs attr = Raise AttributeError_None).
Proof.
  split.
  - intros Hall. unfold Add_impl_v13. rewrite Hall.
    rewrite (onnx_input_getitem_int_nonneg inputs 0
             : onnx_input_getitem_int inputs 0 = _), bind_Ok_l.
    rewrite (onnx_input_getitem_int_nonneg inputs 1
             : onnx_input_getitem_int inputs 1 = _), bind_Ok_l. reflexivity.
  - intros Hall Hlen. unfold Add_impl_v13. rewrite Hall.
    destruct inputs as [|[[]|] [|? ?]]; try discriminate Hall;
      try (cbn [length] in Hlen; lia); reflexivity.
Qed.

(** ** The outputs of the graph *)

Lemma nodes_getitem_Some (nodes : gmap string Expr) (name : string) (e : Expr) :
  nodes !! name = Some e -> nodes_getitem nodes name = Ok e.
Proof. intros H. unfold nodes_getitem. rewrite H. reflexivity. Qed.

Lemma nodes_getitem_None (nodes : gmap string Expr) (name : string) :
  nodes !! name = None -> nodes_getitem nodes name = Raise (KeyError name).
Proof. intros H. unfold nodes_getitem. rewrite H. reflexivity. Qed.

(** X23. A declared graph output that nothing has produced: when the
    nodes of the graph have been converted, [from_onnx] raises [KeyError]
    with the first such output name. *)
Theorem from_onnx_unbound_output (E : External) (self self1 self2 self3 : ONNXGraphImporter)
    (graph : GraphProto) (opset : Z) (l1 l2 : list ValueInfoProto) (o : ValueInfoProto) :
  _parse_graph_initializers E (set_opset self opset) graph = Ok self1 ->
  _parse_graph_input E self1 graph = Ok self2 ->
  _check_for_unsupported_ops graph = Ok () ->
  _construct_nodes E self2 graph = Ok self3 ->
  g_output graph = l1 ++ o :: l2 ->
  Forall (fun i => is_Some (_nodes self3 !! vi_name i)) l1 ->
  _nodes self3 !! vi_name o = None ->
  ONNXGraphImporter_from_onnx E self graph opset = Raise (KeyError (vi_name o)).
Proof.
  intros Hinit Hinput Hcheck Hconstruct Hout Hl1 Hnone.
  unfold ONNXGraphImporter_from_onnx. cbv zeta.
  rewrite Hinit, bind_Ok_l, Hinput, bind_Ok_l, Hcheck, bind_Ok_l, Hconstruct, bind_Ok_l.
  rewrite Hout.
  assert (Hmap : map_result (fun i => nodes_getitem (_nodes self3) (vi_name i))
                            (l1 ++ o :: l2) = Raise (KeyError (vi_name o))).
  { clear Hout. induction Hl1 as [|i l1 [e He] _ IH]; cbn [map_result app]; cbv beta.
    - rewrite (nodes_getitem_None _ _ Hnone). reflexivity.
    - rewrite (nodes_getitem_Some _ _ _ He), bind_Ok_l, IH. reflexivity. }
  rewrite Hmap. reflexivity.
Qed.

Lemma from_onnx_unbound_output_witness :
  from_onnx host
    (model_of (mkGraphProto [int64_tensor "a" [1; 2]] [] [value_info "a" [2] 7; value_info "z" [2] 7] []))
    None DtypeNone None true
  = Raise (KeyError "z").
Proof.
  pose proof (fun self1 self2 self3 =>
                from_onnx_unbound_output host (ONNXGraphImporter_init None DtypeNone true)
                  self1 self2 self3
                  (mkGraphProto [int64_tensor "a" [1; 2]] []
                     [value_info "a" [2] 7; value_info "z" [2] 7] [])
                  13 [value_info "a" [2] 7] [] (value_info "z" [2] 7)) as Hunbound.
  eapply Hunbound.
  - vm_compute. reflexivity.
  - vm_compute. reflexivity.
  - vm_compute. reflexivity.
  - vm_compute. reflexivity.
  - reflexivity.
  - apply List.Forall_cons; [eexists; vm_compute; reflexivity | apply List.Forall_nil].
  - vm_compute. reflexivity.
Defined.

(** ** Converters of single operators *)

Lemma outcome_bind_Return {A B : Type} (a : A) (k : A -> outcome B) :
  (Return a ≫= k) = k a.
Proof. reflexivity. Qed.

Lemma outcome_bind_Throw {A B : Type} (e : raised) (k : A -> outcome B) :
  (Throw e ≫= k) = Throw e.
Proof. reflexivity. Qed.

Lemma get_converter_ArgMax_opset (opset : Z) :
  get_converter ArgMax opset
  = Ok (if opset <? 1 then 12 else if opset <? 11 then 1 else if opset <? 12 then 11 else 12).
Proof.
  assert (Hin : forall r, r ∈ impl_versions ArgMax <-> r = 1 \/ r = 11 \/ r = 12).
  { intros r. cbn [impl_versions ArgMax].
    rewrite !elem_of_cons, elem_of_nil. tauto. }
  destruct (Z.ltb_spec opset 1) as [H1|H1].
  - destruct (get_converter_below_all ArgMax opset) as (v & -> & Hv & _ & Hmax).
    + discriminate.
    + intros r Hr. apply Hin in Hr. lia.
    + f_equal. apply Hin in Hv. specialize (Hmax 12 (proj2 (Hin 12) ltac:(tauto))). lia.
  - destruct (get_converter_largest_below ArgMax opset) as (v & -> & Hv & Hle & Hmax).
    + exists 1. split; [apply Hin; tauto | lia].
    + f_equal. apply Hin in Hv.
      pose proof (Hmax 1 (proj2 (Hin 1) ltac:(tauto))) as M1.
      pose proof (Hmax 11 (proj2 (Hin 11) ltac:(tauto))) as M11.
      pose proof (Hmax 12 (proj2 (Hin 12) ltac:(tauto))) as M12.
      destruct (Z.ltb_spec opset 11), (Z.ltb_spec opset 12); lia.
Qed.

Lemma check_attrs_int (data : Expr) (dims : list PrimExpr) (dtype : option string)
    (attr : gmap string AttrValue) (a : Z) (shift_axis : bool) :
  struct_info data = TensorStructInfo (Some dims) dtype ->
  attr !! "axis" = Some (AttrInt a) ->
  _check_attrs (Some data) attr shift_axis
  = let axis := if shift_axis && (a <? 0) then a + len dims else a in
    if (0 <=? axis) && (axis <? len dims)
    then Return (axis, default (AttrInt 1) (attr !! "keepdims"))
    else Throw (AssertionError "Axis is out of bounds").
Proof.
  intros Hsinfo Haxis.
  unfold _check_attrs, shape_len, struct_info_shape, attr_get_int.
  rewrite Hsinfo, Haxis. reflexivity.
Qed.

(** X24. The axis of [ArgMax] (and of [ArgMin], whose methods are the same
    up to the operator built). For a tensor of known rank [n] and an integer
    axis [a], with [select_last_index] not set: under an opset from 1 to 10
    the axis is taken as it is, so only [0 <= a < n] is accepted and a
    negative axis fails the assertion; from opset 11 on a negative axis
    counts from the end: [-n <= a < n] is accepted and the operator is built
    on axis [a mod n], anything else fails the assertion. *)
Theorem ArgMax_axis (relax_op_argmax : option Expr -> Z -> AttrValue -> outcome Expr)
    (opset : Z) (inputs : onnx_input Expr) (attr : gmap string AttrValue)
    (data : Expr) (dims : list PrimExpr) (dtype : option string) (a : Z) :
  inputs !! 0%nat = Some (Some data) ->
  struct_info data = TensorStructInfo (Some dims) dtype ->
  attr !! "axis" = Some (AttrInt a) ->
  attr !! "select_last_index" = None ->
  let n := len dims in
  let keepdims := default (AttrInt 1) (attr !! "keepdims") in
  let out_of_bounds : outcome Expr := Throw (AssertionError "Axis is out of bounds") in
  (1 <= opset < 11 -> 0 <= a < n ->
     ArgMax_convert relax_op_argmax opset inputs attr = relax_op_argmax (Some data) a keepdims)
  /\ (1 <= opset < 11 -> a < 0 \/ n <= a ->
        ArgMax_convert relax_op_argmax opset inputs attr = out_of_bounds)
  /\ (11 <= opset -> - n <= a < n ->
        ArgMax_convert relax_op_argmax opset inputs attr
        = relax_op_argmax (Some data) (a mod n) keepdims)
  /\ (11 <= opset -> a < - n \/ n <= a ->
        ArgMax_convert relax_op_argmax opset inputs attr = out_of_bounds).
Proof.
  intros Hdata Hsinfo Haxis Hlast n keepdims out_of_bounds.
  assert (Hget : onnx_input_getitem_int inputs 0 = Ok (Some data)).
  { rewrite (onnx_input_getitem_int_nonneg inputs 0
             : onnx_input_getitem_int inputs 0 = _).
    unfold onnx_input in *. rewrite Hdata. reflexivity. }
  assert (Hv1 : ArgMax_impl_v1 relax_op_argmax inputs attr
                = if (0 <=? a) && (a <? n) then relax_op_argmax (Some data) a keepdims
                  else out_of_bounds).
  { unfold ArgMax_impl_v1. rewrite Hget. cbn [lift]. rewrite outcome_bind_Return.
    rewrite (check_attrs_int _ _ _ _ _ _ Hsinfo Haxis). cbn [andb]. cbv zeta.
    fold n. destruct ((0 <=? a) && (a <? n)); reflexivity. }
  assert (Hshift : forall k : Z * AttrValue -> outcome Expr,
             (_check_attrs (Some data) attr true ≫= k)
             = if (- n <=? a) && (a <? n) then k (a mod n, keepdims) else Throw (AssertionError "Axis is out of bounds")).
  { intros k. rewrite (check_attrs_int _ _ _ _ _ _ Hsinfo Haxis). cbn [andb]. cbv zeta.
    fold n. fold keepdims.
    destruct (Z.ltb_spec a 0) as [Hneg|Hpos].
    - destruct (Z.leb_spec 0 (a + n)) as [H1|H1], (Z.ltb_spec (a + n) n) as [H2|H2],
        (Z.leb_spec (- n) a) as [H3|H3], (Z.ltb_spec a n) as [H4|H4];
        cbn [andb]; try lia; try reflexivity.
      rewrite outcome_bind_Return. do 2 f_equal.
      apply (Z.mod_unique_pos a n (-1) (a + n)); lia.
    - destruct (Z.leb_spec 0 a) as [H1|H1], (Z.ltb_spec a n) as [H2|H2],
        (Z.leb_spec (- n) a) as [H3|H3];
        cbn [andb]; try lia; try reflexivity.
      rewrite outcome_bind_Return, Z.mod_small by lia. reflexivity. }
  assert (Hv11 : ArgMax_impl_v11 relax_op_argmax inputs attr
                 = if (- n <=? a) && (a <? n)
                   then relax_op_argmax (Some data) (a mod n) keepdims
                   else out_of_bounds).
  { unfold ArgMax_impl_v11. rewrite Hget. cbn [lift]. rewrite outcome_bind_Return.
    rewrite Hshift. reflexivity. }
  assert (Hv12 : ArgMax_impl_v12 relax_op_argmax inputs attr
                 = if (- n <=? a) && (a <? n)
                   then relax_op_argmax (Some data) (a mod n) keepdims
                   else out_of_bounds).
  { unfold ArgMax_impl_v12. rewrite Hget. cbn [lift]. rewrite outcome_bind_Return.
    rewrite Hshift. unfold attr_truth, attr_get_int. rewrite Hlast. reflexivity. }
  assert (Hlow : 1 <= opset < 11 ->
                 ArgMax_convert relax_op_argmax opset inputs attr
                 = ArgMax_impl_v1 relax_op_argmax inputs attr).
  { intros Ho. unfold ArgMax_convert. rewrite get_converter_ArgMax_opset.
    destruct (Z.ltb_spec opset 1); [lia|]. destruct (Z.ltb_spec opset 11); [|lia].
    reflexivity. }
  assert (Hhigh : 11 <= opset ->
                  ArgMax_convert relax_op_argmax opset inputs attr
                  = if (- n <=? a) && (a <? n)
                    then relax_op_argmax (Some data) (a mod n) keepdims
                    else out_of_bounds).
  { intros Ho. unfold ArgMax_convert. rewrite get_converter_ArgMax_opset.
    destruct (Z.ltb_spec opset 1); [lia|]. destruct (Z.ltb_spec opset 11); [lia|].
    destruct (Z.ltb_spec opset 12); cbn [lift]; rewrite outcome_bind_Return;
      [exact Hv11 | exact Hv12]. }
  repeat split.
  - intros Ho Ha. rewrite (Hlow Ho), Hv1.
    destruct (Z.leb_spec 0 a), (Z.ltb_spec a n); cbn [andb]; try lia; reflexivity.
  - intros Ho Ha. rewrite (Hlow Ho), Hv1.
    destruct (Z.leb_spec 0 a), (Z.ltb_spec a n); cbn [andb]; try lia; reflexivity.
  - intros Ho Ha. rewrite (Hhigh Ho).
    destruct (Z.leb_spec (- n) a), (Z.ltb_spec a n); cbn [andb]; try lia; reflexivity.
  - intros Ho Ha. rewrite (Hhigh Ho).
    destruct (Z.leb_spec (- n) a), (Z.ltb_spec a n); cbn [andb]; try lia; reflexivity.
Qed.

Lemma ArgMax_axis_witness :
  ArgMax_convert argmax_call 13
    [Some (Var "x" (TensorStructInfo (Some [IntImm 2; IntImm 3]) (Some "float32")))]
    {[ "axis" := AttrInt (-1) ]}
  = argmax_call
      (Some (Var "x" (TensorStructInfo (Some [IntImm 2; IntImm 3]) (Some "float32"))))
      1 (AttrInt 1)
  /\ ArgMax_convert argmax_call 7
       [Some (Var "x" (TensorStructInfo (Some [IntImm 2; IntImm 3]) (Some "float32")))]
       {[ "axis" := AttrInt (-1) ]}
     = Throw (AssertionError "Axis is out of bounds").
Proof.
  set (data := Var "x" (TensorStructInfo (Some [IntImm 2; IntImm 3]) (Some "float32"))).
  set (attr := {[ "axis" := AttrInt (-1) ]} : gmap string AttrValue).
  assert (Haxis : attr !! "axis" = Some (AttrInt (-1))) by (vm_compute; reflexivity).
  assert (Hlast : attr !! "select_last_index" = None) by (vm_compute; reflexivity).
  split.
  - pose proof (ArgMax_axis argmax_call 13 [Some data] attr data _ _ (-1)
                  eq_refl eq_refl Haxis Hlast) as (_ & _ & Hshift & _).
    apply Hshift; unfold len; cbn [length]; lia.
  - pose proof (ArgMax_axis argmax_call 7 [Some data] attr data _ _ (-1)
                  eq_refl eq_refl Haxis Hlast) as (_ & Hplain & _ & _).
    apply Hplain; unfold len; cbn [length]; lia.
Defined.

(** ** [Split] *)

Lemma sum_Z_app (l1 l2 : list Z) : sum_Z (l1 ++ l2) = sum_Z l1 + sum_Z l2.
Proof. unfold sum_Z. induction l1 as [|x l1 IH]; simpl; [reflexivity | lia]. Qed.

Lemma all_but_last_snoc {A : Type} (l : list A) (x : A) : all_but_last (l ++ [x]) = l.
Proof.
  unfold all_but_last. rewrite length_app. cbn [length].
  replace (length l + 1 - 1)%nat with (length l) by lia.
  rewrite take_app_le by lia. apply firstn_all.
Qed.

Lemma running_sums (l : list Z) :
  let r := foldl (fun '(index, indices) i =>
                    let index := index + i in (index, indices ++ [index]))
                 (0, []) l in
  r.1 = sum_Z l
  /\ length r.2 = length l
  /\ forall k, (k < length l)%nat -> r.2 !! k = Some (sum_Z (take (S k) l)).
Proof.
  induction l as [|x l IH] using rev_ind; cbv zeta in *.
  - repeat split; try reflexivity. intros k Hk. simpl in Hk. lia.
  - rewrite foldl_app. cbn [foldl].
    destruct (foldl _ (0, []) l) as [s acc]. cbn [fst snd] in *.
    destruct IH as (Hs & Hlen & Hk). repeat split.
    + rewrite sum_Z_app, Hs. unfold sum_Z. simpl. lia.
    + rewrite !length_app, Hlen. reflexivity.
    + intros k Hlt. rewrite length_app in Hlt. cbn [length] in Hlt.
      destruct (decide (k < length l)%nat) as [Hin|Hout].
      * rewrite lookup_app_l by lia. rewrite take_app_le by lia. apply Hk, Hin.
      * assert (k = length l) as -> by lia.
        rewrite lookup_app_r by lia. rewrite Hlen, Nat.sub_diag. cbn [lookup list_lookup].
        rewrite take_ge by (rewrite length_app; cbn [length]; lia).
        rewrite sum_Z_app, Hs. unfold sum_Z. simpl. do 2 f_equal. lia.
Qed.

(** X25. [Split] before opset 13 with a [split] attribute of two or more
    section lengths: [topi.split] receives the running sums of all lengths
    but the last one, so the place at position [k] is the sum of the first
    [k + 1] lengths, there is one place less than there are lengths, and the
    last length is never read. *)
Theorem Split_v1_indices (topi_split : option Expr -> split_arg -> Z -> outcome Expr)
    (inputs : onnx_input Expr) (attr : gmap string AttrValue) (splits : list Z) (axis : Z) :
  attr !! "split" = Some (AttrInts splits) ->
  attr !! "axis" = Some (AttrInt axis) ->
  (2 <= length splits)%nat ->
  exists indices,
    Split_impl_v1 topi_split inputs attr
    = topi_split (default None (inputs !! 0%nat)) (SplitAt indices) axis
    /\ length indices = (length splits - 1)%nat
    /\ (forall k, (k < length splits - 1)%nat ->
          indices !! k = Some (sum_Z (take (S k) splits)))
    /\ (forall last, split_indices (all_but_last splits ++ [last]) = indices).
Proof.
  intros Hsplit Haxis Hlen. exists (split_indices splits).
  assert (Hsnoc : exists l x, splits = l ++ [x]).
  { destruct splits as [|y l] using rev_ind; [simpl in Hlen; lia|]. eauto. }
  destruct Hsnoc as (l & x & ->).
  rewrite length_app in *. cbn [length] in *.
  replace (length l + 1 - 1)%nat with (length l) by lia.
  pose proof (running_sums l) as (_ & Hlength & Hk). cbv zeta in Hlength, Hk.
  unfold split_indices. rewrite !all_but_last_snoc.
  repeat split.
  - unfold Split_impl_v1. rewrite Hsplit.
    assert (Hlong : (1 <? len (l ++ [x])) = true).
    { apply Z.ltb_lt. unfold len. rewrite length_app. cbn [length]. lia. }
    rewrite Hlong, outcome_bind_Return.
    rewrite (onnx_input_getitem_int_nonneg inputs 0
             : onnx_input_getitem_int inputs 0 = _).
    cbn [lift]. rewrite outcome_bind_Return.
    unfold attr_get_int. rewrite Haxis, outcome_bind_Return.
    unfold split_indices. rewrite all_but_last_snoc. reflexivity.
  - exact Hlength.
  - intros k Hlt. rewrite take_app_le by lia. apply Hk, Hlt.
  - intros last. rewrite all_but_last_snoc. reflexivity.
Qed.

Lemma Split_v1_indices_witness :
  Split_impl_v1
    (fun data indices axis =>
       match indices with
       | SplitAt places => Return (ShapeExpr (IntImm <$> places))
       | SplitInto _ => Throw (Unmodelled "even parts")
       end)
    [] {[ "split" := AttrInts [2; 3; 5]; "axis" := AttrInt 1 ]}
  = Return (ShapeExpr [IntImm 2; IntImm 5]).
Proof.
  destruct (Split_v1_indices
              (fun data indices axis =>
                 match indices with
                 | SplitAt places => Return (ShapeExpr (IntImm <$> places))
                 | SplitInto _ => Throw (Unmodelled "even parts")
                 end)
              [] {[ "split" := AttrInts [2; 3; 5]; "axis" := AttrInt 1 ]} [2; 3; 5] 1)
    as (indices & Hrun & Hlen & Hk & _).
  - vm_compute. reflexivity.
  - vm_compute. reflexivity.
  - simpl. lia.
  - rewrite Hrun.
    pose proof (Hk 0%nat ltac:(simpl; lia)) as H0.
    pose proof (Hk 1%nat ltac:(simpl; lia)) as H1.
    destruct indices as [|a [|b [|c rest]]]; try discriminate Hlen.
    injection H0 as ->. injection H1 as ->. reflexivity.
Defined.

(** ** [Flatten] *)

Lemma py_list_slice_prefix {X : Type} (l : list X) (a : Z) :
  py_list_slice l (Slice (Some 0) (Some a) None)
  = Ok (take (Z.to_nat (if a <? 0 then len l + a else a)) l).
Proof.
  unfold py_list_slice, range_getitem_slice, slice_indices.
  cbn [step start stop default]. cbv zeta.
  change (1 =? 0) with false. change (1 <? 0) with false. cbv iota.
  change (0 <? 0) with false. cbv iota.
  assert (Hlen : 0 <= len l) by (unfold len; lia).
  rewrite (Z.max_r 0 (len l)) by lia.
  rewrite (Z.min_l 0 (len l)) by lia.
  rewrite bind_Ok_l. cbv beta iota.
  set (e := if a <? 0 then Z.max (a + len l) 0 else Z.min a (len l)).
  assert (He : 0 <= e <= len l).
  { unfold e. destruct (Z.ltb_spec a 0); lia. }
  rewrite py_range_step_1 by lia.
  change (Z.to_nat 0) with 0%nat. rewrite Z.sub_0_r.
  rewrite bind_Ok_l.
  rewrite map_py_list_index_seq by (unfold len in He; lia).
  rewrite drop_0. f_equal.
  unfold e. destruct (Z.ltb_spec a 0) as [Hneg|Hpos].
  - destruct (Z.max_spec (a + len l) 0) as [[Hlt ->]|[Hge ->]].
    + replace (Z.to_nat (len l + a)) with 0%nat by lia. reflexivity.
    + f_equal. lia.
  - destruct (Z.min_spec a (len l)) as [[Hlt ->]|[Hge ->]]; [reflexivity|].
    unfold len in *. rewrite Nat2Z.id, firstn_all.
    symmetry. apply take_ge. lia.
Qed.

Lemma shape_values_known (data : Expr) (shape : list Z) (dtype : option string) :
  struct_info data = TensorStructInfo (Some (IntImm <$> shape)) dtype ->
  shape_values (Some data) = Return shape.
Proof.
  intros Hsinfo. unfold shape_values, struct_info_shape. rewrite Hsinfo.
  rewrite outcome_bind_Return. clear Hsinfo.
  induction shape as [|d shape IH]; cbn [fmap list_fmap foldr]; [reflexivity|].
  rewrite IH. reflexivity.
Qed.

Lemma shape_values_symbolic (data : Expr) (dims : list PrimExpr) (dtype : option string)
    (name : string) :
  struct_info data = TensorStructInfo (Some dims) dtype ->
  TirVar name ∈ dims ->
  shape_values (Some data) = Throw (AttributeError "value").
Proof.
  intros Hsinfo Hin. unfold shape_values, struct_info_shape. rewrite Hsinfo.
  rewrite outcome_bind_Return. clear Hsinfo.
  induction dims as [|d dims IH]; [inversion Hin|].
  cbn [foldr]. destruct d as [value|name'].
  - apply elem_of_cons in Hin as [Heq|Hin]; [discriminate|].
    rewrite (IH Hin). reflexivity.
  - reflexivity.
Qed.

(** X26. [Flatten] of a tensor whose dimensions are all known, with an
    integer [axis]: the tensor is reshaped to [(lead, -1)], where [lead] is 1
    for axis 0 and otherwise the product, in 64-bit arithmetic, of the
    dimensions before the axis. A negative axis counts from the end; an axis
    past the rank takes all dimensions and one at or before minus the rank
    takes none, as Python slices do, and no error is raised for either. A
    symbolic dimension anywhere in the shape makes the converter fail. *)
Theorem Flatten_leading_dimension
    (relax_op_reshape : option Expr -> Z * Z -> outcome Expr)
    (inputs : onnx_input Expr) (attr : gmap string AttrValue) (data : Expr)
    (dims : list PrimExpr) (dtype : option string) (axis : Z) :
  inputs !! 0%nat = Some (Some data) ->
  struct_info data = TensorStructInfo (Some dims) dtype ->
  attr_get_int attr "axis" 1 = Return axis ->
  (forall shape, dims = IntImm <$> shape ->
     Flatten_impl_v13 relax_op_reshape inputs attr
     = relax_op_reshape (Some data)
         (if axis =? 0 then 1
          else wrap_int64
                 (foldr Z.mul 1
                    (take (Z.to_nat (if axis <? 0 then len shape + axis else axis)) shape)),
          -1))
  /\ (forall name, TirVar name ∈ dims ->
        Flatten_impl_v13 relax_op_reshape inputs attr = Throw (AttributeError "value")).
Proof.
  intros Hdata Hsinfo Haxis.
  assert (Hget : onnx_input_getitem_int inputs 0 = Ok (Some data)).
  { rewrite (onnx_input_getitem_int_nonneg inputs 0
             : onnx_input_getitem_int inputs 0 = _).
    unfold onnx_input in *. rewrite Hdata. reflexivity. }
  split.
  - intros shape ->. unfold Flatten_impl_v13.
    rewrite Haxis, outcome_bind_Return, Hget. cbn [lift]. rewrite outcome_bind_Return.
    rewrite (shape_values_known _ _ _ Hsinfo), outcome_bind_Return.
    unfold flatten_shape. destruct (axis =? 0); [reflexivity|].
    rewrite py_list_slice_prefix. reflexivity.
  - intros name Hin. unfold Flatten_impl_v13.
    rewrite Haxis, outcome_bind_Return, Hget. cbn [lift]. rewrite outcome_bind_Return.
    rewrite (shape_values_symbolic _ _ _ _ Hsinfo Hin). reflexivity.
Qed.

Lemma Flatten_leading_dimension_witness :
  Flatten_impl_v13
    (fun data new_shape => Return (ShapeExpr [IntImm new_shape.1; IntImm new_shape.2]))
    [Some (Var "x" (TensorStructInfo (Some [IntImm 2; IntImm 3; IntImm 4]) (Some "float32")))]
    {[ "axis" := AttrInt (-1) ]}
  = Return (ShapeExpr [IntImm 6; IntImm (-1)]).
Proof.
  assert (Haxis : attr_get_int {[ "axis" := AttrInt (-1) ]} "axis" 1 = Return (-1))
    by (vm_compute; reflexivity).
  pose proof (Flatten_leading_dimension
                (fun data new_shape =>
                   Return (ShapeExpr [IntImm new_shape.1; IntImm new_shape.2]))
                [Some (Var "x" (TensorStructInfo (Some [IntImm 2; IntImm 3; IntImm 4])
                                  (Some "float32")))]
                {[ "axis" := AttrInt (-1) ]}
                (Var "x" (TensorStructInfo (Some [IntImm 2; IntImm 3; IntImm 4])
                            (Some "float32")))
                [IntImm 2; IntImm 3; IntImm 4] (Some "float32") (-1)
                eq_refl eq_refl Haxis) as [Hknown _].
  rewrite (Hknown [2; 3; 4] eq_refl). vm_compute. reflexivity.
Defined.

(** ** [Expand] *)

Lemma py_list_index_past_end {X : Type} (l : list X) (k : nat) :
  (length l <= k)%nat -> py_list_index l (Z.of_nat k) = Raise IndexError.
Proof.
  intros H.
  assert (Hf : (Z.of_nat k <? 0) = false) by (apply Z.ltb_ge; lia).
  unfold py_list_index. cbv zeta. rewrite Hf. cbv iota. rewrite Hf.
  rewrite Nat2Z.id, lookup_ge_None_2 by lia. reflexivity.
Qed.

Lemma expand_loop_inside (new_shape data_shape : list Z) (i : nat) :
  (i + length new_shape <= length data_shape)%nat ->
  expand_loop i new_shape data_shape
  = Return (zip_with Z.max new_shape (drop i data_shape)).
Proof.
  revert i. induction new_shape as [|s rest IH]; intros i Hlen; cbn [expand_loop].
  - reflexivity.
  - cbn [length] in Hlen.
    destruct (lookup_lt_is_Some_2 data_shape i) as [d Hd]; [lia|].
    rewrite (py_list_index_inside _ _ _ Hd). cbn [lift]. rewrite outcome_bind_Return.
    rewrite IH by lia. rewrite outcome_bind_Return.
    rewrite (drop_S _ _ _ Hd). cbn [zip_with].
    assert (Hmax : (if s <? d then d else s) = Z.max s d)
      by (destruct (Z.ltb_spec s d); lia).
    rewrite Hmax. reflexivity.
Qed.

Lemma expand_loop_past_end (new_shape data_shape : list Z) (i : nat) :
  (i <= length data_shape)%nat ->
  (length data_shape < i + length new_shape)%nat ->
  expand_loop i new_shape data_shape = Throw (Earlier IndexError).
Proof.
  revert i. induction new_shape as [|s rest IH]; intros i Hi Hlen; cbn [expand_loop].
  - cbn [length] in Hlen. lia.
  - cbn [length] in Hlen.
    destruct (decide (i < length data_shape)%nat) as [Hin|Hout].
    + destruct (lookup_lt_is_Some_2 data_shape i) as [d Hd]; [lia|].
      rewrite (py_list_index_inside _ _ _ Hd). cbn [lift]. rewrite outcome_bind_Return.
      rewrite IH by lia. reflexivity.
    + rewrite py_list_index_past_end by lia. reflexivity.
Qed.

(** X27. [Expand] to a target shape given as a constant, on a tensor whose
    dimensions are all known. A target with no more entries than the tensor
    has dimensions is raised entry by entry to the dimension at the same
    position, counted from the front; the tensor is returned as it is when
    the result equals its shape, and is broadcast to the result otherwise. A
    target with more entries than the tensor has dimensions, which is how a
    tensor is expanded to a higher rank, raises [IndexError]. *)
Theorem Expand_constant_shape
    (relax_op_broadcast_to : option Expr -> list PrimExpr -> outcome Expr)
    (inputs : onnx_input Expr) (attr : gmap string AttrValue) (data : Expr)
    (shape : list Z) (dtype : option string) (target : list Z) (n : Z) :
  inputs !! 0%nat = Some (Some data) ->
  inputs !! 1%nat = Some (Some (Constant (mkNDArray "int64" [n] target))) ->
  struct_info data = TensorStructInfo (Some (IntImm <$> shape)) dtype ->
  ((length target <= length shape)%nat ->
     zip_with Z.max target shape = shape ->
     Expand_impl_v13 relax_op_broadcast_to inputs attr = Return data)
  /\ ((length target <= length shape)%nat ->
        zip_with Z.max target shape <> shape ->
        Expand_impl_v13 relax_op_broadcast_to inputs attr
        = relax_op_broadcast_to (Some data) (IntImm <$> zip_with Z.max target shape))
  /\ ((length shape < length target)%nat ->
        Expand_impl_v13 relax_op_broadcast_to inputs attr = Throw (Earlier IndexError)).
Proof.
  intros Hdata Htarget Hsinfo.
  assert (Hget0 : onnx_input_getitem_int inputs 0 = Ok (Some data)).
  { rewrite (onnx_input_getitem_int_nonneg inputs 0
             : onnx_input_getitem_int inputs 0 = _).
    unfold onnx_input in *. rewrite Hdata. reflexivity. }
  assert (Hget1 : onnx_input_getitem_int inputs 1
                  = Ok (Some (Constant (mkNDArray "int64" [n] target)))).
  { rewrite (onnx_input_getitem_int_nonneg inputs 1
             : onnx_input_getitem_int inputs 1 = _).
    unfold onnx_input in *. rewrite Htarget. reflexivity. }
  assert (Hrun : Expand_impl_v13 relax_op_broadcast_to inputs attr
                 = (new_shape ← expand_loop 0 target shape;
                    if decide (new_shape = shape) then Return data
                    else relax_op_broadcast_to (Some data) (IntImm <$> new_shape))).
  { unfold Expand_impl_v13. rewrite Hget0, Hget1. cbn [lift].
    rewrite !outcome_bind_Return.
    unfold tolist_1d. cbn [nd_shape nd_dtype nd_data].
    rewrite decide_True by reflexivity. rewrite outcome_bind_Return.
    rewrite (shape_values_known _ _ _ Hsinfo), outcome_bind_Return. reflexivity. }
  repeat split.
  - intros Hlen Heq. rewrite Hrun, expand_loop_inside by (simpl; lia).
    rewrite drop_0, outcome_bind_Return, decide_True by assumption. reflexivity.
  - intros Hlen Hne. rewrite Hrun, expand_loop_inside by (simpl; lia).
    rewrite drop_0, outcome_bind_Return, decide_False by assumption. reflexivity.
  - intros Hlen. rewrite Hrun, expand_loop_past_end by (simpl; lia). reflexivity.
Qed.

Lemma Expand_constant_shape_witness :
  Expand_impl_v13 (fun data values => Return (ShapeExpr values))
    [Some (Var "x" (TensorStructInfo (Some [IntImm 3; IntImm 1]) (Some "float32")));
     Some (Constant (mkNDArray "int64" [3] [2; 3; 4]))] ∅
  = Throw (Earlier IndexError)
  /\ Expand_impl_v13 (fun data values => Return (ShapeExpr values))
       [Some (Var "x" (TensorStructInfo (Some [IntImm 3; IntImm 1]) (Some "float32")));
        Some (Constant (mkNDArray "int64" [2] [1; 4]))] ∅
     = Return (ShapeExpr [IntImm 3; IntImm 4]).
Proof.
  split.
  - pose proof (Expand_constant_shape (fun data values => Return (ShapeExpr values))
                  [Some (Var "x" (TensorStructInfo (Some [IntImm 3; IntImm 1])
                                    (Some "float32")));
                   Some (Constant (mkNDArray "int64" [3] [2; 3; 4]))] ∅
                  _ [3; 1] _ [2; 3; 4] 3 eq_refl eq_refl eq_refl) as (_ & _ & Hpast).
    apply Hpast. simpl. lia.
  - pose proof (Expand_constant_shape (fun data values => Return (ShapeExpr values))
                  [Some (Var "x" (TensorStructInfo (Some [IntImm 3; IntImm 1])
                                    (Some "float32")));
                   Some (Constant (mkNDArray "int64" [2] [1; 4]))] ∅
                  _ [3; 1] _ [1; 4] 2 eq_refl eq_refl eq_refl) as (_ & Hbroadcast & _).
    rewrite Hbroadcast; [reflexivity | simpl; lia | discriminate].
Defined.

(** ** [Clip] *)

(** X28. [Clip] reads the operands at positions 0, 1 and 2 and nothing
    else, and a bound that is blank or that the node does not list at all is
    skipped without an error: with no bound the first operand is returned as
    it is and neither [topi.maximum] nor [topi.minimum] is called, with both
    the result is the minimum, with the upper bound, of the maximum of the
    operand and the lower bound. *)
Theorem Clip_optional_bounds
    (topi_maximum topi_minimum : option Expr -> Expr -> outcome Expr)
    (inputs : onnx_input Expr) (attr : gmap string AttrValue) :
  let operand (k : nat) : option Expr := default None (inputs !! k) in
  (operand 1%nat = None -> operand 2%nat = None ->
     Clip_impl_v13 topi_maximum topi_minimum inputs attr = Return (operand 0%nat))
  /\ (forall lower, operand 1%nat = Some lower -> operand 2%nat = None ->
        Clip_impl_v13 topi_maximum topi_minimum inputs attr
        = (r ← topi_maximum (operand 0%nat) lower; Return (Some r)))
  /\ (forall upper, operand 1%nat = None -> operand 2%nat = Some upper ->
        Clip_impl_v13 topi_maximum topi_minimum inputs attr
        = (r ← topi_minimum (operand 0%nat) upper; Return (Some r)))
  /\ (forall lower upper, operand 1%nat = Some lower -> operand 2%nat = Some upper ->
        Clip_impl_v13 topi_maximum topi_minimum inputs attr
        = (r ← topi_maximum (operand 0%nat) lower;
           r ← topi_minimum (Some r) upper; Return (Some r)))
  /\ ((length inputs <= 1)%nat ->
        Clip_impl_v13 topi_maximum topi_minimum inputs attr = Return (operand 0%nat)).
Proof.
  intros operand.
  assert (Hrun : Clip_impl_v13 topi_maximum topi_minimum inputs attr
                 = (results ← match operand 1%nat with
                              | Some bound =>
                                  r ← topi_maximum (operand 0%nat) bound; Return (Some r)
                              | None => Return (operand 0%nat)
                              end;
                    match operand 2%nat with
                    | Some bound => r ← topi_minimum results bound; Return (Some r)
                    | None => Return results
                    end)).
  { unfold Clip_impl_v13.
    rewrite (onnx_input_getitem_int_nonneg inputs 0
             : onnx_input_getitem_int inputs 0 = _).
    rewrite (onnx_input_getitem_int_nonneg inputs 1
             : onnx_input_getitem_int inputs 1 = _).
    rewrite (onnx_input_getitem_int_nonneg inputs 2
             : onnx_input_getitem_int inputs 2 = _).
    reflexivity. }
  repeat split.
  - intros H1 H2. rewrite Hrun, H1, H2. reflexivity.
  - intros lower H1 H2. rewrite Hrun, H1, H2.
    destruct (topi_maximum (operand 0%nat) lower); reflexivity.
  - intros upper H1 H2. rewrite Hrun, H1, H2. reflexivity.
  - intros lower upper H1 H2. rewrite Hrun, H1, H2.
    destruct (topi_maximum (operand 0%nat) lower); reflexivity.
  - intros Hlen. rewrite Hrun. unfold operand, onnx_input in *.
    rewrite (lookup_ge_None_2 inputs 1), (lookup_ge_None_2 inputs 2) by lia.
    reflexivity.
Qed.

(** ** The default target *)

Lemma get_llvm_target_raises (m : Machine) (e : raised) :
  get_llvm_target m = Throw e ->
  (exists msg, e = AttributeError msg) \/ (exists msg, e = ValueError msg).
Proof.
  unfold get_llvm_target, group0. intros H.
  destruct (which_llc m); cbn [negb] in H; [|discriminate].
  destruct (host_cpu m) as [cpu|]; [|injection H as <-; eauto].
  rewrite outcome_bind_Return in H.
  destruct (decide (platform m = "linux" \/ platform m = "linux2"));
    [|injection H as <-; eauto].
  destruct (flags m) as [features|]; [|injection H as <-; eauto].
  destruct (architecture m) as [march|]; [|injection H as <-; eauto].
  destruct (cores_per_socket m) as [cores|]; [|injection H as <-; eauto].
  destruct (sockets m) as [n|]; [|injection H as <-; eauto].
  rewrite !outcome_bind_Return in H.
  destruct (registered_targets m) as [march_list|]; [|injection H as <-; eauto].
  rewrite outcome_bind_Return in H. cbv zeta in H.
  destruct (bool_decide _); [|discriminate].
  destruct (available_features m _) as [attrs_list|]; [|injection H as <-; eauto].
  discriminate.
Qed.

(** X29. The default target of a context. A context other than ["cpu"] and
    ["gpu"] does not get the message written for it: the message is
    formatted with a variable that was never assigned, so the call raises
    [UnboundLocalError]. A machine with a CUDA device gets ["cuda"] whether
    or not it has a ROCm device too, and the CPU target of a machine without
    llc is plain ["llvm"]. [NotImplementedError] is raised in one case only:
    for ["gpu"] on a machine with neither kind of device. *)
Theorem get_default_target_contexts (m : Machine) (ctx : string) :
  (ctx <> "cpu" -> ctx <> "gpu" ->
     get_default_target m ctx = Throw (UnboundLocalError "target"))
  /\ (gpu_exist m = true -> get_default_target m "gpu" = Return "cuda")
  /\ (which_llc m = false -> get_default_target m "cpu" = Return "llvm")
  /\ (forall msg, get_default_target m ctx = Throw (NotImplementedError msg) ->
        ctx = "gpu" /\ gpu_exist m = false /\ rocm_exist m = false
        /\ msg = "Only cuda and rocm GPUs currently supported.").
Proof.
  repeat split.
  - intros Hcpu Hgpu. unfold get_default_target.
    rewrite decide_False, decide_False by assumption. reflexivity.
  - intros Hcuda. unfold get_default_target. cbn. rewrite Hcuda. reflexivity.
  - intros Hllc. unfold get_default_target, get_llvm_target. cbn. rewrite Hllc. reflexivity.
  - revert H. unfold get_default_target.
    destruct (decide (ctx = "cpu")) as [->|Hcpu].
    + intros H. apply get_llvm_target_raises in H as [[? H]|[? H]]; discriminate H.
    + destruct (decide (ctx = "gpu")); [auto | discriminate].
  - revert H. unfold get_default_target.
    destruct (decide (ctx = "cpu")) as [->|Hcpu].
    + intros H. apply get_llvm_target_raises in H as [[? H]|[? H]]; discriminate H.
    + destruct (decide (ctx = "gpu")); [|discriminate].
      destruct (gpu_exist m); [discriminate | reflexivity].
  - revert H. unfold get_default_target.
    destruct (decide (ctx = "cpu")) as [->|Hcpu].
    + intros H. apply get_llvm_target_raises in H as [[? H]|[? H]]; discriminate H.
    + destruct (decide (ctx = "gpu")); [|discriminate].
      destruct (gpu_exist m); [discriminate|].
      destruct (rocm_exist m); [discriminate | reflexivity].
  - revert H. unfold get_default_target.
    destruct (decide (ctx = "cpu")) as [->|Hcpu].
    + intros H. apply get_llvm_target_raises in H as [[? H]|[? H]]; discriminate H.
    + destruct (decide (ctx = "gpu")); [|discriminate].
      destruct (gpu_exist m); [discriminate|].
      destruct (rocm_exist m); [discriminate|]. intros [= <-]. reflexivity.
Qed.

Lemma string_app_assoc (s1 s2 s3 : string) : (s1 +:+ s2) +:+ s3 = s1 +:+ s2 +:+ s3.
Proof.
  induction s1 as [|c s1 IH]; [reflexivity|].
  change (String c ((s1 +:+ s2) +:+ s3) = String c (s1 +:+ s2 +:+ s3)).
  f_equal. exact IH.
Qed.

Lemma str_all_but_last_snoc (s : string) (c : ascii) :
  str_all_but_last (s +:+ String c EmptyString) = s.
Proof.
  induction s as [|a s IH]; [reflexivity|].
  change (String a s +:+ String c EmptyString) with (String a (s +:+ String c EmptyString)).
  cbn [str_all_but_last]. rewrite IH.
  destruct s; reflexivity.
Qed.

Lemma attrs_loop (attrs : list string) (acc : string) :
  foldl (fun attrs_string attr => attrs_string +:+ "+" +:+ attr +:+ ",") acc attrs
  = acc +:+ foldl (fun attrs_string attr => attrs_string +:+ "+" +:+ attr +:+ ",") "" attrs.
Proof.
  revert acc. induction attrs as [|a attrs IH]; intros acc; cbn [foldl].
  - symmetry. apply string_app_empty_r.
  - rewrite (IH (acc +:+ _)), (IH ("" +:+ _)).
    change ("" +:+ "+" +:+ a +:+ ",") with ("+" +:+ a +:+ ",").
    apply string_app_assoc.
Qed.

Lemma string_app_regroup (p a c r : string) :
  (p +:+ a +:+ c) +:+ (r +:+ c) = ((p +:+ a) +:+ c +:+ r) +:+ c.
Proof. rewrite !string_app_assoc. reflexivity. Qed.

Lemma attrs_loop_join (a : string) (attrs : list string) :
  foldl (fun attrs_string attr => attrs_string +:+ "+" +:+ attr +:+ ",") "" (a :: attrs)
  = String.concat "," (String.append "+" <$> a :: attrs) +:+ ",".
Proof.
  revert a. induction attrs as [|b attrs IH]; intros a.
  - reflexivity.
  - change (foldl ?f "" (a :: b :: attrs)) with (foldl f ("+" +:+ a +:+ ",") (b :: attrs)).
    rewrite attrs_loop, IH.
    exact (string_app_regroup "+" a ","
             (String.concat "," (String.append "+" <$> b :: attrs))).
Qed.

Lemma attrs_string_join (attrs : list string) :
  attrs_string attrs = String.concat "," (String.append "+" <$> attrs).
Proof.
  unfold attrs_string. destruct attrs as [|a attrs]; [reflexivity|].
  rewrite attrs_loop_join. apply str_all_but_last_snoc.
Qed.

(** X30. The CPU target of a linux machine with llc whose architecture,
    written with a hyphen when it is [x86_64], is among the registered
    targets: the target ends in [-mattr=] followed by the flags of the
    machine that the architecture knows as features, in the order of the
    flags, each with a [+] before it and a comma between two of them and
    none at the end; with no such flag the option is empty. *)
Theorem get_llvm_target_mattr (m : Machine) (cpu march : string)
    (features march_list attrs_list : list string) (cores n : Z) :
  which_llc m = true ->
  host_cpu m = Some cpu ->
  platform m = "linux" \/ platform m = "linux2" ->
  flags m = Some features ->
  architecture m = Some march ->
  cores_per_socket m = Some cores ->
  sockets m = Some n ->
  registered_targets m = Some march_list ->
  let march' := if decide (march = "x86_64") then "x86-64" else march in
  march' ∈ march_list ->
  available_features m march' = Some attrs_list ->
  get_llvm_target m
  = Return ("llvm -mcpu=" +:+ cpu +:+ " -mtriple=" +:+ host_target m
            +:+ " -num_cores=" +:+ pretty (cores * n) +:+ " -mattr="
            +:+ String.concat ","
                  (String.append "+" <$> filter (fun f => f ∈ attrs_list) features)).
Proof.
  intros Hllc Hcpu Hplatform Hflags Harch Hcores Hsockets Htargets march' Hin Hfeatures.
  unfold get_llvm_target, group0.
  rewrite Hllc, Hcpu. cbn [negb]. rewrite outcome_bind_Return.
  rewrite decide_True by assumption.
  rewrite Hflags, Harch, Hcores, Hsockets, !outcome_bind_Return.
  rewrite Htargets, outcome_bind_Return. cbv zeta. fold march'.
  rewrite bool_decide_eq_true_2 by assumption.
  rewrite Hfeatures, outcome_bind_Return, attrs_string_join.
  f_equal. rewrite !string_app_assoc. reflexivity.
Qed.

Lemma get_llvm_target_mattr_witness :
  get_llvm_target linux_machine
  = Return
      "llvm -mcpu=skylake -mtriple=x86_64-pc-linux-gnu -num_cores=8 -mattr=+sse2,+avx2".
Proof.
  rewrite (get_llvm_target_mattr linux_machine "skylake" "x86_64"
             ["fpu"; "sse2"; "ht"; "avx2"] ["aarch64"; "x86"; "x86-64"]
             ["avx2"; "avx512f"; "sse2"] 4 2
             eq_refl eq_refl (or_introl eq_refl) eq_refl eq_refl eq_refl eq_refl eq_refl).
  - vm_compute. reflexivity.
  - change ("x86-64" ∈ ["aarch64"; "x86"; "x86-64"]).
    do 2 apply list_elem_of_further. apply list_elem_of_here.
  - reflexivity.
Defined.
